(** * Assessment tool: seed-data generator, pattern reporter, CSV export,
    storage helpers and live-quiz handler.

  A shallow embedding of the JavaScript sources:
  - [scripts/seed-data.js]       (module [Seed])
  - [scripts/verify-patterns.js] (module [Verify])
  - [api/export-csv.js]          (module [Csv])
  - [api/lib/db.js]              (module [Db])
  - [api/chat.js]                (module [Chat])

  Conventions.  Integer-valued JavaScript numbers are [Z]; the values
  returned by [Math.random()] and the quotients computed by the reporter
  are exact rationals [Q] (binary rounding is not modelled; the integer
  results of [Math.floor], [Math.max] and [Math.min] are what the
  statements below speak about).  Strings are [string]. *)

From Stdlib Require Import ZArith QArith Qround String Ascii List Lia Bool.
From Stdlib Require Import Permutation Sorted.
From Stdlib Require Import DecimalString.
From Stdlib Require DecimalPos DecimalZ.
From Stdlib Require Import Lqa.
Import ListNotations.

Open Scope Z_scope.

(* ================================================================== *)
(** * The injected random source *)
(* ================================================================== *)

Module Rand.

(** [Math.random()] is the only source of randomness.  A run of the
    program sees a fixed infinite sequence of draws; the computation
    threads the position of the next unread draw. *)
Definition Source := nat -> Q.

Definition M (A : Type) : Type := Source -> nat -> A * nat.

Definition ret {A} (a : A) : M A := fun _ i => (a, i).

Definition bind {A B} (m : M A) (k : A -> M B) : M B :=
  fun src i => let (a, j) := m src i in k a src j.

(** One call of [Math.random()]. *)
Definition Math_random : M Q := fun src i => (src i, S i).

(** Every draw is in [0, 1). *)
Definition uniform (src : Source) : Prop :=
  forall i, (0 <= src i)%Q /\ (src i < 1)%Q.

End Rand.

Declare Scope rand_scope.
Delimit Scope rand_scope with rand.
Notation "x <- m ;; k" := (Rand.bind m (fun x => k))
(at level 61, m at next level, right associativity) : rand_scope.

(* ================================================================== *)
(** * scripts/seed-data.js *)
(* ================================================================== *)

Module Seed.
Import Rand.
Local Open Scope rand_scope.

(** ** Configuration *)

Record PillarSpec := { max : Z; weakThreshold : Z }.

Record PillarConfig := {
  pc_numeracy : PillarSpec;
  pc_reading : PillarSpec;
  pc_computer : PillarSpec;
  pc_logic : PillarSpec;
  pc_communication : PillarSpec;
  pc_mindset : PillarSpec
}.

Definition PILLAR_CONFIG : PillarConfig := {|
  pc_numeracy      := {| max := 10; weakThreshold := 4 |};
  pc_reading       := {| max := 5;  weakThreshold := 2 |};
  pc_computer      := {| max := 10; weakThreshold := 4 |};
  pc_logic         := {| max := 8;  weakThreshold := 3 |};
  pc_communication := {| max := 5;  weakThreshold := 2 |};
  pc_mindset       := {| max := 7;  weakThreshold := 3 |}
|}.

Record Tier := { level : Z; title : string; probability : Q }.

Definition READINESS_DISTRIBUTION : list Tier := [
  {| level := 1; title := "Ready to Start";          probability := 15 # 100 |};
  {| level := 2; title := "Ready with Quick Prep";   probability := 40 # 100 |};
  {| level := 3; title := "Need Foundation Work";    probability := 25 # 100 |};
  {| level := 4; title := "Need Comprehensive Prep"; probability := 15 # 100 |};
  {| level := 5; title := "Not Yet Ready";           probability := 5 # 100 |}
].

Record WeaknessTargets := {
  wt_reading : Q;
  wt_communication : Q;
  wt_logic : Q;
  wt_numeracy : Q;
  wt_computer : Q;
  wt_mindset : Q
}.

Definition WEAKNESS_TARGETS : WeaknessTargets := {|
  wt_reading       := 68 # 100;
  wt_communication := 62 # 100;
  wt_logic         := 45 # 100;
  wt_numeracy      := 30 # 100;
  wt_computer      := 25 # 100;
  wt_mindset       := 20 # 100
|}.

(** ** Helper functions *)

(** [Math.floor(Math.random() * (max - min + 1)) + min] *)
Definition randomInt (min max : Z) : M Z :=
  r <- Math_random ;;
  ret (Qfloor (r * inject_Z (max - min + 1)) + min).

(** What [selectReadinessLevel] hands back: inside the loop a fresh
    object with [level] and [title] only, on the fallback path the
    configuration entry itself (which also carries [probability]). *)
Record Readiness := {
  r_level : Z;
  r_title : string;
  r_probability : option Q
}.

(** The [for ... of] loop: [cumulative] is updated before the test. *)
Fixpoint walk (rand cumulative : Q) (dist : list Tier) : option Readiness :=
  match dist with
  | [] => None
  | config :: rest =>
      let cumulative := (cumulative + probability config)%Q in
      if Qle_bool rand cumulative
      then Some {| r_level := level config; r_title := title config;
                   r_probability := None |}
      else walk rand cumulative rest
  end.

(** [dist[dist.length - 1]]; [None] stands for [undefined]. *)
Definition lastEntry (dist : list Tier) : option Readiness :=
  match nth_error dist (length dist - 1) with
  | Some config => Some {| r_level := level config; r_title := title config;
                           r_probability := Some (probability config) |}
  | None => None
  end.

(** The body of [selectReadinessLevel] once [rand] has been drawn. *)
Definition selectFrom (dist : list Tier) (rand : Q) : option Readiness :=
  match walk rand 0 dist with
  | Some r => Some r
  | None => lastEntry dist
  end.

Definition selectReadinessLevel : M (option Readiness) :=
  rand <- Math_random ;;
  ret (selectFrom READINESS_DISTRIBUTION rand).

Record Scores := {
  numeracy : Z;
  reading : Z;
  computer : Z;
  logic : Z;
  communication : Z;
  mindset : Z
}.

Definition set_numeracy (v : Z) (s : Scores) : Scores :=
  {| numeracy := v; reading := reading s; computer := computer s;
     logic := logic s; communication := communication s; mindset := mindset s |}.
Definition set_reading (v : Z) (s : Scores) : Scores :=
  {| numeracy := numeracy s; reading := v; computer := computer s;
     logic := logic s; communication := communication s; mindset := mindset s |}.
Definition set_computer (v : Z) (s : Scores) : Scores :=
  {| numeracy := numeracy s; reading := reading s; computer := v;
     logic := logic s; communication := communication s; mindset := mindset s |}.
Definition set_logic (v : Z) (s : Scores) : Scores :=
  {| numeracy := numeracy s; reading := reading s; computer := computer s;
     logic := v; communication := communication s; mindset := mindset s |}.
Definition set_communication (v : Z) (s : Scores) : Scores :=
  {| numeracy := numeracy s; reading := reading s; computer := computer s;
     logic := logic s; communication := v; mindset := mindset s |}.
Definition set_mindset (v : Z) (s : Scores) : Scores :=
  {| numeracy := numeracy s; reading := reading s; computer := computer s;
     logic := logic s; communication := communication s; mindset := v |}.

(** [generateBaseScores(readinessLevel)]: six base draws in declaration
    order, then the adjustment of the tier, each against its own draw. *)
Definition generateBaseScores (readinessLevel : Z) : M Scores :=
  n0 <- randomInt 2 (max (pc_numeracy PILLAR_CONFIG)) ;;
  r0 <- randomInt 1 (max (pc_reading PILLAR_CONFIG)) ;;
  c0 <- randomInt 2 (max (pc_computer PILLAR_CONFIG)) ;;
  l0 <- randomInt 2 (max (pc_logic PILLAR_CONFIG)) ;;
  k0 <- randomInt 1 (max (pc_communication PILLAR_CONFIG)) ;;
  m0 <- randomInt 2 (max (pc_mindset PILLAR_CONFIG)) ;;
  let scores := {| numeracy := n0; reading := r0; computer := c0;
                   logic := l0; communication := k0; mindset := m0 |} in
  if readinessLevel =? 1 then
    a <- randomInt 7 10 ;; let scores := set_numeracy (Z.max (numeracy scores) a) scores in
    a <- randomInt 4 5 ;;  let scores := set_reading (Z.max (reading scores) a) scores in
    a <- randomInt 7 10 ;; let scores := set_computer (Z.max (computer scores) a) scores in
    a <- randomInt 6 8 ;;  let scores := set_logic (Z.max (logic scores) a) scores in
    a <- randomInt 4 5 ;;  let scores := set_communication (Z.max (communication scores) a) scores in
    a <- randomInt 5 7 ;;  let scores := set_mindset (Z.max (mindset scores) a) scores in
    ret scores
  else if readinessLevel =? 2 then
    a <- randomInt 5 8 ;; let scores := set_numeracy (Z.max (numeracy scores) a) scores in
    a <- randomInt 5 8 ;; let scores := set_computer (Z.max (computer scores) a) scores in
    a <- randomInt 4 6 ;; let scores := set_mindset (Z.max (mindset scores) a) scores in
    ret scores
  else if readinessLevel =? 4 then
    a <- randomInt 3 6 ;; let scores := set_numeracy (Z.min (numeracy scores) a) scores in
    a <- randomInt 1 3 ;; let scores := set_reading (Z.min (reading scores) a) scores in
    a <- randomInt 2 4 ;; let scores := set_logic (Z.min (logic scores) a) scores in
    a <- randomInt 1 3 ;; let scores := set_communication (Z.min (communication scores) a) scores in
    ret scores
  else if readinessLevel =? 5 then
    a <- randomInt 1 4 ;; let scores := set_numeracy (Z.min (numeracy scores) a) scores in
    a <- randomInt 0 2 ;; let scores := set_reading (Z.min (reading scores) a) scores in
    a <- randomInt 1 4 ;; let scores := set_computer (Z.min (computer scores) a) scores in
    a <- randomInt 1 3 ;; let scores := set_logic (Z.min (logic scores) a) scores in
    a <- randomInt 0 2 ;; let scores := set_communication (Z.min (communication scores) a) scores in
    a <- randomInt 1 3 ;; let scores := set_mindset (Z.min (mindset scores) a) scores in
    ret scores
  else
    ret scores.

(** [Math.random() < target] *)
Definition below (r target : Q) : bool := negb (Qle_bool target r).

(** [enforcePatterns(scores)]: one draw per pillar, in the order
    reading, communication, logic, numeracy, computer, mindset. *)
Definition enforcePatterns (scores : Scores) : M Scores :=
  u <- Math_random ;;
  let scores := if below u (wt_reading WEAKNESS_TARGETS)
    then set_reading (Z.min (reading scores) (weakThreshold (pc_reading PILLAR_CONFIG))) scores
    else scores in
  u <- Math_random ;;
  let scores := if below u (wt_communication WEAKNESS_TARGETS)
    then set_communication (Z.min (communication scores) (weakThreshold (pc_communication PILLAR_CONFIG))) scores
    else scores in
  u <- Math_random ;;
  let scores := if below u (wt_logic WEAKNESS_TARGETS)
    then set_logic (Z.min (logic scores) (weakThreshold (pc_logic PILLAR_CONFIG))) scores
    else scores in
  u <- Math_random ;;
  let scores := if below u (wt_numeracy WEAKNESS_TARGETS)
    then set_numeracy (Z.min (numeracy scores) (weakThreshold (pc_numeracy PILLAR_CONFIG))) scores
    else scores in
  u <- Math_random ;;
  let scores := if below u (wt_computer WEAKNESS_TARGETS)
    then set_computer (Z.min (computer scores) (weakThreshold (pc_computer PILLAR_CONFIG))) scores
    else scores in
  u <- Math_random ;;
  let scores := if below u (wt_mindset WEAKNESS_TARGETS)
    then set_mindset (Z.min (mindset scores) (weakThreshold (pc_mindset PILLAR_CONFIG))) scores
    else scores in
  ret scores.

(** [generateTimestamp()], as the number handed to [new Date]; the
    rendering of that date as text is not modelled.  [now] is the
    reading of [Date.now()]. *)
Definition generateTimestamp (now : Z) : M Q :=
let thirtyDaysAgo := now - (30 * 24 * 60 * 60 * 1000) in
randomDraw <- Math_random ;;
ret (inject_Z thirtyDaysAgo + randomDraw * inject_Z (now - thirtyDaysAgo))%Q.

(** One iteration of the loop of [seedDatabase], up to the values bound
    to the INSERT statement: tier selection, base scores with tier
    adjustment, weakness enforcement, timestamp.  The session identifier
    [demo_NNN_clock] uses no draw and is left out.  [None] stands for
    the TypeError of reading [.level] off [undefined]. *)
Record Generated := {
g_timestamp : Q;
g_scores : Scores;
g_level : Z;
g_title : string
}.

Definition generateRecord (now : Z) : M (option Generated) :=
readinessData <- selectReadinessLevel ;;
match readinessData with
| None => ret None
| Some rd =>
    scores <- generateBaseScores (r_level rd) ;;
    scores <- enforcePatterns scores ;;
    timestamp <- generateTimestamp now ;;
    ret (Some {| g_timestamp := timestamp; g_scores := scores;
                 g_level := r_level rd; g_title := r_title rd |})
end.

(** The [for] loop of [seedDatabase]: [count] iterations, each reading
    its own draws; a TypeError ends the run. *)
Fixpoint generateRecords (count : nat) (now : Z) : M (option (list Generated)) :=
match count with
| O => ret (Some [])
| S remaining =>
    record <- generateRecord now ;;
    match record with
    | None => ret None
    | Some g =>
        rest <- generateRecords remaining now ;;
        ret (option_map (cons g) rest)
    end
end.

End Seed.

(* ================================================================== *)
(** * JavaScript values, exceptions and effects *)
(* ================================================================== *)

Module Js.

(** A JavaScript value as the handlers meet it: what [JSON.parse] yields,
    plus [undefined].  Numbers are integers in this model. *)
#[warnings="-register-all"]
Inductive Value :=
| VUndefined
| VNull
| VBool (b : bool)
| VNum (z : Z)
| VStr (s : string)
| VArr (items : list Value)
| VObj (props : list (string * Value)).

Inductive Error :=
| TypeError (message : string)
| SyntaxError (message : string)
| ExternalError (message : string).

Definition message (e : Error) : string :=
match e with
| TypeError m | SyntaxError m | ExternalError m => m
end.

Inductive Outcome (A : Type) :=
| Ok (a : A)
| Throw (e : Error).
Arguments Ok {A} a.
Arguments Throw {A} e.

(** A computation over a world [W] that returns or throws. *)
Definition M (W A : Type) : Type := W -> Outcome A * W.

Definition ret {W A} (a : A) : M W A := fun w => (Ok a, w).

Definition bind {W A B} (m : M W A) (k : A -> M W B) : M W B :=
fun w => match m w with
         | (Ok a, w') => k a w'
         | (Throw e, w') => (Throw e, w')
         end.

Definition throw {W A} (e : Error) : M W A := fun w => (Throw e, w).

(** [try { m } catch (e) { handler e }] *)
Definition tryCatch {W A} (m : M W A) (handler : Error -> M W A) : M W A :=
fun w => match m w with
         | (Ok a, w') => (Ok a, w')
         | (Throw e, w') => handler e w'
         end.

(** The result of an external call, as the caller sees it. *)
Definition lift {W A} (o : Outcome A) : M W A := fun w => (o, w).

(** ToBoolean *)
Definition truthy (v : Value) : bool :=
match v with
| VUndefined | VNull => false
| VBool b => b
| VNum z => negb (z =? 0)
| VStr s => negb (String.eqb s "")
| VArr _ | VObj _ => true
end.

(** [a || b] *)
Definition or_else (a b : Value) : Value := if truthy a then a else b.

Fixpoint lookup {A} (key : string) (props : list (string * A)) : option A :=
match props with
| [] => None
| (k, v) :: rest => if String.eqb k key then Some v else lookup key rest
end.

(** [v.key] for the property names the handlers read, none of which is a
    built-in property of a primitive or of an array; on [null] and
    [undefined] the access throws. *)
Definition getProp (v : Value) (key : string) : Outcome Value :=
match v with
| VUndefined | VNull =>
    Throw (TypeError ("Cannot read properties of null or undefined (reading '" ++ key ++ "')"))
| VObj props => match lookup key props with
                | Some x => Ok x
                | None => Ok VUndefined
                end
| _ => Ok VUndefined
end.

(** [v?.key] *)
Definition getPropOpt (v : Value) (key : string) : Value :=
match getProp v key with
| Ok x => x
| Throw _ => VUndefined
end.

(** [v?.[0]] *)
Definition firstOpt (v : Value) : Value :=
match v with
| VArr (x :: _) => x
| VStr (String c _) => VStr (String c EmptyString)
| VObj props => match lookup "0" props with Some x => x | None => VUndefined end
| _ => VUndefined
end.

Definition isArray (v : Value) : bool :=
match v with VArr _ => true | _ => false end.

(** [v === true] *)
Definition strictlyTrue (v : Value) : bool :=
match v with VBool true => true | _ => false end.

End Js.

Declare Scope js_scope.
Delimit Scope js_scope with js.
Notation "x <- m ;; k" := (Js.bind m (fun x => k))
  (at level 61, m at next level, right associativity) : js_scope.
Notation "m ;;; k" := (Js.bind m (fun _ => k))
  (at level 61, right associativity) : js_scope.

(* ================================================================== *)
(** * api/lib/db.js *)
(* ================================================================== *)

Module Db.
Import Js.
Local Open Scope js_scope.

(** A value in a result row of sql.js (REAL and BLOB do not occur). *)
Inductive SqlValue :=
| SqlNull
| SqlInt (z : Z)
| SqlText (s : string).

Record ResultSet := { columns : list string; values : list (list SqlValue) }.

(** The SQL statements the module sends to the engine. *)
Inductive Sql :=
| CREATE_TABLE_IF_NOT_EXISTS
| INSERT_INTO_assessments
| SELECT_all_ORDER_BY_timestamp_DESC
| SELECT_COUNT.

(** What the module uses of sql.js and of [fs]: every call may throw. *)
Record Engine := {
  Database : Type;
  FileData : Type;
  dbPath : string;
  initSqlJs : Outcome unit;
  readFileSync : FileData -> Outcome FileData;
  newDatabase : option FileData -> Outcome Database;
  run : Database -> Sql -> list Value -> Outcome Database;
  exec : Database -> Sql -> Outcome (list ResultSet);
  export : Database -> Outcome FileData;
  writeFileSync : FileData -> Outcome unit
}.

Section WithEngine.
Variable E : Engine.

(** The module's singletons [db] and [SQL], the database file, and the
    console. *)
Record World := {
  db : option (Database E);
  SQL : bool;
  disk : option (FileData E);
  console : list string
}.

Definition set_db (d : option (Database E)) (w : World) : World :=
{| db := d; SQL := SQL w; disk := disk w; console := console w |}.
Definition set_SQL (b : bool) (w : World) : World :=
{| db := db w; SQL := b; disk := disk w; console := console w |}.
Definition set_disk (f : option (FileData E)) (w : World) : World :=
{| db := db w; SQL := SQL w; disk := f; console := console w |}.

(** [console.log] and [console.error] *)
Definition log (line : string) : M World unit :=
fun w => (Ok tt, {| db := db w; SQL := SQL w; disk := disk w;
                    console := console w ++ [line] |}).

Definition modify (f : World -> World) : M World unit :=
fun w => (Ok tt, f w).

Definition read {A} (f : World -> A) : M World A :=
fun w => (Ok (f w), w).

(** [saveDb()] *)
Definition saveDb : M World unit :=
d <- read db ;;
match d with
| None => ret tt
| Some d =>
    tryCatch
      (data <- lift (export E d) ;;
       lift (writeFileSync E data) ;;;
       modify (set_disk (Some data)) ;;;
       log "[DB] Database saved to disk")
      (fun error => log ("[DB] Error saving database: " ++ message error))
end.

(** A method call on the shared database object: the object is updated
    in place, so the singleton sees the change. *)
Definition db_run (sql : Sql) (params : list Value) : M World unit :=
d <- read db ;;
match d with
| None => throw (TypeError "Cannot read properties of null (reading 'run')")
| Some d => d' <- lift (run E d sql params) ;; modify (set_db (Some d'))
end.

Definition db_exec (sql : Sql) : M World (list ResultSet) :=
d <- read db ;;
match d with
| None => throw (TypeError "Cannot read properties of null (reading 'exec')")
| Some d => lift (exec E d sql)
end.

(** [initDb()]; the returned handle is the singleton itself. *)
Definition initDb : M World unit :=
d <- read db ;;
match d with
| Some _ => ret tt
| None =>
    loaded <- read SQL ;;
    (if loaded then ret tt
     else lift (initSqlJs E) ;;; modify (set_SQL true)) ;;;
    log ("[DB] Database path: " ++ dbPath E) ;;;
    tryCatch
      (file <- read disk ;;
       match file with
       | Some f =>
           fileBuffer <- lift (readFileSync E f) ;;
           d <- lift (newDatabase E (Some fileBuffer)) ;;
           modify (set_db (Some d)) ;;;
           log "[DB] Loaded existing database"
       | None =>
           d <- lift (newDatabase E None) ;;
           modify (set_db (Some d)) ;;;
           log "[DB] Created new database"
       end)
      (fun error =>
         log ("[DB] Error loading database, creating new: " ++ message error) ;;;
         d <- lift (newDatabase E None) ;;
         modify (set_db (Some d))) ;;;
    db_run CREATE_TABLE_IF_NOT_EXISTS [] ;;;
    saveDb
end.

(** [getDb()] *)
Definition getDb : M World unit := initDb.

(** The argument of [insertAssessment]. *)
Record Assessment := {
  sessionId : Value;
  numeracyScore : Value;
  readingScore : Value;
  computerScore : Value;
  logicScore : Value;
  communicationScore : Value;
  mindsetScore : Value;
  readinessLevel : Value;
  readinessTitle : Value;
  ipHash : Value;
  consentGiven : Value
}.

Definition insertParams (assessment : Assessment) : list Value :=
[ sessionId assessment;
  numeracyScore assessment;
  readingScore assessment;
  computerScore assessment;
  logicScore assessment;
  communicationScore assessment;
  mindsetScore assessment;
  readinessLevel assessment;
  readinessTitle assessment;
  ipHash assessment;
  if truthy (consentGiven assessment) then VNum 1 else VNum 0 ].

(** [insertAssessment(assessment)]: [getDb] is awaited before the [try]. *)
Definition insertAssessment (assessment : Assessment) : M World bool :=
getDb ;;;
tryCatch
  (db_run INSERT_INTO_assessments (insertParams assessment) ;;;
   saveDb ;;;
   log "[DB] Assessment inserted successfully" ;;;
   ret true)
  (fun error =>
     log ("[DB] Insert error: " ++ message error) ;;;
     ret false).

(** A row object: the properties set by [obj[col] = row[i]]. *)
Definition Row := list (string * SqlValue).

Fixpoint setProp (col : string) (v : SqlValue) (obj : Row) : Row :=
match obj with
| [] => [(col, v)]
| (k, x) :: rest =>
    if String.eqb k col then (k, v) :: rest else (k, x) :: setProp col v rest
end.

(** [columns.forEach((col, i) => { obj[col] = row[i]; })]; a column
    beyond the end of [row] reads back as [undefined] either way. *)
Fixpoint rowObject (cols : list string) (row : list SqlValue) (obj : Row) : Row :=
match cols, row with
| col :: cols', v :: row' => rowObject cols' row' (setProp col v obj)
| _, _ => obj
end.

(** [getAllAssessments()] *)
Definition getAllAssessments : M World (list Row) :=
getDb ;;;
tryCatch
  (results <- db_exec SELECT_all_ORDER_BY_timestamp_DESC ;;
   match results with
   | [] => ret []
   | first :: _ =>
       ret (map (fun row => rowObject (columns first) row []) (values first))
   end)
  (fun error =>
     log ("[DB] Query error: " ++ message error) ;;;
     ret []).

End WithEngine.

Arguments log {E} line.
Arguments read {E A} f.
Arguments modify {E} f.

End Db.

(* ================================================================== *)
(** * api/export-csv.js *)
(* ================================================================== *)

Module Http.
Import Js.

Inductive Body :=
| NoBody
| Text (content : string)
| Json (v : Value).

Record Response := {
  status : Z;
  responseHeaders : list (string * string);
  body : Body
}.

End Http.

Module Csv.
Import Js Db Http.
Local Open Scope string_scope.
Local Open Scope list_scope.
Local Open Scope Z_scope.
Local Open Scope js_scope.

Definition LF : ascii := "010"%char.
Definition CR : ascii := "013"%char.
Definition COMMA : ascii := ","%char.
Definition DQUOTE : ascii := "034"%char.

(** [String(n)] for an integer: its decimal digits, with a leading
    minus sign when negative (JavaScript prints integers this way below
    10^21 in absolute value, which covers every 64-bit column value). *)
Definition numberToString (z : Z) : string :=
NilZero.string_of_int (Z.to_int z).

(** [String(value)], and the element conversion of [Array.prototype.join],
    which renders [null] and [undefined] as the empty string. *)
Definition toString (v : SqlValue) : string :=
match v with
| SqlNull => ""
| SqlInt z => numberToString z
| SqlText s => s
end.

(** [row.column] *)
Definition field (row : Row) (column : string) : option SqlValue :=
lookup column row.

(** [value || ''] *)
Definition orEmpty (value : option SqlValue) : SqlValue :=
match value with
| None | Some SqlNull => SqlText ""
| Some (SqlInt z) => if z =? 0 then SqlText "" else SqlInt z
| Some (SqlText s) => if String.eqb s "" then SqlText "" else SqlText s
end.

(** [value ?? ''] *)
Definition nullishEmpty (value : option SqlValue) : SqlValue :=
match value with
| None | Some SqlNull => SqlText ""
| Some v => v
end.

(** [stringValue.includes(c)] for a one-character [c] *)
Fixpoint includes (c : ascii) (s : string) : bool :=
match s with
| EmptyString => false
| String a rest => if Ascii.eqb a c then true else includes c rest
end.

(** [stringValue.replace] of every double quote by two of them *)
Fixpoint doubleQuotes (s : string) : string :=
match s with
| EmptyString => EmptyString
| String a rest =>
    if Ascii.eqb a DQUOTE
    then String DQUOTE (String DQUOTE (doubleQuotes rest))
    else String a (doubleQuotes rest)
end.

(** [escapeCSVField(value)]; [None] is [undefined]. *)
Definition escapeCSVField (value : option SqlValue) : string :=
match value with
| None | Some SqlNull => ""
| Some v =>
    let stringValue := toString v in
    let needsQuotes := includes COMMA stringValue
                       || includes DQUOTE stringValue
                       || includes LF stringValue
                       || includes CR stringValue in
    if needsQuotes
    then String DQUOTE (String.append (doubleQuotes stringValue) (String DQUOTE EmptyString))
    else stringValue
end.

Definition headers : list string :=
[ "session_id";
  "timestamp";
  "numeracy_score";
  "reading_score";
  "computer_score";
  "logic_score";
  "communication_score";
  "mindset_score";
  "readiness_level";
  "readiness_title" ].

(** [array.join(sep)] on an array of strings *)
Definition join (sep : string) (items : list string) : string :=
String.concat sep items.

(** The ten entries of the array literal built for one row. *)
Definition lineFields (row : Row) : list string :=
[ toString (orEmpty (field row "session_id"));
  toString (orEmpty (field row "timestamp"));
  toString (nullishEmpty (field row "numeracy_score"));
  toString (nullishEmpty (field row "reading_score"));
  toString (nullishEmpty (field row "computer_score"));
  toString (nullishEmpty (field row "logic_score"));
  toString (nullishEmpty (field row "communication_score"));
  toString (nullishEmpty (field row "mindset_score"));
  toString (nullishEmpty (field row "readiness_level"));
  escapeCSVField (Some (orEmpty (field row "readiness_title"))) ].

Definition csvLine (row : Row) : string := join "," (lineFields row).

(** The array [csvLines] after the loop. *)
Definition csvLines (rows : list Row) : list string :=
join "," headers :: map csvLine rows.

Definition csvContent (rows : list Row) : string :=
join (String LF EmptyString) (csvLines rows).

Definition corsHeaders : list (string * string) :=
[ ("Access-Control-Allow-Origin", "*");
  ("Access-Control-Allow-Methods", "GET, OPTIONS");
  ("Access-Control-Allow-Headers", "Content-Type") ].

Definition downloadHeaders : list (string * string) :=
[ ("Content-Type", "text/csv; charset=utf-8");
  ("Content-Disposition",
   String.append "attachment; filename="
     (String DQUOTE (String.append "assessments.csv" (String DQUOTE "")))) ].

Section WithEngine.
Variable E : Engine.

(** [handler(req, res)], as a function of [req.method]. *)
Definition handler (method : string) : M (World E) Response :=
if String.eqb method "OPTIONS" then
  ret {| status := 200; responseHeaders := corsHeaders; body := NoBody |}
else if negb (String.eqb method "GET") then
  ret {| status := 405; responseHeaders := corsHeaders;
         body := Json (VObj [("error", VStr "Method not allowed. Use GET.")]) |}
else
  tryCatch
    (log "[CSV Export] Starting export..." ;;;
     rows <- getAllAssessments E ;;
     log (String.append "[CSV Export] Found "
            (String.append (numberToString (Z.of_nat (length rows)))
                           " assessments")) ;;;
     let csvContent := csvContent rows in
     log "[CSV Export] Export complete" ;;;
     ret {| status := 200; responseHeaders := corsHeaders ++ downloadHeaders;
            body := Text csvContent |})
    (fun error =>
       log "[CSV Export] Error" ;;;
       ret {| status := 500; responseHeaders := corsHeaders;
              body := Json (VObj [("error", VStr "Failed to export CSV");
                                  ("message", VStr (message error))]) |}).

End WithEngine.

End Csv.

(* ================================================================== *)
(** * scripts/verify-patterns.js *)
(* ================================================================== *)

Module Verify.
Import Js.
Local Open Scope string_scope.
Local Open Scope list_scope.
Local Open Scope Z_scope.

(** ** JavaScript numbers

    A finite number is an exact rational (signed zeros and binary
    rounding are not modelled); [NaN] and the infinities are kept, since
    the script divides by a count that can be zero. *)
Inductive Num :=
| Fin (q : Q)
| NaN
| PosInf
| NegInf.

Definition ofZ (z : Z) : Num := Fin (inject_Z z).

Definition isZero (q : Q) : bool := Qeq_bool q 0.
Definition isNeg (q : Q) : bool := negb (Qle_bool 0 q).

(** [a / b] *)
Definition div (a b : Num) : Num :=
match a, b with
| NaN, _ | _, NaN => NaN
| Fin x, Fin y =>
    if isZero y
    then (if isZero x then NaN else if isNeg x then NegInf else PosInf)
    else Fin (x / y)
| Fin _, _ => Fin 0
| PosInf, Fin y => if isNeg y then NegInf else PosInf
| NegInf, Fin y => if isNeg y then PosInf else NegInf
| _, _ => NaN
end.

(** [a * b] *)
Definition mul (a b : Num) : Num :=
match a, b with
| NaN, _ | _, NaN => NaN
| Fin x, Fin y => Fin (x * y)
| Fin x, PosInf | PosInf, Fin x =>
    if isZero x then NaN else if isNeg x then NegInf else PosInf
| Fin x, NegInf | NegInf, Fin x =>
    if isZero x then NaN else if isNeg x then PosInf else NegInf
| PosInf, PosInf | NegInf, NegInf => PosInf
| _, _ => NegInf
end.

(** [a - b] *)
Definition sub (a b : Num) : Num :=
match a, b with
| NaN, _ | _, NaN => NaN
| Fin x, Fin y => Fin (x - y)
| PosInf, PosInf | NegInf, NegInf => NaN
| PosInf, _ | _, NegInf => PosInf
| NegInf, _ | _, PosInf => NegInf
end.

(** ToNumber of a query result cell: [null] counts as 0. *)
Definition toNumber (v : option Num) : Num :=
match v with Some n => n | None => Fin 0 end.

(** ** The assessments table

    A stored row, with the integer columns holding an integer or NULL
    and the text columns a text or NULL, as the schema declares them. *)
Record Stored := {
  session_id : string;
  timestamp : option string;
  numeracy_score : option Z;
  reading_score : option Z;
  computer_score : option Z;
  logic_score : option Z;
  communication_score : option Z;
  mindset_score : option Z;
  readiness_level : option Z;
  readiness_title : option string
}.

Inductive Column :=
| col_reading_score
| col_communication_score
| col_logic_score
| col_numeracy_score
| col_computer_score
| col_mindset_score.

Definition cell (c : Column) (row : Stored) : option Z :=
match c with
| col_reading_score => reading_score row
| col_communication_score => communication_score row
| col_logic_score => logic_score row
| col_numeracy_score => numeracy_score row
| col_computer_score => computer_score row
| col_mindset_score => mindset_score row
end.

(** [SELECT COUNT( * ) FROM assessments] *)
Definition selectCount (table : list Stored) : Z := Z.of_nat (length table).

(** [SELECT COUNT( * ) FROM assessments WHERE column <= threshold]:
    a NULL satisfies no comparison. *)
Definition selectCountWeak (c : Column) (threshold : Z) (table : list Stored) : Z :=
Z.of_nat (length (filter (fun row => match cell c row with
                                     | Some v => v <=? threshold
                                     | None => false
                                     end) table)).

Definition nonNull (c : Column) (table : list Stored) : list Z :=
flat_map (fun row => match cell c row with Some v => [v] | None => [] end) table.

(** [SELECT AVG(column) FROM assessments]: the mean of the non-NULL
    values, NULL when there is none. *)
Definition selectAvg (c : Column) (table : list Stored) : option Num :=
match nonNull c table with
| [] => None
| vs => Some (Fin (inject_Z (fold_right Z.add 0 vs)
                   / inject_Z (Z.of_nat (length vs))))
end.

Definition levelBefore (a b : option Z) : bool :=
match a, b with
| None, Some _ => true
| Some x, Some y => x <? y
| _, _ => false
end.

Definition sameLevel (a b : option Z) : bool :=
match a, b with
| None, None => true
| Some x, Some y => x =? y
| _, _ => false
end.

(** One group of the GROUP BY: level, title, count. *)
Definition Group : Type := option Z * option string * Z.

Fixpoint addToGroups (row : Stored) (groups : list Group) : list Group :=
match groups with
| [] => [(readiness_level row, readiness_title row, 1)]
| (lvl, ttl, n) :: rest =>
    if sameLevel lvl (readiness_level row) then (lvl, ttl, n + 1) :: rest
    else if levelBefore (readiness_level row) lvl
         then (readiness_level row, readiness_title row, 1) :: groups
         else (lvl, ttl, n) :: addToGroups row rest
end.

(** [SELECT readiness_level, readiness_title, COUNT( * ) ... GROUP BY
    readiness_level ORDER BY readiness_level]; the title shown for a
    group is taken from the first row of the group in table order. *)
Definition selectGroups (table : list Stored) : list Group :=
fold_left (fun groups row => addToGroups row groups) table [].

(** ** The script *)

Record Pillar := {
  name : string;
  column : Column;
  threshold : Z;
  max : Z
}.

Definition PILLARS : list Pillar := [
  {| name := "Reading";       column := col_reading_score;       threshold := 2; max := 5 |};
  {| name := "Communication"; column := col_communication_score; threshold := 2; max := 5 |};
  {| name := "Logic";         column := col_logic_score;         threshold := 3; max := 8 |};
  {| name := "Numeracy";      column := col_numeracy_score;      threshold := 4; max := 10 |};
  {| name := "Computer";      column := col_computer_score;      threshold := 4; max := 10 |};
  {| name := "Mindset";       column := col_mindset_score;       threshold := 3; max := 7 |}
].

Record PillarStat := {
  s_name : string;
  weakCount : Z;
  weakPct : Num;
  avgScore : option Num;
  s_max : Z;
  avgPct : Num
}.

(** The object pushed for one pillar. *)
Definition pillarStat (total : Z) (table : list Stored) (pillar : Pillar) : PillarStat :=
let weakCount := selectCountWeak (column pillar) (threshold pillar) table in
let avgScore := selectAvg (column pillar) table in
{| s_name := name pillar;
   weakCount := weakCount;
   weakPct := mul (div (ofZ weakCount) (ofZ total)) (ofZ 100);
   avgScore := avgScore;
   s_max := max pillar;
   avgPct := mul (div (toNumber avgScore) (ofZ (max pillar))) (ofZ 100) |}.

(** [Array.prototype.sort(compare)]: the sort is stable, and a
    comparator result that is negative puts its first argument first; a
    NaN result counts as zero. *)
Definition negative (n : Num) : bool :=
match n with
| Fin q => isNeg q
| NegInf => true
| _ => false
end.

Section Sort.
Context {A : Type} (compare : A -> A -> Num).

Fixpoint insert (x : A) (sorted : list A) : list A :=
match sorted with
| [] => [x]
| y :: rest =>
    if negative (compare y x) then y :: insert x rest else x :: y :: rest
end.

Fixpoint sort (items : list A) : list A :=
match items with
| [] => []
| x :: rest => insert x (sort rest)
end.

End Sort.

(** [(a, b) => b.weakPct - a.weakPct] *)
Definition byWeakPctDesc (a b : PillarStat) : Num := sub (weakPct b) (weakPct a).

(** [(a, b) => a.avgPct - b.avgPct] *)
Definition byAvgPctAsc (a b : PillarStat) : Num := sub (avgPct a) (avgPct b).

Inductive Marker := PRIMARY_WEAKNESS | SECONDARY | NoMarker.

(** [index === 0 ? ... : (index === 1 ? ... : '')] *)
Definition markerAt (index : nat) : Marker :=
match index with
| O => PRIMARY_WEAKNESS
| S O => SECONDARY
| _ => NoMarker
end.

(** What the script prints, line by line, with each number kept as a
    number (digit formatting and the bars of [#] are not modelled). *)
Inductive Line :=
| TotalAssessments (total : Z)
| LevelLine (level : option Z) (count : Z) (pct : Num) (title : option string)
| PillarHeading (pillar : string) (marker : Marker)
| Struggling (weakCount : Z) (weakPct : Num)
| Average (avgScore : Num) (max : Z) (avgPct : Num)
| PrimaryFinding (weakPct : Num) (pillar : string)
| SecondaryFinding (weakPct : Num) (pillar : string)
| ImpactStatement (primary secondary : string)
| AverageBar (pillar : string) (barLength : Z) (avgPct : Num).

(** The console so far, and how the run ended. *)
Definition Run := (list Line * option Error)%type.

(** [stat.avgScore.toFixed(1)]: reading a property of [null] throws. *)
Definition toFixed (v : option Num) : Outcome Num :=
match v with
| Some n => Ok n
| None => Throw (TypeError "Cannot read properties of null (reading 'toFixed')")
end.

(** The [forEach] over the sorted statistics: heading and struggling
    lines are printed before the average line is built. *)
Fixpoint printStats (index : nat) (stats : list PillarStat) : Run :=
match stats with
| [] => ([], None)
| stat :: rest =>
    let printed := [PillarHeading (s_name stat) (markerAt index);
                    Struggling (weakCount stat) (weakPct stat)] in
    match toFixed (avgScore stat) with
    | Throw e => (printed, Some e)
    | Ok avg =>
        let (more, result) := printStats (S index) rest in
        (printed ++ Average avg (s_max stat) (avgPct stat) :: more, result)
    end
end.

(** [Math.round] *)
Definition round (n : Num) : Num :=
match n with
| Fin q => Fin (inject_Z (Qfloor (q + (1 # 2))))
| other => other
end.

(** The count argument of [String.prototype.repeat]: NaN counts as 0,
    a negative or infinite count throws. *)
Definition repeatCount (n : Num) : Outcome Z :=
match n with
| NaN => Ok 0
| Fin q => if Qfloor q <? 0 then Throw (ExternalError "Invalid count value")
           else Ok (Qfloor q)
| _ => Throw (ExternalError "Invalid count value")
end.

(** The [forEach] over [sortedByAvg]: two bars of total width 50. *)
Fixpoint printBars (stats : list PillarStat) : Run :=
match stats with
| [] => ([], None)
| stat :: rest =>
    let barLength := round (div (avgPct stat) (ofZ 2)) in
    match repeatCount barLength, repeatCount (sub (ofZ 50) barLength) with
    | Ok filled, Ok _ =>
        let (more, result) := printBars rest in
        (AverageBar (s_name stat) filled (avgPct stat) :: more, result)
    | Throw e, _ | _, Throw e => ([], Some e)
    end
end.

(** The array [pillarStats] after the loop over PILLARS. *)
Definition pillarStats (table : list Stored) : list PillarStat :=
map (pillarStat (selectCount table) table) PILLARS.

(** The array [pillarStats] after [sort]. *)
Definition rankedStats (table : list Stored) : list PillarStat :=
sort byWeakPctDesc (pillarStats table).

Definition levelLines (total : Z) (table : list Stored) : list Line :=
map (fun g : Group =>
       let '(level, title, count) := g in
       LevelLine level count (mul (div (ofZ count) (ofZ total)) (ofZ 100)) title)
    (selectGroups table).

(** [analyzePatterns()] on a database holding [table]. *)
Definition analyzePatterns (table : list Stored) : Run :=
let total := selectCount table in
let ranked := rankedStats table in
let head := TotalAssessments total :: levelLines total table in
match printStats 0 ranked with
| (printed, Some e) => (head ++ printed, Some e)
| (printed, None) =>
    match nth_error ranked 0, nth_error ranked 1 with
    | Some primary, Some secondary =>
        let insights := [PrimaryFinding (weakPct primary) (s_name primary);
                         SecondaryFinding (weakPct secondary) (s_name secondary);
                         ImpactStatement (s_name primary) (s_name secondary)] in
        let (bars, result) := printBars (sort byAvgPctAsc ranked) in
        (head ++ printed ++ insights ++ bars, result)
    | _, _ =>
        (head ++ printed,
         Some (TypeError "Cannot read properties of undefined (reading 'weakPct')"))
    end
end.

End Verify.

(* ================================================================== *)
(** * api/chat.js *)
(* ================================================================== *)

Module Chat.
Import Js Db Http.
Local Open Scope string_scope.
Local Open Scope list_scope.
Local Open Scope Z_scope.
Local Open Scope js_scope.

Record Request := {
  method : string;
  body : Value;
  x_forwarded_for : option string;
  remoteAddress : option string
}.

(** The [Response] object of [fetch]. *)
Record FetchResponse := {
  ok : bool;
  fetchStatus : Z;
  json : Outcome Value
}.

(** What the handler uses of its surroundings: the environment variable,
    the AI service, the regular-expression match and [JSON.parse] on the
    reply, the dynamic import of the database helper, SHA-256, the clock
    and the random suffix of the session identifier. *)
Record Env := {
  ANTHROPIC_API_KEY : option string;
  fetchMessages : string -> Value -> Outcome FetchResponse;
  matchAssessment : string -> option string;
  JSON_parse : string -> Outcome Value;
  importDb : Outcome unit;
  sha256hex : string -> string;
  now : Z;
  randomSuffix : string
}.

Definition isSpace (c : ascii) : bool :=
Ascii.eqb c " " || Ascii.eqb c "009" || Ascii.eqb c "010" || Ascii.eqb c "013".

Fixpoint firstSegment (s : string) : string :=
match s with
| EmptyString => EmptyString
| String c rest => if Ascii.eqb c "," then EmptyString else String c (firstSegment rest)
end.

Fixpoint trimStart (s : string) : string :=
match s with
| EmptyString => EmptyString
| String c rest => if isSpace c then trimStart rest else s
end.

Fixpoint trimEnd (s : string) : string :=
match s with
| EmptyString => EmptyString
| String c rest =>
    match trimEnd rest with
    | EmptyString => if isSpace c then EmptyString else String c EmptyString
    | kept => String c kept
    end
end.

(** [req.socket?.remoteAddress || null]; [None] is [null]. *)
Definition socketAddress (req : Request) : option string :=
match remoteAddress req with
| Some a => if String.eqb a "" then None else Some a
| None => None
end.

(** [getClientIp(req)] *)
Definition getClientIp (req : Request) : option string :=
match x_forwarded_for req with
| Some xfwd =>
    if String.eqb xfwd "" then socketAddress req
    else Some (trimEnd (trimStart (firstSegment xfwd)))
| None => socketAddress req
end.

Section WithEnv.
Variable E : Engine.
Variable env : Env.

(** [hashIp(ip)] *)
Definition hashIp (ip : option string) : Value :=
match ip with
| None => VNull
| Some a => if String.eqb a "" then VNull else VStr (sha256hex env a)
end.

Definition corsHeaders : list (string * string) :=
[ ("Access-Control-Allow-Origin", "*");
  ("Access-Control-Allow-Methods", "POST, OPTIONS");
  ("Access-Control-Allow-Headers", "Content-Type") ].

Definition respond (status : Z) (body : Body) : Response :=
Build_Response status corsHeaders body.

(** [data.content?.[0]?.text || ''] *)
Definition aiTextOf (data : Value) : Outcome Value :=
match getProp data "content" with
| Throw e => Throw e
| Ok content => Ok (or_else (getPropOpt (firstOpt content) "text") (VStr ""))
end.

(** The first inner [try]: the value left in [assessmentResults]. *)
Definition extractResults (aiText : Value) : M (World E) Value :=
tryCatch
  (match aiText with
   | VStr text =>
       match matchAssessment env text with
       | Some jsonMatch =>
           parsed <- lift (JSON_parse env jsonMatch) ;;
           log "[Chat] Assessment complete detected" ;;;
           ret parsed
       | None => ret VNull
       end
   | _ => throw (TypeError "aiText.match is not a function")
   end)
  (fun parseError =>
     log "[Chat] No assessment results in this response (normal)" ;;;
     ret VNull).

(** [assessmentResults && assessmentResults.assessment_complete] *)
Definition complete (assessmentResults : Value) : bool :=
truthy assessmentResults
&& truthy (getPropOpt assessmentResults "assessment_complete").

(** The object literal [assessmentData]. *)
Definition assessmentData (req : Request) (assessmentResults : Value) : Assessment :=
let ipHash := hashIp (getClientIp req) in
let pillars := or_else (getPropOpt assessmentResults "pillars") (VObj []) in
let score pillar := or_else (getPropOpt (getPropOpt pillars pillar) "score") (VNum 0) in
{| sessionId := VStr ("session_" ++ Csv.numberToString (now env) ++ "_" ++ randomSuffix env);
   numeracyScore := score "numeracy";
   readingScore := score "reading";
   computerScore := score "computer";
   logicScore := score "logic";
   communicationScore := score "communication";
   mindsetScore := score "mindset";
   readinessLevel := or_else (getPropOpt assessmentResults "readiness_level") (VNum 0);
   readinessTitle := or_else (getPropOpt assessmentResults "readiness_title") (VStr "");
   ipHash := ipHash;
   consentGiven := VBool true |}.

(** The second inner [try] with its [catch]. *)
Definition saveResults (req : Request) (assessmentResults : Value) : M (World E) unit :=
tryCatch
  (lift (importDb env) ;;;
   success <- insertAssessment E (assessmentData req assessmentResults) ;;
   if (success : bool)
   then log "[Chat] Assessment saved to database (user consented)"
   else log "[Chat] Failed to save assessment to database")
  (fun dbError =>
     log ("[Chat] Database error (quiz still works): " ++ message dbError)).

(** [const { messages, consentGiven = true } = req.body]: the default
    applies when the property is [undefined]. *)
Definition consentOf (consentGiven : Value) : Value :=
match consentGiven with
| VUndefined => VBool true
| given => given
end.

(** [handler(req, res)] *)
Definition handler (req : Request) : M (World E) Response :=
if String.eqb (method req) "OPTIONS" then ret (respond 200 NoBody)
else if negb (String.eqb (method req) "POST") then
  ret (respond 405 (Json (VObj [("error", VStr "Method not allowed")])))
else
  tryCatch
    (messages <- lift (getProp (body req) "messages") ;;
     given <- lift (getProp (body req) "consentGiven") ;;
     let consentGiven := consentOf given in
     if negb (truthy messages) || negb (isArray messages) then
       ret (respond 400
              (Json (VObj [("error", VStr "Invalid request: messages array required")])))
     else
       match ANTHROPIC_API_KEY env with
       | None | Some EmptyString =>
           log "ANTHROPIC_API_KEY not configured" ;;;
           ret (respond 500
                  (Json (VObj [("error",
                                VStr "Server configuration error: API key not set")])))
       | Some key =>
           response <- lift (fetchMessages env key messages) ;;
           if negb (ok response) then
             let errorData := match json response with
                              | Ok v => v
                              | Throw _ => VObj []
                              end in
             log "Anthropic API error" ;;;
             details <- lift (getProp errorData "error") ;;
             ret (respond (fetchStatus response)
                    (Json (VObj [("error", VStr "AI service error");
                                 ("details",
                                  or_else (getPropOpt details "message")
                                          (VStr "Unknown error"))])))
           else
             data <- lift (json response) ;;
             aiText <- lift (aiTextOf data) ;;
             assessmentResults <- extractResults aiText ;;
             (if complete assessmentResults && strictlyTrue consentGiven then
                saveResults req assessmentResults
              else if complete assessmentResults then
                log "[Chat] Assessment NOT saved (user opted out of data collection)"
              else ret tt) ;;;
             ret (respond 200 (Json data))
       end)
    (fun error =>
       log "Server error" ;;;
       ret (respond 500
              (Json (VObj [("error", VStr "Internal server error");
                           ("message", VStr (message error))])))).

End WithEnv.

End Chat.

(* ================================================================== *)
(** * Notions used to state the properties *)
(* ================================================================== *)

Section SeedNotions.
Import Rand Seed.



(** The integer [randomInt min max] computes when it reads draw [k]. *)
Definition drawn (src : Source) (k : nat) (min max : Z) : Z :=
fst (randomInt min max src k).

(** The six base draws of [generateBaseScores] started at position [i]. *)
Definition baseScores (src : Source) (i : nat) : Scores :=
{| numeracy      := drawn src i 2 10;
   reading       := drawn src (1 + i) 1 5;
   computer      := drawn src (2 + i) 2 10;
   logic         := drawn src (3 + i) 2 8;
   communication := drawn src (4 + i) 1 5;
   mindset       := drawn src (5 + i) 2 7 |}.


(** Every score within [0, max] of its pillar. *)
Definition in_range (cfg : PillarConfig) (s : Scores) : Prop :=
0 <= numeracy s <= max (pc_numeracy cfg) /\
0 <= reading s <= max (pc_reading cfg) /\
0 <= computer s <= max (pc_computer cfg) /\
0 <= logic s <= max (pc_logic cfg) /\
0 <= communication s <= max (pc_communication cfg) /\
0 <= mindset s <= max (pc_mindset cfg).

(** The value a pillar has after its [if (Math.random() < target)]. *)
Definition clamped (u target : Q) (score threshold : Z) : Z :=
if Qlt_le_dec u target then Z.min score threshold else score.

End SeedNotions.

(* ================================================================== *)
(** * A small in-memory engine *)
(* ================================================================== *)

(** A concrete engine on which the storage helpers and the handlers can
    be run: the table is the list of bound rows, newest last; the INSERT
    enforces [session_id TEXT UNIQUE NOT NULL]; the SELECT returns the
    ten exported columns.  [loads] says whether [initSqlJs()] resolves. *)
Module DemoEngine.
Import Js Db.
Local Open Scope string_scope.
Local Open Scope list_scope.
Local Open Scope Z_scope.

Definition Table := list (list Value).

Definition sessionOf (row : list Value) : Value := nth 0 row VUndefined.

Definition sameSession (a b : Value) : bool :=
match a, b with
| VStr x, VStr y => String.eqb x y
| VNum x, VNum y => x =? y
| _, _ => false
end.

Definition insertRow (t : Table) (params : list Value) : Outcome Table :=
match sessionOf params with
| VUndefined | VNull =>
    Throw (ExternalError "NOT NULL constraint failed: assessments.session_id")
| sid =>
    if existsb (fun row => sameSession (sessionOf row) sid) t
    then Throw (ExternalError "UNIQUE constraint failed: assessments.session_id")
    else Ok (t ++ [params])
end.

Definition toSql (v : Value) : SqlValue :=
match v with
| VNum z => SqlInt z
| VStr s => SqlText s
| VBool true => SqlInt 1
| VBool false => SqlInt 0
| _ => SqlNull
end.

Definition exportedColumns : list string :=
[ "session_id"; "timestamp"; "numeracy_score"; "reading_score";
  "computer_score"; "logic_score"; "communication_score"; "mindset_score";
  "readiness_level"; "readiness_title" ].

(** The INSERT of [insertAssessment] binds no timestamp: the column
    takes its default, rendered here as a fixed text. *)
Definition selectedRow (params : list Value) : list SqlValue :=
toSql (nth 0 params VNull) :: SqlText "2026-01-01 00:00:00" ::
map (fun k => toSql (nth k params VNull)) [1; 2; 3; 4; 5; 6; 7; 8]%nat.

Definition select (t : Table) : list ResultSet :=
match t with
| [] => []
| _ => [ {| columns := exportedColumns; values := map selectedRow (rev t) |} ]
end.

Definition engine (loads : bool) : Engine := {|
  Database := Table;
  FileData := Table;
  dbPath := "/tmp/assessments.db";
  initSqlJs := if loads then Ok tt
               else Throw (ExternalError "failed to load sql-wasm.wasm");
  readFileSync := fun f => Ok f;
  newDatabase := fun f => match f with Some t => Ok t | None => Ok [] end;
  run := fun t sql params =>
           match sql with
           | INSERT_INTO_assessments => insertRow t params
           | _ => Ok t
           end;
  exec := fun t sql =>
            match sql with
            | SELECT_all_ORDER_BY_timestamp_DESC => Ok (select t)
            | _ => Ok [ {| columns := ["COUNT(*)"];
                           values := [[SqlInt (Z.of_nat (length t))]] |} ]
            end;
  export := fun t => Ok t;
  writeFileSync := fun _ => Ok tt
|}.

(** A fresh process: nothing loaded, no database file. *)
Definition freshWorld (loads : bool) : World (engine loads) :=
{| db := None; SQL := false; disk := None; console := [] |}.

Definition sampleAssessment : Assessment := {|
  sessionId := VStr "test_1";
  numeracyScore := VNum 8;
  readingScore := VNum 3;
  computerScore := VNum 7;
  logicScore := VNum 6;
  communicationScore := VNum 4;
  mindsetScore := VNum 5;
  readinessLevel := VNum 2;
  readinessTitle := VStr "Ready with Quick Prep";
  ipHash := VStr "test_hash_abc123";
  consentGiven := VBool true
|}.

End DemoEngine.

(* ================================================================== *)
(** * Reading CSV back *)
(* ================================================================== *)

(** The reader the export is checked against: fields separated by
    commas, records by line feeds (a carriage return outside quotes is
    skipped, so CRLF is accepted too); a field that starts with a double
    quote runs to the matching closing quote, with two double quotes
    standing for one; a double quote elsewhere is an error. *)
Module CsvReader.
Import Db Csv.
Local Open Scope string_scope.
Local Open Scope list_scope.

Inductive State := FieldStart | Unquoted | Quoted | QuoteSeen.

Definition push (cur : string) (c : ascii) : string :=
String.append cur (String c EmptyString).

(** [cur] is the field being read, [fields] the finished fields of the
    current record, [records] the finished records. *)
Fixpoint scan (st : State) (cur : string) (fields : list string)
  (records : list (list string)) (input : string) : option (list (list string)) :=
match input with
| EmptyString =>
    match st with
    | Quoted => None
    | _ => Some (records ++ [fields ++ [cur]])
    end
| String c rest =>
    match st with
    | Quoted =>
        if Ascii.eqb c DQUOTE then scan QuoteSeen cur fields records rest
        else scan Quoted (push cur c) fields records rest
    | QuoteSeen =>
        if Ascii.eqb c DQUOTE then scan Quoted (push cur c) fields records rest
        else if Ascii.eqb c COMMA then scan FieldStart "" (fields ++ [cur]) records rest
        else if Ascii.eqb c LF then scan FieldStart "" [] (records ++ [fields ++ [cur]]) rest
        else if Ascii.eqb c CR then scan QuoteSeen cur fields records rest
        else None
    | FieldStart =>
        if Ascii.eqb c DQUOTE then scan Quoted "" fields records rest
        else if Ascii.eqb c COMMA then scan FieldStart "" (fields ++ [cur]) records rest
        else if Ascii.eqb c LF then scan FieldStart "" [] (records ++ [fields ++ [cur]]) rest
        else if Ascii.eqb c CR then scan FieldStart cur fields records rest
        else scan Unquoted (push cur c) fields records rest
    | Unquoted =>
        if Ascii.eqb c DQUOTE then None
        else if Ascii.eqb c COMMA then scan FieldStart "" (fields ++ [cur]) records rest
        else if Ascii.eqb c LF then scan FieldStart "" [] (records ++ [fields ++ [cur]]) rest
        else if Ascii.eqb c CR then scan Unquoted cur fields records rest
        else scan Unquoted (push cur c) fields records rest
    end
end.

Definition readCsv (input : string) : option (list (list string)) :=
scan FieldStart "" [] [] input.

(** A decimal integer read back as a number. *)
Definition parseNumber (s : string) : option Z :=
option_map Z.of_int (NilZero.int_of_string s).

(** The ten values of a record line, by the type of their column. *)
Definition decodeRecord (fields : list string) : option (list SqlValue) :=
match fields with
| [sid; ts; n; r; c; l; k; m; lvl; ttl] =>
    match parseNumber n, parseNumber r, parseNumber c, parseNumber l,
          parseNumber k, parseNumber m, parseNumber lvl with
    | Some n, Some r, Some c, Some l, Some k, Some m, Some lvl =>
        Some [SqlText sid; SqlText ts; SqlInt n; SqlInt r; SqlInt c; SqlInt l;
              SqlInt k; SqlInt m; SqlInt lvl; SqlText ttl]
    | _, _, _, _, _, _, _ => None
    end
| _ => None
end.

Fixpoint decodeRecords (records : list (list string)) : option (list (list SqlValue)) :=
match records with
| [] => Some []
| fields :: rest =>
    match decodeRecord fields, decodeRecords rest with
    | Some v, Some vs => Some (v :: vs)
    | _, _ => None
    end
end.

(** Header line first, then one record per stored row. *)
Definition readBack (content : string) : option (list (list SqlValue)) :=
match readCsv content with
| Some (header :: records) =>
    if list_eq_dec string_dec header headers then decodeRecords records else None
| _ => None
end.

(** The ten exported columns of a row as stored; an absent column reads
    as [SqlNull]. *)
Definition stored (row : Row) : list SqlValue :=
map (fun column => match field row column with Some v => v | None => SqlNull end)
    headers.

(** No comma, double quote, line feed or carriage return. *)
Definition plain (s : string) : bool :=
negb (includes COMMA s || includes DQUOTE s || includes LF s || includes CR s).

(** A row whose exported columns hold non-null values of their declared
    types, with identifier and timestamp free of CSV delimiters. *)
Definition exportable (row : Row) : Prop :=
exists sid ts n r c l k m lvl ttl,
  stored row = [SqlText sid; SqlText ts; SqlInt n; SqlInt r; SqlInt c; SqlInt l;
                SqlInt k; SqlInt m; SqlInt lvl; SqlText ttl]
  /\ plain sid = true /\ plain ts = true.

(** The characters that make [escapeCSVField] quote a field. *)
Definition special (c : ascii) : bool :=
Ascii.eqb c COMMA || Ascii.eqb c DQUOTE || Ascii.eqb c LF || Ascii.eqb c CR.

(** The text a field is written as: [escapeCSVField] on a string. *)
Definition written (t : string) : string := escapeCSVField (Some (SqlText t)).

(** A record line with fields [fs] written as they are and a last field
    [t] written through [escapeCSVField]. *)
Definition render (fs : list string) (t : string) : string :=
join "," (fs ++ [written t]).

(** The nine columns a row is written with before the title. *)
Definition firstNine (row : Row) : list string :=
[ toString (orEmpty (field row "session_id"));
  toString (orEmpty (field row "timestamp"));
  toString (nullishEmpty (field row "numeracy_score"));
  toString (nullishEmpty (field row "reading_score"));
  toString (nullishEmpty (field row "computer_score"));
  toString (nullishEmpty (field row "logic_score"));
  toString (nullishEmpty (field row "communication_score"));
  toString (nullishEmpty (field row "mindset_score"));
  toString (nullishEmpty (field row "readiness_level")) ].

(** The ten strings a row stands for in the file. *)
Definition recordStrings (row : Row) : list string :=
firstNine row ++ [toString (orEmpty (field row "readiness_title"))].

(** ** Sample rows *)

Definition rowWith (sid : SqlValue) (ttl : SqlValue) : Row :=
[ ("session_id", sid);
  ("timestamp", SqlText "2026-01-05 10:20:30");
  ("numeracy_score", SqlInt 8);
  ("reading_score", SqlInt 0);
  ("computer_score", SqlInt 7);
  ("logic_score", SqlInt 6);
  ("communication_score", SqlInt 4);
  ("mindset_score", SqlInt 5);
  ("readiness_level", SqlInt 2);
  ("readiness_title", ttl) ].

(** A title with a comma, a double quote and a line feed. *)
Definition awkwardTitle : string :=
String.append "Ready, with "
  (String DQUOTE (String.append "Quick"
     (String DQUOTE (String LF "Prep")))).

End CsvReader.

(* ================================================================== *)
(** * Notions used to state the ranking properties *)
(* ================================================================== *)

Section RankingNotions.
Import Verify.

(** [a] stands somewhere before [b] in [l]. *)
Definition precedes {A : Type} (l : list A) (a b : A) : Prop :=
exists l1 l2 l3, l = l1 ++ a :: l2 ++ b :: l3.


(** The order [sort] leaves between two arguments of the comparator:
    [x] has to come before [y]. *)
Definition before {A : Type} (compare : A -> A -> Num) (x y : A) : bool :=
negative (compare x y).

(** The pillar headings among the printed lines, with their markers. *)
Definition headings (lines : list Line) : list (string * Marker) :=
flat_map (fun line => match line with
                      | PillarHeading pillar marker => [(pillar, marker)]
                      | _ => []
                      end) lines.

(** ** A sample table *)

Definition sampleRow (sid : string) (n r c l k m lvl : Z) (ttl : string) : Stored :=
{| session_id := sid; timestamp := Some "2026-01-05 10:20:30"%string;
   numeracy_score := Some n; reading_score := Some r; computer_score := Some c;
   logic_score := Some l; communication_score := Some k; mindset_score := Some m;
   readiness_level := Some lvl; readiness_title := Some ttl |}.

(** Communication is weak in both rows; reading, logic and numeracy are
    weak in the first row only, computer and mindset in none. *)
Definition sampleTable : list Stored :=
[ sampleRow "demo_001_1" 3 1 9 3 2 7 2 "Ready with Quick Prep";
  sampleRow "demo_002_1" 8 4 9 7 2 7 1 "Ready to Start" ].

End RankingNotions.

(* ================================================================== *)
(** * Notions used to state the live-quiz properties *)
(* ================================================================== *)

Module ChatNotions.
Import Js Db Http Chat.
Local Open Scope string_scope.
Local Open Scope list_scope.
Local Open Scope Z_scope.

(** What persistence can touch: the database handle, the loaded flag
    and the database file (the console is left out). *)
Definition storage {E : Engine} (w : World E) :=
(db E w, SQL E w, disk E w).



(** ** A scripted AI service *)

Definition finalJson : string := "{assessment_complete: true, ...}".

Definition finalReply : string :=
String.append "Here are your results: " finalJson.

Definition finalResults : Value :=
VObj [ ("assessment_complete", VBool true);
       ("pillars",
        VObj [ ("numeracy", VObj [("score", VNum 8); ("level", VStr "ADEQUATE")]);
               ("reading", VObj [("score", VNum 0); ("level", VStr "GAP")]);
               ("computer", VObj [("score", VNum 7)]);
               ("logic", VObj [("score", VNum 6)]);
               ("communication", VObj [("score", VNum 4)]);
               ("mindset", VObj [("score", VNum 5)]) ]);
       ("readiness_level", VNum 2);
       ("readiness_title", VStr "Ready with Quick Prep") ].

Definition replyData (text : string) : Value :=
VObj [ ("id", VStr "msg_01");
       ("content", VArr [VObj [("type", VStr "text"); ("text", VStr text)]]) ].

(** The service answers every conversation with [text]; the match and
    the parse recognise the final reply only. *)
Definition scriptedEnv (text : string) : Env := {|
  ANTHROPIC_API_KEY := Some "sk-test";
  fetchMessages := fun _ _ =>
    Ok {| ok := true; fetchStatus := 200; json := Ok (replyData text) |};
  matchAssessment := fun t =>
    if String.eqb t finalReply then Some finalJson else None;
  JSON_parse := fun s =>
    if String.eqb s finalJson then Ok finalResults
    else Throw (SyntaxError "Unexpected token");
  importDb := Ok tt;
  sha256hex := fun ip => String.append "sha256:" ip;
  now := 1767608430000;
  randomSuffix := "k3x9a"
|}.

Definition postWith (bodyProps : list (string * Value)) : Request := {|
  method := "POST";
  body := VObj (("messages", VArr [VObj [("role", VStr "user");
                                         ("content", VStr "done")]])
                :: bodyProps);
  x_forwarded_for := Some "203.0.113.7, 10.0.0.1";
  remoteAddress := None
|}.

End ChatNotions.

(* ================================================================== *)
(** * The live-quiz handler before the database save was added *)
(* ================================================================== *)

Module ChatV0.
Import Js Db Http Chat.
Local Open Scope string_scope.
Local Open Scope list_scope.
Local Open Scope Z_scope.
Local Open Scope js_scope.

Section WithEnv.
Variable E : Engine.
Variable env : Env.

(** [handler(req, res)]: same preflight, validation, key check and call
    of the AI service; the reply is returned as soon as it is read. *)
Definition handler (req : Request) : M (World E) Response :=
if String.eqb (method req) "OPTIONS" then ret (respond 200 NoBody)
else if negb (String.eqb (method req) "POST") then
  ret (respond 405 (Json (VObj [("error", VStr "Method not allowed")])))
else
  tryCatch
    (messages <- lift (getProp (body req) "messages") ;;
     if negb (truthy messages) || negb (isArray messages) then
       ret (respond 400
              (Json (VObj [("error", VStr "Invalid request: messages array required")])))
     else
       match ANTHROPIC_API_KEY env with
       | None | Some EmptyString =>
           log "ANTHROPIC_API_KEY not configured" ;;;
           ret (respond 500
                  (Json (VObj [("error",
                                VStr "Server configuration error: API key not set")])))
       | Some key =>
           response <- lift (fetchMessages env key messages) ;;
           if negb (ok response) then
             let errorData := match json response with
                              | Ok v => v
                              | Throw _ => VObj []
                              end in
             log "Anthropic API error" ;;;
             details <- lift (getProp errorData "error") ;;
             ret (respond (fetchStatus response)
                    (Json (VObj [("error", VStr "AI service error");
                                 ("details",
                                  or_else (getPropOpt details "message")
                                          (VStr "Unknown error"))])))
           else
             data <- lift (json response) ;;
             ret (respond 200 (Json data))
       end)
    (fun error =>
       log "Server error" ;;;
       ret (respond 500
              (Json (VObj [("error", VStr "Internal server error");
                           ("message", VStr (message error))])))).

End WithEnv.

End ChatV0.

(* ================================================================== *)
(** * Further notions for the live-quiz handler *)
(* ================================================================== *)

Section ChatMoreNotions.
Import Js Db Http Chat.
Local Open Scope string_scope.
Local Open Scope list_scope.




(** What a computation returns when it returns. *)
Definition returnsOnly {W A} (P : A -> Prop) (m : M W A) : Prop :=
forall w a w', m w = (Ok a, w') -> P a.

(** Every character is one of the blanks [trim] removes. *)
Fixpoint blank (s : string) : bool :=
match s with
| EmptyString => true
| String c rest => isSpace c && blank rest
end.

(** A printable character other than the space. *)
Definition visible (c : ascii) : bool :=
(32 <? nat_of_ascii c)%nat && (nat_of_ascii c <? 127)%nat.

(** Visible characters only, and no comma: the shape of an address. *)
Fixpoint bare (s : string) : bool :=
match s with
| EmptyString => true
| String c rest => negb (Ascii.eqb c ",") && visible c && bare rest
end.

Definition forwarded (header : string) : Request :=
{| method := "POST"; body := VObj [];
   x_forwarded_for := Some header; remoteAddress := Some "10.9.8.7" |}.

End ChatMoreNotions.

(* ================================================================== *)
(** * api/lib/db.js, continued *)
(* ================================================================== *)

Module DbCount.
Import Js Db ChatNotions.
Local Open Scope string_scope.
Local Open Scope list_scope.
Local Open Scope js_scope.

Section WithEngine.
Variable E : Engine.

(** [getAssessmentCount()]; the result is the first cell of the first
    row ([None] is [undefined]), and indexing into a missing first row
    throws inside the [try]. *)
Definition getAssessmentCount : M (World E) (option SqlValue) :=
getDb E ;;;
tryCatch
  (results <- db_exec E SELECT_COUNT ;;
   match results with
   | [] => ret (Some (SqlInt 0))
   | first :: _ =>
       match values first with
       | [] => throw (TypeError "Cannot read properties of undefined (reading '0')")
       | row :: _ => ret (nth_error row 0)
       end
   end)
  (fun error =>
     log ("[DB] Count error: " ++ message error) ;;;
     ret (Some (SqlInt 0))).



(** A computation whose result and storage effect do not depend on the
    console it starts from. *)
Definition consoleBlind {A} (m : M (World E) A) : Prop :=
forall w w0, storage w0 = storage w ->
  fst (m w0) = fst (m w) /\ storage (snd (m w0)) = storage (snd (m w)).

End WithEngine.

End DbCount.

(** An in-memory engine whose calls can be made to fail one by one. *)
Module FaultyEngine.
Import Js Db DemoEngine.
Local Open Scope string_scope.
Local Open Scope list_scope.

Record Faults := {
  initFails : bool;
  createFails : bool;
  insertFails : bool;
  selectFails : bool;
  exportFails : bool;
  writeFails : bool
}.

Definition noFault : Faults :=
{| initFails := false; createFails := false; insertFails := false;
   selectFails := false; exportFails := false; writeFails := false |}.

Definition failing (flag : bool) {A} (what : string) (o : Outcome A) : Outcome A :=
if flag then Throw (ExternalError what) else o.

Definition engine (f : Faults) : Engine := {|
  Database := Table;
  FileData := Table;
  dbPath := "/tmp/assessments.db";
  initSqlJs := failing (initFails f) "failed to load sql-wasm.wasm" (Ok tt);
  readFileSync := fun t => Ok t;
  newDatabase := fun file => match file with Some t => Ok t | None => Ok [] end;
  run := fun t sql params =>
           match sql with
           | CREATE_TABLE_IF_NOT_EXISTS =>
               failing (createFails f) "file is not a database" (Ok t)
           | INSERT_INTO_assessments =>
               failing (insertFails f) "database is locked" (insertRow t params)
           | _ => Ok t
           end;
  exec := fun t sql =>
            match sql with
            | SELECT_all_ORDER_BY_timestamp_DESC =>
                failing (selectFails f) "no such table: assessments" (Ok (select t))
            | _ =>
                failing (selectFails f) "no such table: assessments"
                  (Ok [ {| columns := ["count"];
                           values := [[SqlInt (Z.of_nat (length t))]] |} ])
            end;
  export := fun t => failing (exportFails f) "out of memory" (Ok t);
  writeFileSync := fun _ => failing (writeFails f) "EROFS: read-only file system" (Ok tt)
|}.

(** A fresh process: nothing loaded, no database file. *)
Definition cold (f : Faults) : World (engine f) :=
{| db := None; SQL := false; disk := None; console := [] |}.

End FaultyEngine.

(* ================================================================== *)
(** * Further notions for the generator *)
(* ================================================================== *)

Section GeneratorNotions.
Import Rand Seed.

(** The number of draws the tier adjustment of a level reads. *)
Definition tierDraws (lvl : Z) : nat :=
if lvl =? 1 then 6
else if lvl =? 2 then 3
else if lvl =? 4 then 4
else if lvl =? 5 then 6
else 0.

(** The level [selectReadinessLevel] picks for a draw, 0 when it hands
    back [undefined]. *)
Definition levelFor (r : Q) : Z :=
match selectFrom READINESS_DISTRIBUTION r with
| Some x => r_level x
| None => 0
end.

(** The draw that makes [randomInt min max] return [k]. *)
Definition drawFor (min max k : Z) : Q :=
(k - min) # Z.to_pos (max - min + 1).

(** Every score at or below the weak threshold of its pillar. *)
Definition all_weak (cfg : PillarConfig) (s : Scores) : Prop :=
numeracy s <= weakThreshold (pc_numeracy cfg)
/\ reading s <= weakThreshold (pc_reading cfg)
/\ computer s <= weakThreshold (pc_computer cfg)
/\ logic s <= weakThreshold (pc_logic cfg)
/\ communication s <= weakThreshold (pc_communication cfg)
/\ mindset s <= weakThreshold (pc_mindset cfg).

End GeneratorNotions.

(* ================================================================== *)
(** * Further notions for the export *)
(* ================================================================== *)

Section ExportNotions.
Import Db Csv CsvReader.

(** A result row of the export query whose ten cells hold non-null
    values of their declared types, identifier and timestamp free of
    CSV delimiters. *)
Definition typedCells (cells : list SqlValue) : Prop :=
exists sid ts n r c l k m lvl ttl,
  cells = [SqlText sid; SqlText ts; SqlInt n; SqlInt r; SqlInt c; SqlInt l;
           SqlInt k; SqlInt m; SqlInt lvl; SqlText ttl]
  /\ plain sid = true /\ plain ts = true.

End ExportNotions.

(* ================================================================== *)
(** * From the generator to the reporter *)
(* ================================================================== *)

Section PipelineNotions.
Import Verify.

(** The row the INSERT of [seedDatabase] stores for a generated record:
    the six scores, the level and the title of the record, under the
    session identifier and the timestamp text bound with them. *)
Definition seededRow (sessionId timestamp : string) (g : Seed.Generated) : Stored :=
{| session_id := sessionId;
   timestamp := Some timestamp;
   numeracy_score := Some (Seed.numeracy (Seed.g_scores g));
   reading_score := Some (Seed.reading (Seed.g_scores g));
   computer_score := Some (Seed.computer (Seed.g_scores g));
   logic_score := Some (Seed.logic (Seed.g_scores g));
   communication_score := Some (Seed.communication (Seed.g_scores g));
   mindset_score := Some (Seed.mindset (Seed.g_scores g));
   readiness_level := Some (Seed.g_level g);
   readiness_title := Some (Seed.g_title g) |}.

(** [row] is what the loop stored for [g]. *)
Definition stores (row : Stored) (g : Seed.Generated) : Prop :=
exists sessionId timestamp, row = seededRow sessionId timestamp g.

(** The score of a generated record that lands in a column. *)
Definition scoreOf (c : Column) (g : Seed.Generated) : Z :=
match c with
| col_reading_score => Seed.reading (Seed.g_scores g)
| col_communication_score => Seed.communication (Seed.g_scores g)
| col_logic_score => Seed.logic (Seed.g_scores g)
| col_numeracy_score => Seed.numeracy (Seed.g_scores g)
| col_computer_score => Seed.computer (Seed.g_scores g)
| col_mindset_score => Seed.mindset (Seed.g_scores g)
end.

End PipelineNotions.

(* ================================================================== *)
(** * Notions used to state the properties of the whole report *)
(* ================================================================== *)

Section ReportNotions.
Import Verify.
Local Open Scope list_scope.
Local Open Scope Z_scope.

(** Every pillar column holds at least one score. *)
Definition scored (table : list Stored) : Prop :=
Forall (fun p => nonNull (column p) table <> []) PILLARS.

(** Every stored score lies on the scale of its pillar. *)
Definition onScale (table : list Stored) : Prop :=
Forall (fun p => Forall (fun v => 0 <= v <= max p) (nonNull (column p) table))
       PILLARS.


Definition groupLevel (g : Group) : option Z := fst (fst g).
Definition groupCount (g : Group) : Z := snd g.

(** The count the result set lists for a level, 0 when the level has no
    line. *)
Definition listed (level : option Z) (groups : list Group) : Z :=
match find (fun g => sameLevel (groupLevel g) level) groups with
| Some g => groupCount g
| None => 0
end.

(** The number of rows of the table at a level. *)
Definition rowsAt (level : option Z) (table : list Stored) : Z :=
Z.of_nat (length (filter (fun row => sameLevel (readiness_level row) level) table)).

(** The bars among the printed lines: pillar and filled length. *)
Definition bars (lines : list Line) : list (string * Z) :=
flat_map (fun line => match line with
                      | AverageBar pillar barLength _ => [(pillar, barLength)]
                      | _ => []
                      end) lines.

(** The three lines of the key insights among the printed lines. *)
Definition insights (lines : list Line) : list Line :=
filter (fun line => match line with
                    | PrimaryFinding _ _ | SecondaryFinding _ _
                    | ImpactStatement _ _ => true
                    | _ => false
                    end) lines.

(** A table whose single row has no reading score. *)
Definition gappedTable : list Stored :=
[ {| session_id := "s1"%string; timestamp := None;
     numeracy_score := Some 3; reading_score := None; computer_score := Some 9;
     logic_score := Some 3; communication_score := Some 2; mindset_score := Some 7;
     readiness_level := Some 2; readiness_title := None |} ].

(** A table whose single row holds a numeracy score of 11, above the
    maximum of 10. *)
Definition overScaleTable : list Stored :=
[ sampleRow "s1" 11 1 9 3 2 7 2 "Ready with Quick Prep" ].

End ReportNotions.

(* ================================================================== *)
(** * Properties of the seed generator *)
(* ================================================================== *)

Section SeedFacts.
Import Rand Seed.




(** Whatever the loop returns is an entry of the list. *)
Lemma walk_in (r : Q) :
  forall dist c x, walk r c dist = Some x ->
    exists t, In t dist /\ r_level x = level t /\ r_title x = title t.
Proof.
  induction dist as [|t0 dist IH]; intros c x H; simpl in H; [discriminate|].
  destruct (Qle_bool r (c + probability t0)).
  - inversion H; subst. exists t0. simpl. auto.
  - destruct (IH _ _ H) as (t & Hin & Hl). exists t. simpl. auto.
Qed.

Lemma lastEntry_in dist x :
  lastEntry dist = Some x ->
  exists t, In t dist /\ r_level x = level t /\ r_title x = title t.
Proof.
  unfold lastEntry. destruct (nth_error dist (length dist - 1)) eqn:E; [|discriminate].
  intros H; inversion H; subst; simpl. exists t. split; auto.
  eapply nth_error_In; eauto.
Qed.

Lemma lastEntry_some dist :
  dist <> [] -> exists x, lastEntry dist = Some x.
Proof.
  intros Hne. unfold lastEntry.
  destruct (nth_error dist (length dist - 1)) eqn:E; eauto.
  apply nth_error_None in E. destruct dist; [congruence|simpl in E; lia].
Qed.

Lemma selectFrom_total dist r :
  dist <> [] ->
  exists x t, selectFrom dist r = Some x /\ In t dist /\
              r_level x = level t /\ r_title x = title t.
Proof.
  intros Hne. unfold selectFrom. destruct (walk r 0 dist) eqn:E.
  - destruct (walk_in _ _ _ _ E) as (t & ?). eauto.
  - destruct (lastEntry_some dist Hne) as (x & Hx). rewrite Hx.
    destruct (lastEntry_in _ _ Hx) as (t & ?). eauto.
Qed.


Example select_inside_second_bucket :
selectFrom READINESS_DISTRIBUTION (1 # 2)
= Some {| r_level := 2; r_title := "Ready with Quick Prep"; r_probability := None |}.
Proof. reflexivity. Qed.

Example select_on_first_boundary :
selectFrom READINESS_DISTRIBUTION (15 # 100)
= Some {| r_level := 1; r_title := "Ready to Start"; r_probability := None |}.
Proof. reflexivity. Qed.

Example select_above_every_sum :
selectFrom READINESS_DISTRIBUTION (3 # 2)
= Some {| r_level := 5; r_title := "Not Yet Ready";
          r_probability := Some (5 # 100) |}.
Proof. reflexivity. Qed.

Lemma randomInt_eq lo hi (src : Source) i :
randomInt lo hi src i = (Qfloor (src i * inject_Z (hi - lo + 1)) + lo, S i).
Proof. reflexivity. Qed.

Lemma Qfloor_scaled_range (r : Q) (n : Z) :
(0 <= r)%Q -> (r < 1)%Q -> 0 < n -> 0 <= Qfloor (r * inject_Z n) < n.
Proof.
intros H0 H1 Hn. split.
- change 0 with (Qfloor (inject_Z 0)). apply Qfloor_resp_le.
  apply Qmult_le_0_compat; auto.
  change 0%Q with (inject_Z 0). rewrite <- Zle_Qle. lia.
- assert (Hlt : (r * inject_Z n < inject_Z n)%Q).
  { setoid_replace (inject_Z n) with (1 * inject_Z n)%Q at 2 by ring.
    apply Qmult_lt_compat_r; auto.
    change 0%Q with (inject_Z 0). rewrite <- Zlt_Qlt. lia. }
  assert (Hfl := Qfloor_le (r * inject_Z n)).
  rewrite Zlt_Qlt. eapply Qle_lt_trans; eauto.
Qed.

Lemma drawn_range (src : Source) k lo hi :
uniform src -> lo <= hi -> lo <= drawn src k lo hi <= hi.
Proof.
intros Hu Hle. unfold drawn. rewrite randomInt_eq.
cbn [fst].
destruct (Hu k) as [H0 H1].
assert (Hn : 0 < hi - lo + 1) by lia.
pose proof (Qfloor_scaled_range (src k) (hi - lo + 1) H0 H1 Hn). lia.
Qed.

Lemma below_lt r t : below r t = true <-> (r < t)%Q.
Proof.
unfold below. rewrite negb_true_iff. split; intros H.
- apply Qnot_le_lt. intros Hle. apply Qle_bool_iff in Hle. congruence.
- destruct (Qle_bool t r) eqn:E; auto.
  apply Qle_bool_iff in E. exfalso. eapply Qlt_irrefl, Qle_lt_trans; eauto.
Qed.

Lemma below_dec r t :
below r t = if Qlt_le_dec r t then true else false.
Proof.
destruct (Qlt_le_dec r t) as [H|H].
- now apply below_lt.
- destruct (below r t) eqn:E; auto. apply below_lt in E.
  exfalso. eapply Qlt_irrefl, Qle_lt_trans; eauto.
Qed.

Ltac run_rand :=
  cbv [generateBaseScores enforcePatterns bind ret randomInt Math_random
       baseScores drawn fst snd PILLAR_CONFIG WEAKNESS_TARGETS
       max weakThreshold pc_numeracy pc_reading pc_computer pc_logic
       pc_communication pc_mindset wt_reading wt_communication wt_logic
       wt_numeracy wt_computer wt_mindset
       set_numeracy set_reading set_computer set_logic set_communication
       set_mindset numeracy reading computer logic communication mindset].

Lemma generateBaseScores_level1 (src : Source) i :
generateBaseScores 1 src i =
  ({| numeracy      := Z.max (numeracy (baseScores src i)) (drawn src (6 + i) 7 10);
      reading       := Z.max (reading (baseScores src i)) (drawn src (7 + i) 4 5);
      computer      := Z.max (computer (baseScores src i)) (drawn src (8 + i) 7 10);
      logic         := Z.max (logic (baseScores src i)) (drawn src (9 + i) 6 8);
      communication := Z.max (communication (baseScores src i)) (drawn src (10 + i) 4 5);
      mindset       := Z.max (mindset (baseScores src i)) (drawn src (11 + i) 5 7) |},
   (12 + i)%nat).
Proof. reflexivity. Qed.

Lemma generateBaseScores_level2 (src : Source) i :
generateBaseScores 2 src i =
  ({| numeracy      := Z.max (numeracy (baseScores src i)) (drawn src (6 + i) 5 8);
      reading       := reading (baseScores src i);
      computer      := Z.max (computer (baseScores src i)) (drawn src (7 + i) 5 8);
      logic         := logic (baseScores src i);
      communication := communication (baseScores src i);
      mindset       := Z.max (mindset (baseScores src i)) (drawn src (8 + i) 4 6) |},
   (9 + i)%nat).
Proof. reflexivity. Qed.

Lemma generateBaseScores_level4 (src : Source) i :
generateBaseScores 4 src i =
  ({| numeracy      := Z.min (numeracy (baseScores src i)) (drawn src (6 + i) 3 6);
      reading       := Z.min (reading (baseScores src i)) (drawn src (7 + i) 1 3);
      computer      := computer (baseScores src i);
      logic         := Z.min (logic (baseScores src i)) (drawn src (8 + i) 2 4);
      communication := Z.min (communication (baseScores src i)) (drawn src (9 + i) 1 3);
      mindset       := mindset (baseScores src i) |},
   (10 + i)%nat).
Proof. reflexivity. Qed.

Lemma generateBaseScores_level5 (src : Source) i :
generateBaseScores 5 src i =
  ({| numeracy      := Z.min (numeracy (baseScores src i)) (drawn src (6 + i) 1 4);
      reading       := Z.min (reading (baseScores src i)) (drawn src (7 + i) 0 2);
      computer      := Z.min (computer (baseScores src i)) (drawn src (8 + i) 1 4);
      logic         := Z.min (logic (baseScores src i)) (drawn src (9 + i) 1 3);
      communication := Z.min (communication (baseScores src i)) (drawn src (10 + i) 0 2);
      mindset       := Z.min (mindset (baseScores src i)) (drawn src (11 + i) 1 3) |},
   (12 + i)%nat).
Proof. reflexivity. Qed.

Lemma generateBaseScores_other (src : Source) i lvl :
lvl <> 1 -> lvl <> 2 -> lvl <> 4 -> lvl <> 5 ->
generateBaseScores lvl src i = (baseScores src i, (6 + i)%nat).
Proof.
intros H1 H2 H4 H5. run_rand.
apply Z.eqb_neq in H1, H2, H4, H5. rewrite H1, H2, H4, H5. reflexivity.
Qed.

Lemma level_cases (lvl : Z) :
lvl = 1 \/ lvl = 2 \/ lvl = 4 \/ lvl = 5 \/
(lvl <> 1 /\ lvl <> 2 /\ lvl <> 4 /\ lvl <> 5).
Proof. lia. Qed.

Lemma baseScores_in_range (src : Source) i :
uniform src ->
2 <= numeracy (baseScores src i) <= 10 /\ 1 <= reading (baseScores src i) <= 5 /\
2 <= computer (baseScores src i) <= 10 /\ 2 <= logic (baseScores src i) <= 8 /\
1 <= communication (baseScores src i) <= 5 /\ 2 <= mindset (baseScores src i) <= 7.
Proof.
intros Hu. unfold baseScores; cbn [numeracy reading computer logic communication mindset].
repeat split; apply drawn_range; auto; lia.
Qed.

Lemma generateBaseScores_in_range (src : Source) i lvl :
uniform src -> in_range PILLAR_CONFIG (fst (generateBaseScores lvl src i)).
Proof.
intros Hu.
pose proof (baseScores_in_range src i Hu) as Hb.
assert (Hd : forall k lo hi, lo <= hi -> lo <= drawn src k lo hi <= hi)
  by (intros; now apply drawn_range).
unfold in_range; cbn [PILLAR_CONFIG max pc_numeracy pc_reading pc_computer
  pc_logic pc_communication pc_mindset].
destruct (level_cases lvl) as [->|[->|[->|[->|(H1 & H2 & H4 & H5)]]]].
- rewrite generateBaseScores_level1;
    cbn [fst numeracy reading computer logic communication mindset].
  pose proof (Hd (6 + i)%nat 7 10). pose proof (Hd (7 + i)%nat 4 5).
  pose proof (Hd (8 + i)%nat 7 10). pose proof (Hd (9 + i)%nat 6 8).
  pose proof (Hd (10 + i)%nat 4 5). pose proof (Hd (11 + i)%nat 5 7). lia.
- rewrite generateBaseScores_level2;
    cbn [fst numeracy reading computer logic communication mindset].
  pose proof (Hd (6 + i)%nat 5 8). pose proof (Hd (7 + i)%nat 5 8).
  pose proof (Hd (8 + i)%nat 4 6). lia.
- rewrite generateBaseScores_level4;
    cbn [fst numeracy reading computer logic communication mindset].
  pose proof (Hd (6 + i)%nat 3 6). pose proof (Hd (7 + i)%nat 1 3).
  pose proof (Hd (8 + i)%nat 2 4). pose proof (Hd (9 + i)%nat 1 3). lia.
- rewrite generateBaseScores_level5;
    cbn [fst numeracy reading computer logic communication mindset].
  pose proof (Hd (6 + i)%nat 1 4). pose proof (Hd (7 + i)%nat 0 2).
  pose proof (Hd (8 + i)%nat 1 4). pose proof (Hd (9 + i)%nat 1 3).
  pose proof (Hd (10 + i)%nat 0 2). pose proof (Hd (11 + i)%nat 1 3). lia.
- rewrite generateBaseScores_other by assumption. cbn [fst]. lia.
Qed.

Lemma enforcePatterns_eq (s : Scores) (src : Source) i :
enforcePatterns s src i =
  ({| numeracy      := clamped (src (3 + i)%nat) (30 # 100) (numeracy s) 4;
      reading       := clamped (src i) (68 # 100) (reading s) 2;
      computer      := clamped (src (4 + i)%nat) (25 # 100) (computer s) 4;
      logic         := clamped (src (2 + i)%nat) (45 # 100) (logic s) 3;
      communication := clamped (src (1 + i)%nat) (62 # 100) (communication s) 2;
      mindset       := clamped (src (5 + i)%nat) (20 # 100) (mindset s) 3 |},
   (6 + i)%nat).
Proof.
destruct s as [n r c l k m].
run_rand. unfold clamped. rewrite !below_dec. cbn [Nat.add].
destruct (Qlt_le_dec (src i) _), (Qlt_le_dec (src (S i)) _),
  (Qlt_le_dec (src (S (S i))) _), (Qlt_le_dec (src (S (S (S i)))) _),
  (Qlt_le_dec (src (S (S (S (S i))))) _),
  (Qlt_le_dec (src (S (S (S (S (S i)))))) _); reflexivity.
Qed.

Lemma clamped_le u t v thr : clamped u t v thr <= v.
Proof. unfold clamped. destruct (Qlt_le_dec u t); lia. Qed.

Lemma clamped_lower u t v thr : 0 <= v -> 0 <= thr -> 0 <= clamped u t v thr.
Proof. unfold clamped. destruct (Qlt_le_dec u t); lia. Qed.


Lemma enforcePatterns_in_range (s : Scores) (src : Source) i :
in_range PILLAR_CONFIG s ->
in_range PILLAR_CONFIG (fst (enforcePatterns s src i)).
Proof.
unfold in_range; cbn [PILLAR_CONFIG max pc_numeracy pc_reading pc_computer
  pc_logic pc_communication pc_mindset].
intros H. rewrite enforcePatterns_eq.
cbn [fst numeracy reading computer logic communication mindset].
pose proof (clamped_le (src (3 + i)%nat) (30 # 100) (numeracy s) 4).
pose proof (clamped_le (src i) (68 # 100) (reading s) 2).
pose proof (clamped_le (src (4 + i)%nat) (25 # 100) (computer s) 4).
pose proof (clamped_le (src (2 + i)%nat) (45 # 100) (logic s) 3).
pose proof (clamped_le (src (1 + i)%nat) (62 # 100) (communication s) 2).
pose proof (clamped_le (src (5 + i)%nat) (20 # 100) (mindset s) 3).
pose proof (clamped_lower (src (3 + i)%nat) (30 # 100) (numeracy s) 4).
pose proof (clamped_lower (src i) (68 # 100) (reading s) 2).
pose proof (clamped_lower (src (4 + i)%nat) (25 # 100) (computer s) 4).
pose proof (clamped_lower (src (2 + i)%nat) (45 # 100) (logic s) 3).
pose proof (clamped_lower (src (1 + i)%nat) (62 # 100) (communication s) 2).
pose proof (clamped_lower (src (5 + i)%nat) (20 # 100) (mindset s) 3).
lia.
Qed.

(** How one loop iteration is assembled from its steps. *)
Lemma generateRecord_eq (now : Z) (src : Source) i rd :
selectFrom READINESS_DISTRIBUTION (src i) = Some rd ->
generateRecord now src i =
  (Some {| g_timestamp :=
             fst (generateTimestamp now src
                    (6 + snd (generateBaseScores (r_level rd) src (S i)))%nat);
           g_scores :=
             fst (enforcePatterns (fst (generateBaseScores (r_level rd) src (S i)))
                    src (snd (generateBaseScores (r_level rd) src (S i))));
           g_level := r_level rd; g_title := r_title rd |},
   (7 + snd (generateBaseScores (r_level rd) src (S i)))%nat).
Proof.
intros Hsel. unfold generateRecord, selectReadinessLevel.
cbv [bind ret Math_random]. rewrite Hsel.
destruct (generateBaseScores (r_level rd) src (S i)) as [adj j]. cbn [fst snd].
rewrite enforcePatterns_eq. reflexivity.
Qed.

Lemma generateRecord_in_range (now : Z) (src : Source) i :
uniform src ->
exists g j, generateRecord now src i = (Some g, j)
            /\ in_range PILLAR_CONFIG (g_scores g).
Proof.
intros Hu.
destruct (selectFrom_total READINESS_DISTRIBUTION (src i)) as (rd & t & Hrd & _);
  [discriminate|].
rewrite (generateRecord_eq now src i rd Hrd).
do 2 eexists. split; [reflexivity|].
cbn [g_scores]. apply enforcePatterns_in_range.
now apply generateBaseScores_in_range.
Qed.

Lemma generateRecords_in_range (now : Z) (src : Source) :
uniform src ->
forall count i,
  exists gs j, generateRecords count now src i = (Some gs, j)
               /\ length gs = count
               /\ Forall (fun g => in_range PILLAR_CONFIG (g_scores g)) gs.
Proof.
intros Hu. induction count as [|count IH]; intros i.
- exists [], i. repeat split. constructor.
- destruct (generateRecord_in_range now src i Hu) as (g & j & Hg & Hin).
  destruct (IH j) as (gs & k & Hgs & Hlen & Hall).
  exists (g :: gs), k. cbn [generateRecords]. unfold bind at 1. rewrite Hg.
  unfold bind at 1. rewrite Hgs. cbn [ret option_map length].
  repeat split; [now rewrite Hlen | now constructor].
Qed.

(** C1: for every sequence of draws in [0, 1), each loop iteration of
    the generator (tier selection, base draw, tier adjustment, weakness
    enforcement) yields a record whose six scores lie between 0 and the
    pillar's configured maximum (numeracy 10, reading 5, computer 10,
    logic 8, communication 5, mindset 7), and so does every record of a
    whole run of the loop. *)
Theorem C1_scores_within_bounds (now : Z) (src : Source) (i : nat) :
uniform src ->
(exists g, fst (generateRecord now src i) = Some g
   /\ in_range PILLAR_CONFIG (g_scores g))
/\ (forall count, exists gs,
      fst (generateRecords count now src i) = Some gs
      /\ length gs = count
      /\ Forall (fun g => in_range PILLAR_CONFIG (g_scores g)) gs)
/\ map max [pc_numeracy PILLAR_CONFIG; pc_reading PILLAR_CONFIG;
            pc_computer PILLAR_CONFIG; pc_logic PILLAR_CONFIG;
            pc_communication PILLAR_CONFIG; pc_mindset PILLAR_CONFIG]
   = [10; 5; 10; 8; 5; 7].
Proof.
intros Hu. split; [|split; [|reflexivity]].
- destruct (generateRecord_in_range now src i Hu) as (g & j & Hg & Hin).
  exists g. rewrite Hg. auto.
- intros count.
  destruct (generateRecords_in_range now src Hu count i) as (gs & j & Hgs & H).
  exists gs. rewrite Hgs. auto.
Qed.

Lemma C1_scores_within_bounds_witness :
uniform (fun _ => 1 # 2)
/\ exists g, fst (generateRecord 1767608430000 (fun _ => 1 # 2) 0%nat) = Some g
     /\ in_range PILLAR_CONFIG (g_scores g).
Proof.
assert (Hu : uniform (fun _ => 1 # 2)).
{ intros k. split; [unfold Qle | unfold Qlt]; simpl; lia. }
split; [exact Hu|].
exact (proj1 (C1_scores_within_bounds 1767608430000 (fun _ => 1 # 2) 0%nat Hu)).
Defined.



End SeedFacts.

(* ================================================================== *)
(** * Properties of the storage helpers *)
(* ================================================================== *)

Section DbFacts.
Import Js Db.
Variable E : Engine.

Ltac step_js :=
  cbv [Js.bind Js.ret Js.lift Js.throw Js.tryCatch read modify log] in *;
  cbn [db SQL disk console set_db set_SQL set_disk] in *.

Lemma saveDb_total (w : World E) :
exists w', saveDb E w = (Ok tt, w') /\ db E w' = db E w /\ SQL E w' = SQL E w.
Proof.
unfold saveDb. step_js. destruct (db E w) as [d|] eqn:Hd.
- destruct (export E d) as [data|e]; [destruct (writeFileSync E data) as [[]|e]|];
    eexists; (split; [reflexivity|]); cbn; auto.
- eexists; split; [reflexivity|]. auto.
Qed.

Lemma db_run_on (w : World E) d sql params :
db E w = Some d ->
db_run E sql params w =
  match run E d sql params with
  | Ok d' => (Ok tt, set_db E (Some d') w)
  | Throw e => (Throw e, w)
  end.
Proof.
intros Hd. unfold db_run. step_js. rewrite Hd.
destruct (run E d sql params); reflexivity.
Qed.

Lemma db_exec_on (w : World E) d sql :
db E w = Some d -> db_exec E sql w = (exec E d sql, w).
Proof. intros Hd. unfold db_exec. step_js. now rewrite Hd. Qed.

Lemma bind_ok_inv {W A B} (m : M W A) (k : A -> M W B) w b w' :
Js.bind m k w = (Ok b, w') ->
exists a w1, m w = (Ok a, w1) /\ k a w1 = (Ok b, w').
Proof.
unfold Js.bind. destruct (m w) as [[a|e] w1]; intros H; [eauto|discriminate].
Qed.

Lemma db_run_ok_inv (w w' : World E) sql params :
db_run E sql params w = (Ok tt, w') -> exists d, db E w' = Some d.
Proof.
unfold db_run. step_js. destruct (db E w) as [d|]; [|discriminate].
destruct (run E d sql params) as [d'|e]; intros H; inversion H; subst.
cbn. eauto.
Qed.

(** [getDb] either throws or leaves an open database in the singleton. *)
Lemma getDb_opens (w w' : World E) :
getDb E w = (Ok tt, w') -> exists d, db E w' = Some d.
Proof.
unfold getDb, initDb. intros H.
apply bind_ok_inv in H. destruct H as (d0 & w0 & Hread & H).
unfold read in Hread. inversion Hread; subst d0 w0; clear Hread.
destruct (db E w) as [d|] eqn:Hd.
- inversion H; subst. eauto.
- apply bind_ok_inv in H. destruct H as (loaded & w1 & _ & H).
  apply bind_ok_inv in H. destruct H as (? & w2 & _ & H).
  apply bind_ok_inv in H. destruct H as (? & w3 & _ & H).
  apply bind_ok_inv in H. destruct H as (? & w4 & _ & H).
  apply bind_ok_inv in H. destruct H as ([] & w5 & Hrun & H).
  apply db_run_ok_inv in Hrun. destruct Hrun as (d & Hd5).
  destruct (saveDb_total w5) as (w6 & Hs & Hdb & _).
  rewrite Hs in H. inversion H; subst. rewrite Hdb. eauto.
Qed.

Lemma getDb_outcome (w : World E) :
(exists w' d, getDb E w = (Ok tt, w') /\ db E w' = Some d)
\/ (exists e w', getDb E w = (Throw e, w')).
Proof.
destruct (getDb E w) as [[[]|e] w'] eqn:H.
- left. destruct (getDb_opens _ _ H) as (d & Hd). eauto.
- right. eauto.
Qed.

(** What [insertAssessment] does once the database is open. *)
Lemma insert_after_open (a : Assessment) (w w1 : World E) d :
getDb E w = (Ok tt, w1) -> db E w1 = Some d ->
exists w2,
  insertAssessment E a w =
    (Ok (match run E d INSERT_INTO_assessments (insertParams a) with
         | Ok _ => true
         | Throw _ => false
         end), w2).
Proof.
intros Hget Hd. unfold insertAssessment.
unfold Js.bind at 1. rewrite Hget. unfold Js.tryCatch.
unfold Js.bind at 1. rewrite (db_run_on w1 d _ _ Hd).
destruct (run E d INSERT_INTO_assessments (insertParams a)) as [d'|e].
- unfold Js.bind at 1.
  destruct (saveDb_total (set_db E (Some d') w1)) as (w3 & Hs & _).
  rewrite Hs. step_js. eauto.
- step_js. eauto.
Qed.

Lemma insert_when_closed (a : Assessment) (w w1 : World E) e :
getDb E w = (Throw e, w1) -> insertAssessment E a w = (Throw e, w1).
Proof.
intros Hget. unfold insertAssessment. unfold Js.bind at 1. now rewrite Hget.
Qed.

(** What [getAllAssessments] does once the database is open. *)
Lemma select_after_open (w w1 : World E) d :
getDb E w = (Ok tt, w1) -> db E w1 = Some d ->
exists w2,
  getAllAssessments E w =
    (Ok (match exec E d SELECT_all_ORDER_BY_timestamp_DESC with
         | Ok (first :: _) =>
             map (fun row => rowObject (columns first) row []) (values first)
         | _ => []
         end), w2).
Proof.
intros Hget Hd. unfold getAllAssessments.
unfold Js.bind at 1. rewrite Hget. unfold Js.tryCatch.
unfold Js.bind at 1. rewrite (db_exec_on w1 d _ Hd).
destruct (exec E d SELECT_all_ORDER_BY_timestamp_DESC) as [[|first rest]|e];
  step_js; eauto.
Qed.

Lemma select_when_closed (w w1 : World E) e :
getDb E w = (Throw e, w1) -> getAllAssessments E w = (Throw e, w1).
Proof.
intros Hget. unfold getAllAssessments. unfold Js.bind at 1. now rewrite Hget.
Qed.

(** C10 (as amended): whenever opening the database succeeds,
    [insertAssessment] resolves to a boolean that is [true] exactly when
    the INSERT went through and [false] when it raised, and
    [getAllAssessments] resolves to an array, the empty one when the
    query raises or returns no result set; when opening the database
    fails, both helpers reject with that very error. *)
Theorem C10_storage_helpers_after_open (a : Assessment) (w : World E) :
match getDb E w with
| (Throw e, w1) =>
    insertAssessment E a w = (Throw e, w1)
    /\ getAllAssessments E w = (Throw e, w1)
| (Ok _, w1) =>
    exists d, db E w1 = Some d
    /\ (exists w2,
          insertAssessment E a w =
            (Ok (match run E d INSERT_INTO_assessments (insertParams a) with
                 | Ok _ => true
                 | Throw _ => false
                 end), w2))
    /\ (exists w2,
          getAllAssessments E w =
            (Ok (match exec E d SELECT_all_ORDER_BY_timestamp_DESC with
                 | Ok (first :: _) =>
                     map (fun row => rowObject (columns first) row [])
                         (values first)
                 | _ => []
                 end), w2))
end.
Proof.
destruct (getDb E w) as [[[]|e] w1] eqn:Hget.
- destruct (getDb_opens _ _ Hget) as (d & Hd). exists d. split; [exact Hd|]. split.
  + exact (insert_after_open a w w1 d Hget Hd).
  + exact (select_after_open w w1 d Hget Hd).
- split; [now apply insert_when_closed | now apply select_when_closed].
Qed.

End DbFacts.

Section DbExamples.
Import Js Db DemoEngine.

(** C10, as first stated, fails: when [initSqlJs()] rejects, so do
    [insertAssessment] and [getAllAssessments]. *)
Lemma C10_helpers_reject_when_init_fails :
insertAssessment (engine false) sampleAssessment (freshWorld false)
  = (Throw (ExternalError "failed to load sql-wasm.wasm"), freshWorld false)
/\ getAllAssessments (engine false) (freshWorld false)
  = (Throw (ExternalError "failed to load sql-wasm.wasm"), freshWorld false).
Proof. split; reflexivity. Qed.

Example insert_fresh_succeeds :
fst (insertAssessment (engine true) sampleAssessment (freshWorld true)) = Ok true.
Proof. reflexivity. Qed.

Example insert_duplicate_session_fails :
fst (Js.bind (insertAssessment (engine true) sampleAssessment)
             (fun _ => insertAssessment (engine true) sampleAssessment)
             (freshWorld true)) = Ok false.
Proof. reflexivity. Qed.

Example select_empty_table :
fst (getAllAssessments (engine true) (freshWorld true)) = Ok [].
Proof. reflexivity. Qed.

End DbExamples.


(* ================================================================== *)
(** * Properties of the CSV export *)
(* ================================================================== *)

Section CsvFacts.
Import Db Csv CsvReader.
Local Open Scope string_scope.
Local Open Scope list_scope.

Lemma append_assoc (a b c : string) :
String.append (String.append a b) c = String.append a (String.append b c).
Proof. induction a; simpl; congruence. Qed.

Lemma append_empty_r (a : string) : String.append a "" = a.
Proof. induction a; simpl; congruence. Qed.

Lemma push_append cur c s :
String.append (push cur c) s = String.append cur (String c s).
Proof. unfold push. now rewrite append_assoc. Qed.

(** ** Characters that never need quoting *)

Lemma plain_cons c s : plain (String c s) = negb (special c) && plain s.
Proof.
unfold plain, special; simpl.
destruct (Ascii.eqb c COMMA), (Ascii.eqb c DQUOTE), (Ascii.eqb c LF),
  (Ascii.eqb c CR); simpl; try reflexivity;
  repeat rewrite orb_true_r; reflexivity.
Qed.

Lemma plain_cons_inv c s :
plain (String c s) = true ->
Ascii.eqb c COMMA = false /\ Ascii.eqb c DQUOTE = false /\
Ascii.eqb c LF = false /\ Ascii.eqb c CR = false /\ plain s = true.
Proof.
rewrite plain_cons. unfold special. intros H.
apply andb_true_iff in H. destruct H as [H1 H2].
apply negb_true_iff in H1.
repeat (apply orb_false_iff in H1; destruct H1 as [H1 ?]). auto.
Qed.

Lemma plain_uint d : plain (NilEmpty.string_of_uint d) = true.
Proof. induction d; simpl; try reflexivity; rewrite plain_cons; now rewrite IHd. Qed.

Lemma plain_number z : plain (numberToString z) = true.
Proof.
unfold numberToString, NilZero.string_of_int, NilZero.string_of_uint.
destruct (Z.to_int z) as [d|d].
- destruct d; try reflexivity; apply plain_uint.
- rewrite plain_cons. destruct d; try reflexivity; now rewrite plain_uint.
Qed.

Lemma parseNumber_numberToString z : parseNumber (numberToString z) = Some z.
Proof.
unfold parseNumber, numberToString. rewrite NilZero.isi.
- simpl. now rewrite DecimalZ.of_to.
- destruct z; simpl; try discriminate.
  intros H. inversion H. now apply (DecimalPos.Unsigned.to_uint_nonnil p).
- destruct z; simpl; try discriminate.
  intros H. inversion H. now apply (DecimalPos.Unsigned.to_uint_nonnil p).
Qed.

(** ** The reader on one field *)

Lemma scan_plain_run (s : string) :
forall st cur fields records rest,
  plain s = true -> s <> "" -> st = FieldStart \/ st = Unquoted ->
  scan st cur fields records (String.append s rest)
  = scan Unquoted (String.append cur s) fields records rest.
Proof.
induction s as [|c s IH]; intros st cur fields records rest Hp Hne Hst;
  [congruence|].
apply plain_cons_inv in Hp. destruct Hp as (Hc & Hq & Hl & Hr & Hp).
assert (Hstep : scan st cur fields records (String.append (String c s) rest)
                = scan Unquoted (push cur c) fields records (String.append s rest)).
{ destruct Hst as [->| ->]; simpl; now rewrite Hc, Hq, Hl, Hr. }
rewrite Hstep. destruct s as [|c' s'].
- simpl. unfold push. reflexivity.
- rewrite IH; auto; [|discriminate]. now rewrite push_append.
Qed.

Lemma scan_quoted_run (s : string) :
forall cur fields records rest,
  scan Quoted cur fields records (String.append (doubleQuotes s) rest)
  = scan Quoted (String.append cur s) fields records rest.
Proof.
induction s as [|c s IH]; intros cur fields records rest; simpl.
- now rewrite append_empty_r.
- destruct (Ascii.eqb c DQUOTE) eqn:E; simpl.
  + apply Ascii.eqb_eq in E; subst c. simpl. rewrite IH. now rewrite push_append.
  + rewrite E. rewrite IH. now rewrite push_append.
Qed.

Lemma written_plain t : plain t = true -> written t = t.
Proof.
unfold written, escapeCSVField, plain; simpl. intros H.
apply negb_true_iff in H. now rewrite H.
Qed.

Lemma written_quoted t :
plain t = false ->
written t = String DQUOTE (String.append (doubleQuotes t) (String DQUOTE "")).
Proof.
unfold written, escapeCSVField, plain; simpl. intros H.
apply negb_false_iff in H. now rewrite H.
Qed.

(** After a written field the reader holds the field's text, in a state
    where a comma, a line feed or the end of input closes the field. *)
Lemma scan_written t fields records rest :
exists st, st <> Quoted
  /\ scan FieldStart "" fields records (String.append (written t) rest)
     = scan st t fields records rest.
Proof.
destruct (plain t) eqn:Hp.
- rewrite written_plain by assumption. destruct t as [|c t'].
  + exists FieldStart. split; [discriminate|reflexivity].
  + exists Unquoted. split; [discriminate|].
    rewrite scan_plain_run; auto. discriminate.
- rewrite written_quoted by assumption. exists QuoteSeen. split; [discriminate|].
  simpl. rewrite append_assoc. rewrite scan_quoted_run. reflexivity.
Qed.

Lemma scan_comma st cur fields records rest :
st <> Quoted ->
scan st cur fields records (String COMMA rest)
= scan FieldStart "" (fields ++ [cur]) records rest.
Proof. destruct st; intros H; try congruence; reflexivity. Qed.

Lemma scan_line_feed st cur fields records rest :
st <> Quoted ->
scan st cur fields records (String LF rest)
= scan FieldStart "" [] (records ++ [fields ++ [cur]]) rest.
Proof. destruct st; intros H; try congruence; reflexivity. Qed.

Lemma scan_end st cur fields records :
st <> Quoted ->
scan st cur fields records "" = Some (records ++ [fields ++ [cur]]).
Proof. destruct st; intros H; try congruence; reflexivity. Qed.

(** ** The reader on one record and on the whole file *)

Lemma join_cons sep x (l : list string) :
l <> [] -> join sep (x :: l) = String.append x (String.append sep (join sep l)).
Proof. destruct l; [congruence|reflexivity]. Qed.

Lemma scan_record (fs : list string) (t : string) :
forall fields records rest,
  Forall (fun f => plain f = true) fs ->
  exists st, st <> Quoted
    /\ scan FieldStart "" fields records (String.append (render fs t) rest)
       = scan st t (fields ++ fs) records rest.
Proof.
induction fs as [|f fs IH]; intros fields records rest Hplain.
- rewrite app_nil_r. unfold render; simpl. apply scan_written.
- inversion Hplain as [|? ? Hf Hfs]; subst.
  unfold render. change ((f :: fs) ++ [written t]) with (f :: (fs ++ [written t])).
  rewrite join_cons by (destruct fs; discriminate).
  fold (render fs t). rewrite append_assoc.
  change (String.append (String.append "," (render fs t)) rest)
    with (String COMMA (String.append (render fs t) rest)).
  destruct (scan_written f fields records
              (String COMMA (String.append (render fs t) rest))) as (st0 & Hst0 & Hscan).
  rewrite written_plain in Hscan by assumption. rewrite Hscan.
  rewrite scan_comma by assumption.
  destruct (IH (fields ++ [f]) records rest Hfs) as (st & Hst & Hrec).
  exists st. split; [assumption|]. rewrite Hrec.
  now rewrite <- app_assoc.
Qed.

Lemma scan_records (lines : list (list string * string)) :
forall records,
  lines <> [] ->
  Forall (fun l => Forall (fun f => plain f = true) (fst l)) lines ->
  scan FieldStart "" [] records
    (join (String LF "") (map (fun l => render (fst l) (snd l)) lines))
  = Some (records ++ map (fun l => fst l ++ [snd l]) lines).
Proof.
induction lines as [|[fs t] lines IH]; intros records Hne Hall; [congruence|].
inversion Hall as [|? ? Hfs Hrest]; subst. cbn [fst snd map] in *.
destruct lines as [|l2 lines].
- cbn [map join String.concat].
  rewrite <- (append_empty_r (render fs t)).
  destruct (scan_record fs t [] records "" Hfs) as (st & Hst & Hscan).
  rewrite Hscan. now rewrite scan_end.
- rewrite join_cons by discriminate.
  change (String.append (String LF "") ?x) with (String LF x).
  destruct (scan_record fs t [] records
              (String LF (join (String LF "")
                 (map (fun l => render (fst l) (snd l)) (l2 :: lines)))) Hfs)
    as (st & Hst & Hscan).
  rewrite Hscan. rewrite scan_line_feed by assumption.
  rewrite IH; [|discriminate|assumption].
  cbn [app]. now rewrite <- app_assoc.
Qed.

Lemma escape_orEmpty v :
escapeCSVField (Some (orEmpty v)) = written (toString (orEmpty v)).
Proof.
destruct v as [[|z|s]|]; simpl; try reflexivity.
- destruct (Z.eqb z 0); reflexivity.
- destruct (String.eqb s ""); reflexivity.
Qed.

Lemma csvLine_render row :
csvLine row = render (firstNine row) (toString (orEmpty (field row "readiness_title"))).
Proof.
unfold csvLine, lineFields, render, firstNine. cbn [app].
now rewrite escape_orEmpty.
Qed.

Lemma headerLine_render :
join "," headers = render (removelast headers) "readiness_title".
Proof. reflexivity. Qed.

(** Whatever the rows hold in the title column, the file reads back as
    the header followed by the strings of each row, provided the nine
    columns written without quoting are plain. *)
Lemma readCsv_csvContent (rows : list Row) :
Forall (fun row => Forall (fun f => plain f = true) (firstNine row)) rows ->
readCsv (csvContent rows) = Some (headers :: map recordStrings rows).
Proof.
intros Hrows. unfold readCsv, csvContent, csvLines.
pose (lines := (removelast headers, "readiness_title")
               :: map (fun row => (firstNine row,
                                   toString (orEmpty (field row "readiness_title")))) rows).
assert (Hlines : join "," headers :: map csvLine rows
                 = map (fun l => render (fst l) (snd l)) lines).
{ unfold lines. cbn [map fst snd]. rewrite <- headerLine_render. f_equal.
  rewrite map_map. apply map_ext. intros row. apply csvLine_render. }
rewrite Hlines. rewrite scan_records.
- unfold lines. cbn [map fst snd app]. f_equal. f_equal.
  rewrite map_map. reflexivity.
- discriminate.
- unfold lines. constructor.
  + cbn [fst]. repeat constructor.
  + apply Forall_map. cbn [fst]. exact Hrows.
Qed.

(** ** Decoding the records of exportable rows *)

Lemma toString_orEmpty_text s : toString (orEmpty (Some (SqlText s))) = s.
Proof.
simpl. destruct (String.eqb s "") eqn:E; [|reflexivity].
apply String.eqb_eq in E. now subst.
Qed.

Lemma stored_field (row : Row) column x :
match field row column with Some v => v | None => SqlNull end = x ->
x <> SqlNull -> field row column = Some x.
Proof. destruct (field row column); intros; subst; congruence. Qed.

Lemma exportable_strings (row : Row) :
exportable row ->
exists sid ts n r c l k m lvl ttl,
  stored row = [SqlText sid; SqlText ts; SqlInt n; SqlInt r; SqlInt c; SqlInt l;
                SqlInt k; SqlInt m; SqlInt lvl; SqlText ttl]
  /\ recordStrings row =
       [sid; ts; numberToString n; numberToString r; numberToString c;
        numberToString l; numberToString k; numberToString m;
        numberToString lvl; ttl]
  /\ plain sid = true /\ plain ts = true.
Proof.
intros (sid & ts & n & r & c & l & k & m & lvl & ttl & Hst & Hsid & Hts).
exists sid, ts, n, r, c, l, k, m, lvl, ttl.
split; [exact Hst|]. split; [|auto].
unfold stored in Hst. cbn [map headers] in Hst.
injection Hst as H1 H2 H3 H4 H5 H6 H7 H8 H9 H10.
apply stored_field in H1, H2, H3, H4, H5, H6, H7, H8, H9, H10; try discriminate.
unfold recordStrings, firstNine.
rewrite H1, H2, H3, H4, H5, H6, H7, H8, H9, H10.
rewrite !toString_orEmpty_text. reflexivity.
Qed.

Lemma exportable_firstNine_plain (row : Row) :
exportable row -> Forall (fun f => plain f = true) (firstNine row).
Proof.
intros Hex.
destruct (exportable_strings row Hex)
  as (sid & ts & n & r & c & l & k & m & lvl & ttl & _ & Hstr & Hsid & Hts).
unfold recordStrings in Hstr.
assert (Hnine : firstNine row =
  [sid; ts; numberToString n; numberToString r; numberToString c;
   numberToString l; numberToString k; numberToString m; numberToString lvl]).
{ unfold firstNine in *. cbn [app] in Hstr. congruence. }
rewrite Hnine. repeat constructor; auto using plain_number.
Qed.

Lemma decodeRecord_exportable (row : Row) :
exportable row -> decodeRecord (recordStrings row) = Some (stored row).
Proof.
intros Hex.
destruct (exportable_strings row Hex)
  as (sid & ts & n & r & c & l & k & m & lvl & ttl & Hst & Hstr & _).
rewrite Hstr, Hst. unfold decodeRecord.
now rewrite !parseNumber_numberToString.
Qed.

Lemma decodeRecords_exportable (rows : list Row) :
Forall exportable rows ->
decodeRecords (map recordStrings rows) = Some (map stored rows).
Proof.
induction 1 as [|row rows Hrow Hrows IH]; [reflexivity|].
cbn [map decodeRecords]. now rewrite (decodeRecord_exportable row Hrow), IH.
Qed.

(** C9 (as amended): for stored rows whose ten exported columns hold
    non-null values of their declared types (text identifier, timestamp
    and title, integer scores and level) and whose identifier and
    timestamp contain no comma, double quote, line feed or carriage
    return, reading the exported file back recovers all ten values of
    every row exactly, whatever characters the title contains. *)
Theorem C9_csv_round_trip (rows : list Row) :
Forall exportable rows ->
readBack (csvContent rows) = Some (map stored rows).
Proof.
intros Hrows. unfold readBack.
rewrite readCsv_csvContent.
- destruct (list_eq_dec string_dec headers headers); [|congruence].
  now apply decodeRecords_exportable.
- eapply Forall_impl; [|exact Hrows]. apply exportable_firstNine_plain.
Qed.

(** ** Layout of the exported file *)




Variable E : Engine.

Lemma handler_get (w : World E) :
exists resp w',
  Csv.handler E "GET" w = (Js.Ok resp, w')
  /\ ((Http.status resp = 200
        /\ exists rows, Http.body resp = Http.Text (csvContent rows))
      \/ Http.status resp = 500).
Proof.
unfold Csv.handler. cbn [String.eqb Ascii.eqb Bool.eqb negb].
unfold Js.tryCatch, Js.bind at 1. cbn [log]. unfold Js.bind at 1.
match goal with |- context [getAllAssessments E ?w0] =>
  destruct (getAllAssessments E w0) as [[rows|e] w1] end.
- do 2 eexists. split; [reflexivity|]. left. cbn. eauto.
- do 2 eexists. split; [reflexivity|]. right. reflexivity.
Qed.


End CsvFacts.

Section CsvExamples.
Import Db Csv CsvReader.
Local Open Scope string_scope.
Local Open Scope list_scope.

Lemma C9_csv_round_trip_witness :
Forall exportable [rowWith (SqlText "demo_001_1767608430000") (SqlText awkwardTitle);
                   rowWith (SqlText "session_1767608430001_k3x9a") (SqlText "")]
/\ readBack (csvContent
      [rowWith (SqlText "demo_001_1767608430000") (SqlText awkwardTitle);
       rowWith (SqlText "session_1767608430001_k3x9a") (SqlText "")])
   = Some (map stored
      [rowWith (SqlText "demo_001_1767608430000") (SqlText awkwardTitle);
       rowWith (SqlText "session_1767608430001_k3x9a") (SqlText "")]).
Proof.
assert (H : Forall exportable
  [rowWith (SqlText "demo_001_1767608430000") (SqlText awkwardTitle);
   rowWith (SqlText "session_1767608430001_k3x9a") (SqlText "")]).
{ repeat constructor; unfold exportable;
    do 10 eexists; (split; [reflexivity|split; reflexivity]). }
split; [exact H | exact (C9_csv_round_trip _ H)].
Defined.

(** C9, as first stated, fails: a row with a NULL title is written like
    a row with an empty title and reads back with the empty text, and a
    row whose identifier contains a comma does not read back at all. *)
Lemma C9_round_trip_loses_null_and_commas :
stored (rowWith (SqlText "demo_001_1767608430000") SqlNull)
  = [SqlText "demo_001_1767608430000"; SqlText "2026-01-05 10:20:30";
     SqlInt 8; SqlInt 0; SqlInt 7; SqlInt 6; SqlInt 4; SqlInt 5; SqlInt 2;
     SqlNull]
/\ readBack (csvContent [rowWith (SqlText "demo_001_1767608430000") SqlNull])
  = Some [[SqlText "demo_001_1767608430000"; SqlText "2026-01-05 10:20:30";
           SqlInt 8; SqlInt 0; SqlInt 7; SqlInt 6; SqlInt 4; SqlInt 5; SqlInt 2;
           SqlText ""]]
/\ csvContent [rowWith (SqlText "demo_001_1767608430000") SqlNull]
  = csvContent [rowWith (SqlText "demo_001_1767608430000") (SqlText "")]
/\ readBack (csvContent [rowWith (SqlText "demo,001") (SqlText "Not Yet Ready")])
  = None.
Proof. repeat split; vm_compute; reflexivity. Qed.

End CsvExamples.



(* ================================================================== *)
(** * Properties of the pattern reporter *)
(* ================================================================== *)

Section SortFacts.
Import Verify.
Context {A : Type} (compare : A -> A -> Num).

Local Abbreviation R := (fun a b => before compare b a = false).

Lemma insert_perm x (l : list A) : Permutation (x :: l) (insert compare x l).
Proof.
induction l as [|y l IH]; simpl; [apply Permutation_refl|].
destruct (negative (compare y x)); [|apply Permutation_refl].
eapply Permutation_trans; [apply perm_swap|]. now apply perm_skip.
Qed.

Lemma sort_perm (l : list A) : Permutation l (sort compare l).
Proof.
induction l as [|x l IH]; simpl; [constructor|].
eapply Permutation_trans; [apply perm_skip, IH|apply insert_perm].
Qed.







Section Ordered.
Variable P : A -> Prop.
Hypothesis asym :
  forall x y, P x -> P y -> before compare x y = true -> before compare y x = false.
Hypothesis negtrans :
  forall x y z, P x -> P y -> P z ->
    before compare z y = false -> before compare y x = false ->
    before compare z x = false.

Lemma insert_sorted x (l : list A) :
P x -> Forall P l -> StronglySorted R l -> StronglySorted R (insert compare x l).
Proof.
intros Hx. induction l as [|y l IH]; intros HP Hs; simpl.
- constructor; constructor.
- inversion HP as [|? ? Hy HPl]; subst.
  inversion Hs as [|? ? Hsl Hyl]; subst.
  destruct (negative (compare y x)) eqn:E.
  + constructor; [now apply IH|].
    apply Forall_forall. intros z Hz.
    eapply Permutation_in in Hz; [|apply Permutation_sym, insert_perm].
    destruct Hz as [<-|Hz].
    * now apply asym.
    * rewrite Forall_forall in Hyl. now apply Hyl.
  + constructor; [assumption|].
    constructor; [exact E|].
    apply Forall_forall. intros z Hz.
    rewrite Forall_forall in Hyl, HPl.
    apply negtrans with (y := y); auto.
Qed.

Lemma sort_sorted (l : list A) : Forall P l -> StronglySorted R (sort compare l).
Proof.
induction l as [|x l IH]; intros HP; simpl; [constructor|].
inversion HP; subst. apply insert_sorted; auto.
eapply Permutation_Forall; [apply sort_perm|assumption].
Qed.

End Ordered.

Lemma sorted_precedes (l : list A) a b :
StronglySorted R l -> precedes l a b -> before compare b a = false.
Proof.
intros Hs (l1 & l2 & l3 & ->).
induction l1 as [|x l1 IH]; simpl in Hs; inversion Hs as [|? ? Hrest Hall]; subst.
- rewrite Forall_forall in Hall. apply Hall.
  apply in_or_app. right. now left.
- now apply IH.
Qed.

End SortFacts.

Section VerifyFacts.
Import Verify.
Local Open Scope string_scope.
Local Open Scope list_scope.
Local Open Scope Z_scope.

Lemma isZero_inject z : isZero (inject_Z z) = (z =? 0).
Proof.
unfold isZero, Qeq_bool, inject_Z; simpl. rewrite Z.mul_1_r.
destruct z; reflexivity.
Qed.

Lemma isNeg_lt q : isNeg q = true <-> (q < 0)%Q.
Proof.
unfold isNeg. rewrite negb_true_iff. split; intros H.
- apply Qnot_le_lt. intros Hle. apply Qle_bool_iff in Hle. congruence.
- destruct (Qle_bool 0 q) eqn:E; auto.
  apply Qle_bool_iff in E. exfalso. eapply Qlt_irrefl, Qle_lt_trans; eauto.
Qed.

Lemma selectCount_zero table : selectCount table = 0 -> table = [].
Proof. unfold selectCount. destruct table; simpl; [auto|lia]. Qed.

(** With no row every rate is [NaN]; with at least one, every rate is a
    finite number. *)
Lemma weakPct_shape (table : list Stored) :
Forall (fun s => weakPct s = NaN) (pillarStats table)
\/ Forall (fun s => exists q, weakPct s = Fin q) (pillarStats table).
Proof.
unfold pillarStats. destruct (Z.eq_dec (selectCount table) 0) as [H0|Hn].
- left. apply selectCount_zero in H0. subst. repeat constructor.
- right. apply Forall_map. apply Forall_forall. intros p _.
  unfold pillarStat; cbn [weakPct]. unfold div, ofZ.
  rewrite isZero_inject. apply Z.eqb_neq in Hn. rewrite Hn.
  cbn [mul]. eauto.
Qed.

Lemma before_finite a b x y :
weakPct a = Fin x -> weakPct b = Fin y ->
(before byWeakPctDesc b a = true <-> (x < y)%Q).
Proof.
intros Ha Hb. unfold before, byWeakPctDesc. rewrite Ha, Hb. cbn [sub negative].
rewrite isNeg_lt. split; intros H.
- apply Qlt_minus_iff in H. apply Qlt_minus_iff.
  setoid_replace (y + - x)%Q with (0 + - (x - y))%Q by ring. exact H.
- apply Qlt_minus_iff in H. apply Qlt_minus_iff.
  setoid_replace (0 + - (x - y))%Q with (y + - x)%Q by ring. exact H.
Qed.





Lemma rankedStats_sorted (table : list Stored) :
StronglySorted (fun a b => before byWeakPctDesc b a = false) (rankedStats table).
Proof.
unfold rankedStats. destruct (weakPct_shape table) as [H|H].
- apply sort_sorted with (P := fun s => weakPct s = NaN); [| |exact H].
  + intros x y Hx Hy. unfold before, byWeakPctDesc. now rewrite Hx, Hy.
  + intros x y z Hx Hy Hz _ _. unfold before, byWeakPctDesc. now rewrite Hx, Hz.
- apply sort_sorted with (P := fun s => exists q, weakPct s = Fin q); [| |exact H].
  + intros x y (qx & Hx) (qy & Hy) Hb.
    destruct (before byWeakPctDesc y x) eqn:E; [|reflexivity].
    apply (before_finite y x qy qx Hy Hx) in Hb.
    apply (before_finite x y qx qy Hx Hy) in E.
    exfalso. eapply Qlt_irrefl, Qlt_trans; eauto.
  + intros x y z (qx & Hx) (qy & Hy) (qz & Hz) Hzy Hyx.
    destruct (before byWeakPctDesc z x) eqn:E; [|reflexivity].
    apply (before_finite x z qx qz Hx Hz) in E.
    assert (H1 : ~ (qy < qz)%Q).
    { intros Hlt. apply (before_finite y z qy qz Hy Hz) in Hlt. congruence. }
    assert (H2 : ~ (qx < qy)%Q).
    { intros Hlt. apply (before_finite x y qx qy Hx Hy) in Hlt. congruence. }
    apply Qnot_lt_le in H1, H2. exfalso.
    eapply Qlt_irrefl, Qlt_le_trans; [exact E|]. eapply Qle_trans; eauto.
Qed.

Lemma precedes_In {A} (l : list A) a b : precedes l a b -> In a l /\ In b l.
Proof.
intros (l1 & l2 & l3 & ->). split.
- apply in_or_app. right. now left.
- apply in_or_app. right. right. apply in_or_app. right. now left.
Qed.

Lemma printStats_headings (stats : list PillarStat) :
forall index,
  Forall (fun s => avgScore s <> None) stats ->
  headings (fst (printStats index stats))
  = combine (map s_name stats) (map markerAt (seq index (length stats)))
  /\ snd (printStats index stats) = None.
Proof.
induction stats as [|s stats IH]; intros index Hall; [split; reflexivity|].
inversion Hall as [|? ? Hs Hrest]; subst.
cbn [printStats]. destruct (avgScore s) as [avg|]; [|congruence].
cbn [toFixed]. destruct (IH (S index) Hrest) as [Hh Hn].
destruct (printStats (S index) stats) as [more result].
cbn [fst snd] in *. split; [|assumption].
cbn [app headings flat_map map length seq combine]. f_equal.
exact Hh.
Qed.


(** C2 fails on the code: on a table with no row the six weakness rates
    are [NaN] and the six averages are [null]; the run prints the total,
    the first heading and a struggling line carrying [NaN], and then
    ends with the TypeError of calling [toFixed] on [null]. *)
Theorem C2_empty_table_report :
analyzePatterns []
  = ([TotalAssessments 0;
      PillarHeading "Reading" PRIMARY_WEAKNESS;
      Struggling 0 NaN],
     Some (Js.TypeError "Cannot read properties of null (reading 'toFixed')"))
/\ map weakPct (pillarStats []) = [NaN; NaN; NaN; NaN; NaN; NaN]
/\ map avgScore (pillarStats []) = [None; None; None; None; None; None].
Proof. repeat split; reflexivity. Qed.

(** On the sample table reading, logic and numeracy tie at 50%: they
    keep their declaration order behind communication (100%). *)
Example ranking_of_sample_table :
map (fun s => (s_name s, weakCount s)) (rankedStats sampleTable)
= [("Communication", 2); ("Reading", 1); ("Logic", 1); ("Numeracy", 1);
   ("Computer", 0); ("Mindset", 0)]
/\ headings (fst (analyzePatterns sampleTable))
  = [("Communication", PRIMARY_WEAKNESS); ("Reading", SECONDARY);
     ("Logic", NoMarker); ("Numeracy", NoMarker); ("Computer", NoMarker);
     ("Mindset", NoMarker)]
/\ snd (analyzePatterns sampleTable) = None.
Proof. repeat split; vm_compute; reflexivity. Qed.

End VerifyFacts.

(* ================================================================== *)
(** * Properties of the live-quiz handler *)
(* ================================================================== *)

Section ChatFacts.
Import Js Db Http Chat ChatNotions.
Local Open Scope string_scope.
Local Open Scope list_scope.
Local Open Scope Z_scope.
Variable E : Engine.
Variable env : Env.

Lemma log_storage (line : string) (w : World E) :
exists w', log line w = (Ok tt, w') /\ storage w' = storage w.
Proof. eexists. split; reflexivity. Qed.









End ChatFacts.

Section ChatExamples.
Import Js Db Http Chat ChatNotions DemoEngine.
Local Open Scope string_scope.
Local Open Scope list_scope.
Local Open Scope Z_scope.



Example chat_opt_out_is_not_saved :
db _ (snd (handler (engine true) (scriptedEnv finalReply)
             (postWith [("consentGiven", VBool false)]) (freshWorld true)))
= None.
Proof. reflexivity. Qed.

Example chat_ordinary_turn_is_not_saved :
handler (engine true) (scriptedEnv "What is 10% of 200?")
        (postWith [("consentGiven", VBool true)]) (freshWorld true)
= (Ok (respond 200 (Json (replyData "What is 10% of 200?"))), freshWorld true).
Proof. reflexivity. Qed.

End ChatExamples.

(* ================================================================== *)
(** * Further properties of the seed generator *)
(* ================================================================== *)

Section SeedMore.
Import Rand Seed.

Lemma drawFor_uniform lo hi k :
lo <= k <= hi -> (0 <= drawFor lo hi k)%Q /\ (drawFor lo hi k < 1)%Q.
Proof.
intros H. unfold drawFor, Qle, Qlt; simpl.
rewrite Z2Pos.id by lia. lia.
Qed.

Lemma drawFor_hits lo hi k :
lo <= k <= hi -> Qfloor (drawFor lo hi k * inject_Z (hi - lo + 1)) + lo = k.
Proof.
intros H. unfold drawFor, Qfloor, Qmult, inject_Z; simpl.
rewrite Pos.mul_1_r. rewrite Z2Pos.id by lia.
rewrite Z.div_mul by lia. lia.
Qed.

(** X1: with draws in [0, 1) and [min <= max], [randomInt min max]
    returns an integer between [min] and [max] inclusive and reads
    exactly one draw; conversely every integer of that range is returned
    for some draw in [0, 1). *)
Theorem X1_randomInt_covers_exactly_its_range (lo hi : Z) :
lo <= hi ->
(forall src i, uniform src ->
   lo <= fst (randomInt lo hi src i) <= hi
   /\ snd (randomInt lo hi src i) = S i)
/\ (forall k, lo <= k <= hi ->
      exists src, uniform src /\ forall i, fst (randomInt lo hi src i) = k).
Proof.
intros Hle. split.
- intros src i Hu. split; [|reflexivity]. now apply drawn_range.
- intros k Hk. exists (fun _ => drawFor lo hi k). split.
  + intros i. now apply drawFor_uniform.
  + intros i. rewrite randomInt_eq. cbn [fst]. now apply drawFor_hits.
Qed.

Lemma X1_randomInt_covers_exactly_its_range_witness :
2 <= 10
/\ (forall src i, uniform src ->
      2 <= fst (randomInt 2 10 src i) <= 10
      /\ snd (randomInt 2 10 src i) = S i)
/\ (forall k, 2 <= k <= 10 ->
      exists src, uniform src /\ forall i, fst (randomInt 2 10 src i) = k).
Proof.
assert (H : 2 <= 10) by lia.
split; [exact H | exact (X1_randomInt_covers_exactly_its_range 2 10 H)].
Defined.

Ltac scores_cbn :=
  cbn [fst snd numeracy reading computer logic communication mindset
       PILLAR_CONFIG max weakThreshold pc_numeracy pc_reading pc_computer
       pc_logic pc_communication pc_mindset].

Lemma tier1_floors (src : Source) i :
uniform src ->
let s := fst (generateBaseScores 1 src i) in
7 <= numeracy s /\ 4 <= reading s /\ 7 <= computer s /\ 6 <= logic s
/\ 4 <= communication s /\ 5 <= mindset s.
Proof.
intros Hu s. subst s. rewrite generateBaseScores_level1. scores_cbn.
pose proof (drawn_range src (6 + i)%nat 7 10 Hu).
pose proof (drawn_range src (7 + i)%nat 4 5 Hu).
pose proof (drawn_range src (8 + i)%nat 7 10 Hu).
pose proof (drawn_range src (9 + i)%nat 6 8 Hu).
pose proof (drawn_range src (10 + i)%nat 4 5 Hu).
pose proof (drawn_range src (11 + i)%nat 5 7 Hu). lia.
Qed.

Lemma tier2_floors (src : Source) i :
uniform src ->
let s := fst (generateBaseScores 2 src i) in
5 <= numeracy s /\ 5 <= computer s /\ 4 <= mindset s.
Proof.
intros Hu s. subst s. rewrite generateBaseScores_level2. scores_cbn.
pose proof (drawn_range src (6 + i)%nat 5 8 Hu).
pose proof (drawn_range src (7 + i)%nat 5 8 Hu).
pose proof (drawn_range src (8 + i)%nat 4 6 Hu). lia.
Qed.

Lemma tier4_ceilings (src : Source) i :
uniform src ->
let s := fst (generateBaseScores 4 src i) in
numeracy s <= 6 /\ reading s <= 3 /\ logic s <= 4 /\ communication s <= 3.
Proof.
intros Hu s. subst s. rewrite generateBaseScores_level4. scores_cbn.
pose proof (drawn_range src (6 + i)%nat 3 6 Hu).
pose proof (drawn_range src (7 + i)%nat 1 3 Hu).
pose proof (drawn_range src (8 + i)%nat 2 4 Hu).
pose proof (drawn_range src (9 + i)%nat 1 3 Hu). lia.
Qed.

Lemma tier5_all_weak (src : Source) i :
uniform src -> all_weak PILLAR_CONFIG (fst (generateBaseScores 5 src i)).
Proof.
intros Hu. rewrite generateBaseScores_level5. unfold all_weak. scores_cbn.
pose proof (drawn_range src (6 + i)%nat 1 4 Hu).
pose proof (drawn_range src (7 + i)%nat 0 2 Hu).
pose proof (drawn_range src (8 + i)%nat 1 4 Hu).
pose proof (drawn_range src (9 + i)%nat 1 3 Hu).
pose proof (drawn_range src (10 + i)%nat 0 2 Hu).
pose proof (drawn_range src (11 + i)%nat 1 3 Hu). lia.
Qed.

(** X2: with draws in [0, 1), the scores [generateBaseScores] returns
    for tier 1 are at least 7, 4, 7, 6, 4, 5 (numeracy, reading,
    computer, logic, communication, mindset); for tier 2 numeracy and
    computer are at least 5 and mindset at least 4; for tier 4 numeracy,
    reading, logic and communication are at most 6, 3, 4, 3; for tier 5
    every score is at or below the weak threshold of its pillar. *)
Theorem X2_tier_floors_and_ceilings (src : Source) (i : nat) :
uniform src ->
(let s := fst (generateBaseScores 1 src i) in
 7 <= numeracy s /\ 4 <= reading s /\ 7 <= computer s /\ 6 <= logic s
 /\ 4 <= communication s /\ 5 <= mindset s)
/\ (let s := fst (generateBaseScores 2 src i) in
    5 <= numeracy s /\ 5 <= computer s /\ 4 <= mindset s)
/\ (let s := fst (generateBaseScores 4 src i) in
    numeracy s <= 6 /\ reading s <= 3 /\ logic s <= 4 /\ communication s <= 3)
/\ all_weak PILLAR_CONFIG (fst (generateBaseScores 5 src i)).
Proof.
intros Hu. split; [|split; [|split]].
- now apply tier1_floors.
- now apply tier2_floors.
- now apply tier4_ceilings.
- now apply tier5_all_weak.
Qed.

Ltac constant_uniform :=
  intros ?k; split; [unfold Qle | unfold Qlt]; simpl; lia.

Lemma X2_tier_floors_and_ceilings_witness :
uniform (fun _ => 1 # 2)
/\ all_weak PILLAR_CONFIG (fst (generateBaseScores 5 (fun _ => 1 # 2) 0%nat)).
Proof.
assert (Hu : uniform (fun _ => 1 # 2)) by constant_uniform.
split; [exact Hu|].
exact (proj2 (proj2 (proj2
  (X2_tier_floors_and_ceilings (fun _ => 1 # 2) 0%nat Hu)))).
Defined.





Lemma Qle_bool_false r c : Qle_bool r c = false -> (c < r)%Q.
Proof.
intros H. apply Qnot_le_lt. intros Hle. apply Qle_bool_iff in Hle. congruence.
Qed.

Ltac split_walk :=
  repeat match goal with
  | |- context [Qle_bool ?r ?c] =>
      let E := fresh "E" in
      destruct (Qle_bool r c) eqn:E;
      [apply Qle_bool_iff in E | apply Qle_bool_false in E]
  | H : context [Qle_bool ?r ?c] |- _ =>
      let E := fresh "E" in
      destruct (Qle_bool r c) eqn:E;
      [apply Qle_bool_iff in E | apply Qle_bool_false in E]
  end.

Lemma levelFor_range r : 1 <= levelFor r <= 5.
Proof.
unfold levelFor, selectFrom, lastEntry, READINESS_DISTRIBUTION.
cbn [walk probability level title nth_error length Nat.sub].
split_walk; cbn [r_level]; lia.
Qed.

Lemma levelFor_monotone r1 r2 : (r1 <= r2)%Q -> levelFor r1 <= levelFor r2.
Proof.
intros Hle.
unfold levelFor, selectFrom, lastEntry, READINESS_DISTRIBUTION.
cbn [walk probability level title nth_error length Nat.sub].
split_walk; cbn [r_level]; try lia; exfalso; lra.
Qed.

Lemma select_in_loop r :
(r < 1)%Q ->
exists x, selectFrom READINESS_DISTRIBUTION r = Some x /\ r_probability x = None.
Proof.
intros Hlt.
unfold selectFrom, lastEntry, READINESS_DISTRIBUTION.
cbn [walk probability level title nth_error length Nat.sub].
split_walk; try (eexists; split; reflexivity). exfalso. lra.
Qed.

(** X5: a draw below 1 is always caught inside the loop of
    [selectReadinessLevel], so with draws in [0, 1) the fallback after
    the loop is never taken; the level picked is between 1 and 5 and
    never decreases when the draw increases. *)
Theorem X5_selection_is_monotone_and_needs_no_fallback :
(forall src i, uniform src ->
   exists x, selectReadinessLevel src i = (Some x, S i)
             /\ r_probability x = None)
/\ (forall r, 1 <= levelFor r <= 5)
/\ (forall r1 r2, (r1 <= r2)%Q -> levelFor r1 <= levelFor r2).
Proof.
split; [|split].
- intros src i Hu. destruct (Hu i) as [_ Hlt].
  destruct (select_in_loop (src i) Hlt) as (x & Hx & Hp).
  exists x. split; [|exact Hp].
  unfold selectReadinessLevel. cbv [bind ret Math_random]. now rewrite Hx.
- exact levelFor_range.
- exact levelFor_monotone.
Qed.



Lemma generateBaseScores_draws (lvl : Z) (src : Source) i :
snd (generateBaseScores lvl src i) = (6 + tierDraws lvl + i)%nat.
Proof.
destruct (level_cases lvl) as [->|[->|[->|[->|(H1 & H2 & H4 & H5)]]]];
  try reflexivity.
rewrite generateBaseScores_other by assumption. unfold tierDraws.
apply Z.eqb_neq in H1, H2, H4, H5. now rewrite H1, H2, H4, H5.
Qed.

Lemma tierDraws_bound lvl : (tierDraws lvl <= 6)%nat.
Proof.
unfold tierDraws.
destruct (lvl =? 1), (lvl =? 2), (lvl =? 4), (lvl =? 5); lia.
Qed.

Lemma generateRecord_draws (now : Z) (src : Source) i :
exists g, generateRecord now src i = (Some g, (14 + tierDraws (g_level g) + i)%nat).
Proof.
destruct (selectFrom_total READINESS_DISTRIBUTION (src i)) as (rd & t & Hrd & _);
  [discriminate|].
rewrite (generateRecord_eq now src i rd Hrd).
rewrite generateBaseScores_draws.
match goal with |- exists g, (Some ?r, _) = _ => exists r end.
cbn [g_level]. f_equal. lia.
Qed.

Lemma generateRecords_draws (now : Z) (src : Source) :
forall count i,
  exists gs j, generateRecords count now src i = (Some gs, j)
    /\ (14 * count + i <= j <= 20 * count + i)%nat.
Proof.
induction count as [|count IH]; intros i.
- exists [], i. split; [reflexivity|lia].
- destruct (generateRecord_draws now src i) as (g & Hg).
  destruct (IH (14 + tierDraws (g_level g) + i)%nat) as (gs & j & Hgs & Hj).
  exists (g :: gs), j. cbn [generateRecords]. unfold bind at 1. rewrite Hg.
  unfold bind at 1. rewrite Hgs. cbn [ret option_map].
  split; [reflexivity|]. pose proof (tierDraws_bound (g_level g)). lia.
Qed.

(** X7: one loop iteration reads a block of consecutive draws of its own:
    1 for the tier, 6 for the base scores, 6, 3, 0, 4 or 6 for the
    adjustment of tier 1, 2, 3, 4 or 5, 6 for the weakness enforcement
    and 1 for the timestamp; the next iteration starts right after it,
    so a run of [count] iterations reads between [14 * count] and
    [20 * count] draws and none of them twice. *)
Theorem X7_each_record_reads_its_own_draws (now : Z) (src : Source) (i : nat) :
(exists g, generateRecord now src i
           = (Some g, (14 + tierDraws (g_level g) + i)%nat))
/\ (tierDraws 1 = 6 /\ tierDraws 2 = 3 /\ tierDraws 3 = 0
    /\ tierDraws 4 = 4 /\ tierDraws 5 = 6)%nat
/\ (forall count, exists gs j,
      generateRecords count now src i = (Some gs, j)
      /\ (14 * count + i <= j <= 20 * count + i)%nat).
Proof.
split; [apply generateRecord_draws|]. split; [repeat split|].
intros count. apply generateRecords_draws.
Qed.

End SeedMore.

(* ================================================================== *)
(** * Further properties of the storage helpers *)
(* ================================================================== *)

Section DbMore.
Import Js Db DbCount ChatNotions.
Local Open Scope string_scope.
Local Open Scope list_scope.
Variable E : Engine.

Lemma getDb_cached (w : World E) d : db E w = Some d -> getDb E w = (Ok tt, w).
Proof.
intros Hd. unfold getDb, initDb, Js.bind, read. now rewrite Hd.
Qed.

(** X8: once the database has been opened, [getAssessmentCount] never
    rejects: it resolves to the first cell of the first row of the count
    query, and to 0 when the query raises, returns no result set, or
    returns a result set without rows; when opening the database fails
    it rejects with that error. *)
Theorem X8_count_resolves_to_cell_or_zero (w : World E) :
match getDb E w with
| (Throw e, w1) => getAssessmentCount E w = (Throw e, w1)
| (Ok _, w1) =>
    exists d w2, db E w1 = Some d
    /\ getAssessmentCount E w =
         (Ok (match exec E d SELECT_COUNT with
              | Ok (first :: _) =>
                  match values first with
                  | row :: _ => nth_error row 0
                  | [] => Some (SqlInt 0)
                  end
              | _ => Some (SqlInt 0)
              end), w2)
end.
Proof.
destruct (getDb E w) as [[[]|e] w1] eqn:Hget.
- destruct (getDb_opens E _ _ Hget) as (d & Hd). exists d.
  unfold getAssessmentCount. unfold Js.bind at 1. rewrite Hget.
  unfold Js.tryCatch. unfold Js.bind at 1. rewrite (db_exec_on E w1 d _ Hd).
  destruct (exec E d SELECT_COUNT) as [[|first rest]|e];
    [| destruct (values first) as [|row rows] |];
    eexists; (split; [exact Hd|]); reflexivity.
- unfold getAssessmentCount. unfold Js.bind at 1. now rewrite Hget.
Qed.

(** X9: a successful [getDb] leaves the singleton set, and whenever the
    singleton is set [getDb] returns at once without touching the
    engine, the file or the console; so initialisation runs at most once
    per process, and a second [getDb] after a successful one changes
    nothing. *)
Theorem X9_database_is_opened_once (w : World E) :
(forall w1, getDb E w = (Ok tt, w1) ->
   (exists d, db E w1 = Some d)
   /\ getDb E w1 = (Ok tt, w1)
   /\ Js.bind (getDb E) (fun _ => getDb E) w = (Ok tt, w1))
/\ (forall d, db E w = Some d -> getDb E w = (Ok tt, w)).
Proof.
split.
- intros w1 Hget. destruct (getDb_opens E _ _ Hget) as (d & Hd).
  split; [eauto|]. split; [exact (getDb_cached w1 d Hd)|].
  unfold Js.bind. rewrite Hget. exact (getDb_cached w1 d Hd).
- intros d Hd. exact (getDb_cached w d Hd).
Qed.

Lemma failed_create_keeps_handle (w : World E) (d : Database E) (e : Error) :
db E w = None -> disk E w = None ->
initSqlJs E = Ok tt -> newDatabase E None = Ok d ->
run E d CREATE_TABLE_IF_NOT_EXISTS [] = Throw e ->
exists w1, getDb E w = (Throw e, w1) /\ db E w1 = Some d /\ disk E w1 = None.
Proof.
intros Hdb Hdisk Hinit Hnew Hrun.
unfold getDb, initDb. unfold Js.bind at 1. unfold read at 1. rewrite Hdb.
unfold Js.bind at 1. unfold read at 1.
assert (Hload : exists w0,
  (((if SQL E w then Js.ret tt
     else Js.bind (Js.lift (initSqlJs E)) (fun _ => modify (set_SQL E true)))
    : M (World E) unit) w = (Ok tt, w0))
  /\ db E w0 = None /\ disk E w0 = None).
{ destruct (SQL E w); [exists w; auto|].
  unfold Js.bind, Js.lift. rewrite Hinit. eexists. split; [reflexivity|]. auto. }
destruct Hload as (w0 & Hsql & Hdb0 & Hdisk0).
unfold Js.bind at 1. rewrite Hsql.
unfold Js.bind at 1. cbn [log].
unfold Js.bind at 1. unfold Js.tryCatch. unfold Js.bind at 1. unfold read at 1.
cbn [disk]. rewrite Hdisk0.
unfold Js.bind at 1. unfold Js.lift at 1. rewrite Hnew.
unfold Js.bind at 1. cbn [modify log].
unfold Js.bind at 1.
match goal with |- context [db_run E _ _ ?w3] =>
  rewrite (db_run_on E w3 d _ _ eq_refl) end.
rewrite Hrun.
eexists. split; [reflexivity|]. cbn [db disk set_db]. split; reflexivity.
Qed.

(** X4: when the first initialisation opens a new database but the
    CREATE TABLE statement raises, [getDb] rejects with that error while
    the singleton stays set and nothing is written to disk; the next
    [getDb] therefore resolves without running CREATE TABLE again, and
    [insertAssessment] goes straight to its INSERT on that database. *)
Theorem X4_failed_table_creation_is_not_retried
  (w : World E) (d : Database E) (e : Error) :
db E w = None -> disk E w = None ->
initSqlJs E = Ok tt -> newDatabase E None = Ok d ->
run E d CREATE_TABLE_IF_NOT_EXISTS [] = Throw e ->
exists w1,
  getDb E w = (Throw e, w1)
  /\ db E w1 = Some d /\ disk E w1 = None
  /\ getDb E w1 = (Ok tt, w1)
  /\ forall a, exists w2,
       insertAssessment E a w1 =
         (Ok (match run E d INSERT_INTO_assessments (insertParams a) with
              | Ok _ => true
              | Throw _ => false
              end), w2).
Proof.
intros Hdb Hdisk Hinit Hnew Hrun.
destruct (failed_create_keeps_handle w d e Hdb Hdisk Hinit Hnew Hrun)
  as (w1 & Hget & Hd1 & Hdisk1).
exists w1. split; [exact Hget|]. split; [exact Hd1|]. split; [exact Hdisk1|].
split; [exact (getDb_cached w1 d Hd1)|].
intros a. exact (insert_after_open E a w1 w1 d (getDb_cached w1 d Hd1) Hd1).
Qed.



Lemma insertAssessment_opens (a : Assessment) (w w1 : World E) d d' :
getDb E w = (Ok tt, w1) -> db E w1 = Some d ->
run E d INSERT_INTO_assessments (insertParams a) = Ok d' ->
exists w2, insertAssessment E a w = (Ok true, w2) /\ db E w2 = Some d'.
Proof.
intros Hget Hd Hrun. unfold insertAssessment.
unfold Js.bind at 1. rewrite Hget. unfold Js.tryCatch.
unfold Js.bind at 1. rewrite (db_run_on E w1 d _ _ Hd), Hrun.
unfold Js.bind at 1.
destruct (saveDb_total E (set_db E (Some d') w1)) as (w3 & Hs & Hdb3 & _).
rewrite Hs. unfold Js.bind, Js.ret, log. eexists. split; [reflexivity|].
cbn [db]. exact Hdb3.
Qed.

(** X11: what is read after a successful insert is read from the
    database the INSERT produced: [insertAssessment] followed by
    [getAllAssessments] resolves to the row objects of the SELECT run on
    that database, and followed by [getAssessmentCount] to the count
    cell of the count query run on it, whether or not the save to disk
    succeeded in between. *)
Theorem X11_reads_after_insert_see_the_new_database
  (a : Assessment) (w w1 : World E) (d d' : Database E) :
getDb E w = (Ok tt, w1) -> db E w1 = Some d ->
run E d INSERT_INTO_assessments (insertParams a) = Ok d' ->
fst (Js.bind (insertAssessment E a) (fun _ => getAllAssessments E) w)
  = Ok (match exec E d' SELECT_all_ORDER_BY_timestamp_DESC with
        | Ok (first :: _) =>
            map (fun row => rowObject (columns first) row []) (values first)
        | _ => []
        end)
/\ fst (Js.bind (insertAssessment E a) (fun _ => getAssessmentCount E) w)
  = Ok (match exec E d' SELECT_COUNT with
        | Ok (first :: _) =>
            match values first with
            | row :: _ => nth_error row 0
            | [] => Some (SqlInt 0)
            end
        | _ => Some (SqlInt 0)
        end).
Proof.
intros Hget Hd Hrun.
destruct (insertAssessment_opens a w w1 d d' Hget Hd Hrun) as (w2 & Hins & Hd2).
unfold Js.bind. rewrite Hins. split.
- destruct (select_after_open E w2 w2 d' (getDb_cached w2 d' Hd2) Hd2) as (w3 & Hsel).
  now rewrite Hsel.
- unfold getAssessmentCount. unfold Js.bind at 1.
  rewrite (getDb_cached w2 d' Hd2). unfold Js.tryCatch. unfold Js.bind at 1.
  rewrite (db_exec_on E w2 d' _ Hd2).
  destruct (exec E d' SELECT_COUNT) as [[|first rest]|e];
    [| destruct (values first) as [|row rows] |]; reflexivity.
Qed.

End DbMore.

Section DbMoreExamples.
Import Js Db DbCount ChatNotions.
Local Open Scope string_scope.
Local Open Scope list_scope.

Lemma X4_failed_table_creation_witness :
exists w1,
  getDb (FaultyEngine.engine
           {| FaultyEngine.initFails := false; FaultyEngine.createFails := true;
              FaultyEngine.insertFails := false; FaultyEngine.selectFails := false;
              FaultyEngine.exportFails := false; FaultyEngine.writeFails := false |})
        (FaultyEngine.cold _)
  = (Throw (ExternalError "file is not a database"), w1)
  /\ getDb _ w1 = (Ok tt, w1).
Proof.
destruct (X4_failed_table_creation_is_not_retried
            (FaultyEngine.engine
               {| FaultyEngine.initFails := false; FaultyEngine.createFails := true;
                  FaultyEngine.insertFails := false; FaultyEngine.selectFails := false;
                  FaultyEngine.exportFails := false; FaultyEngine.writeFails := false |})
            (FaultyEngine.cold _) [] (ExternalError "file is not a database")
            eq_refl eq_refl eq_refl eq_refl eq_refl)
  as (w1 & H1 & _ & _ & H2 & _).
exists w1. split; [exact H1|exact H2].
Defined.


Lemma X11_reads_after_insert_witness :
fst (Js.bind (insertAssessment (FaultyEngine.engine FaultyEngine.noFault)
                DemoEngine.sampleAssessment)
             (fun _ => getAssessmentCount (FaultyEngine.engine FaultyEngine.noFault))
             (FaultyEngine.cold _))
= Ok (Some (SqlInt 1)).
Proof.
rewrite (proj2 (X11_reads_after_insert_see_the_new_database
           (FaultyEngine.engine FaultyEngine.noFault)
           DemoEngine.sampleAssessment (FaultyEngine.cold _)
           (snd (getDb _ (FaultyEngine.cold _))) []
           [insertParams DemoEngine.sampleAssessment]
           eq_refl eq_refl eq_refl)).
reflexivity.
Defined.

End DbMoreExamples.

(* ================================================================== *)
(** * The console never steers the storage helpers *)
(* ================================================================== *)

Section ConsoleFrame.
Import Js Db DbCount ChatNotions.
Local Open Scope string_scope.
Local Open Scope list_scope.
Variable E : Engine.

Lemma blind_ret {A} (a : A) : consoleBlind E (Js.ret a).
Proof. intros w w0 H. split; [reflexivity|exact H]. Qed.

Lemma blind_lift {A} (o : Outcome A) : consoleBlind E (Js.lift o).
Proof. intros w w0 H. split; [reflexivity|exact H]. Qed.

Lemma blind_throw {A} (e : Error) : consoleBlind E (Js.throw (A := A) e).
Proof. intros w w0 H. split; [reflexivity|exact H]. Qed.

Lemma blind_log (line : string) : consoleBlind E (log line).
Proof. intros w w0 H. split; [reflexivity|exact H]. Qed.

Lemma storage_inv (w w0 : World E) :
storage w0 = storage w ->
db E w0 = db E w /\ SQL E w0 = SQL E w /\ disk E w0 = disk E w.
Proof. unfold storage. intros H. injection H as H1 H2 H3. auto. Qed.

Lemma blind_read_db : consoleBlind E (read (db E)).
Proof.
intros w w0 H. destruct (storage_inv _ _ H) as (Hd & _).
unfold read; cbn [fst snd]. split; [now rewrite Hd|exact H].
Qed.

Lemma blind_read_SQL : consoleBlind E (read (SQL E)).
Proof.
intros w w0 H. destruct (storage_inv _ _ H) as (_ & Hs & _).
unfold read; cbn [fst snd]. split; [now rewrite Hs|exact H].
Qed.

Lemma blind_read_disk : consoleBlind E (read (disk E)).
Proof.
intros w w0 H. destruct (storage_inv _ _ H) as (_ & _ & Hf).
unfold read; cbn [fst snd]. split; [now rewrite Hf|exact H].
Qed.

Lemma blind_set_db d : consoleBlind E (modify (set_db E d)).
Proof.
intros w w0 H. destruct (storage_inv _ _ H) as (_ & Hs & Hf).
unfold modify, storage; cbn. split; [reflexivity|]. now rewrite Hs, Hf.
Qed.

Lemma blind_set_SQL b : consoleBlind E (modify (set_SQL E b)).
Proof.
intros w w0 H. destruct (storage_inv _ _ H) as (Hd & _ & Hf).
unfold modify, storage; cbn. split; [reflexivity|]. now rewrite Hd, Hf.
Qed.

Lemma blind_set_disk f : consoleBlind E (modify (set_disk E f)).
Proof.
intros w w0 H. destruct (storage_inv _ _ H) as (Hd & Hs & _).
unfold modify, storage; cbn. split; [reflexivity|]. now rewrite Hd, Hs.
Qed.

Lemma blind_bind {A B} (m : M (World E) A) (k : A -> M (World E) B) :
consoleBlind E m -> (forall a, consoleBlind E (k a)) ->
consoleBlind E (Js.bind m k).
Proof.
intros Hm Hk w w0 H. destruct (Hm w w0 H) as [Ho Hs]. unfold Js.bind.
destruct (m w0) as [[a0|e0] w0'], (m w) as [[a|e] w'];
  cbn [fst snd] in *; try discriminate.
- injection Ho as ->. now apply Hk.
- injection Ho as ->. split; [reflexivity|exact Hs].
Qed.

Lemma blind_tryCatch {A} (m : M (World E) A) (h : Error -> M (World E) A) :
consoleBlind E m -> (forall e, consoleBlind E (h e)) ->
consoleBlind E (Js.tryCatch m h).
Proof.
intros Hm Hh w w0 H. destruct (Hm w w0 H) as [Ho Hs]. unfold Js.tryCatch.
destruct (m w0) as [[a0|e0] w0'], (m w) as [[a|e] w'];
  cbn [fst snd] in *; try discriminate.
- injection Ho as ->. split; [reflexivity|exact Hs].
- injection Ho as ->. now apply Hh.
Qed.

Ltac blind :=
  repeat first
    [ apply blind_ret | apply blind_lift | apply blind_throw | apply blind_log
    | apply blind_read_db | apply blind_read_SQL | apply blind_read_disk
    | apply blind_set_db | apply blind_set_SQL | apply blind_set_disk
    | apply blind_bind | apply blind_tryCatch
    | intros [?|] | intros [] | intro ].

Lemma blind_saveDb : consoleBlind E (saveDb E).
Proof. unfold saveDb. blind. Qed.

Lemma blind_db_run sql params : consoleBlind E (db_run E sql params).
Proof. unfold db_run. blind. Qed.

Lemma blind_db_exec sql : consoleBlind E (db_exec E sql).
Proof. unfold db_exec. blind. Qed.

Lemma blind_getDb : consoleBlind E (getDb E).
Proof.
unfold getDb, initDb.
apply blind_bind; [apply blind_read_db|]. intros [d|]; [apply blind_ret|].
apply blind_bind; [apply blind_read_SQL|]. intros loaded.
apply blind_bind; [destruct loaded; blind|]. intros _.
apply blind_bind; [apply blind_log|]. intros _.
apply blind_bind.
- apply blind_tryCatch.
  + apply blind_bind; [apply blind_read_disk|]. intros [f|]; blind.
  + intros e. blind.
- intros _. apply blind_bind; [apply blind_db_run|]. intros _. apply blind_saveDb.
Qed.

Lemma blind_getAllAssessments : consoleBlind E (getAllAssessments E).
Proof.
unfold getAllAssessments.
apply blind_bind; [apply blind_getDb|]. intros _.
apply blind_tryCatch.
- apply blind_bind; [apply blind_db_exec|]. intros [|first rest]; apply blind_ret.
- intros e. blind.
Qed.

Lemma blind_insertAssessment a : consoleBlind E (insertAssessment E a).
Proof.
unfold insertAssessment.
apply blind_bind; [apply blind_getDb|]. intros _.
apply blind_tryCatch.
- apply blind_bind; [apply blind_db_run|]. intros _.
  apply blind_bind; [apply blind_saveDb|]. intros _. blind.
- intros e. blind.
Qed.

End ConsoleFrame.

(* ================================================================== *)
(** * Further properties of the CSV export *)
(* ================================================================== *)

Section CsvMore.
Import Js Db DbCount Http Csv CsvReader ChatNotions.
Local Open Scope string_scope.
Local Open Scope list_scope.
Variable E : Engine.

Lemma getDb_after_log (line : string) (w w1 : World E) d :
getDb E w = (Ok tt, w1) -> db E w1 = Some d ->
exists w1', getDb E (snd (log line w)) = (Ok tt, w1') /\ db E w1' = Some d.
Proof.
intros Hget Hd.
destruct (blind_getDb E w (snd (log line w)) eq_refl) as [Ho Hs].
rewrite Hget in Ho, Hs. cbn [fst snd] in Ho, Hs.
destruct (getDb E (snd (log line w))) as [o w1']. cbn [fst snd] in Ho, Hs.
subst o. exists w1'. split; [reflexivity|].
destruct (storage_inv E _ _ Hs) as (Hdb & _). now rewrite Hdb.
Qed.

Lemma rows_after_log (line : string) (w w1 : World E) d :
getDb E w = (Ok tt, w1) -> db E w1 = Some d ->
exists w2,
  getAllAssessments E (snd (log line w)) =
    (Ok (match exec E d SELECT_all_ORDER_BY_timestamp_DESC with
         | Ok (first :: _) =>
             map (fun row => rowObject (columns first) row []) (values first)
         | _ => []
         end), w2).
Proof.
intros Hget Hd.
destruct (getDb_after_log line w w1 d Hget Hd) as (w1' & Hget' & Hd').
exact (select_after_open E _ w1' d Hget' Hd').
Qed.

(** What a GET answers once the database opens. *)
Lemma handler_get_rows (w w1 : World E) d :
getDb E w = (Ok tt, w1) -> db E w1 = Some d ->
exists w',
  Csv.handler E "GET" w =
    (Ok {| status := 200;
           responseHeaders := corsHeaders ++ downloadHeaders;
           body := Text (csvContent
                     (match exec E d SELECT_all_ORDER_BY_timestamp_DESC with
                      | Ok (first :: _) =>
                          map (fun row => rowObject (columns first) row [])
                              (values first)
                      | _ => []
                      end)) |}, w').
Proof.
intros Hget Hd. unfold Csv.handler. cbn [String.eqb Ascii.eqb Bool.eqb negb].
unfold Js.tryCatch. unfold Js.bind at 1.
destruct (rows_after_log "[CSV Export] Starting export..." w w1 d Hget Hd)
  as (w2 & Hrows).
change (log "[CSV Export] Starting export..." w)
  with (Ok tt, snd (log (E := E) "[CSV Export] Starting export..." w)).
cbv iota beta. unfold Js.bind at 1. rewrite Hrows.
eexists. reflexivity.
Qed.

(** X12: the export handler answers OPTIONS with 200 and an empty body
    and every method other than OPTIONS and GET with 405, in both cases
    without opening the database or logging anything; whatever the
    method and whatever the database does, it never throws. *)
Theorem X12_export_method_gate (method : string) (w : World E) :
(method = "OPTIONS" ->
   Csv.handler E method w =
     (Ok {| status := 200; responseHeaders := corsHeaders; body := NoBody |}, w))
/\ (method <> "OPTIONS" -> method <> "GET" ->
    Csv.handler E method w =
      (Ok {| status := 405; responseHeaders := corsHeaders;
             body := Json (VObj [("error", VStr "Method not allowed. Use GET.")]) |},
       w))
/\ (exists resp w', Csv.handler E method w = (Ok resp, w')).
Proof.
split; [|split].
- intros ->. reflexivity.
- intros Ho Hg. unfold Csv.handler.
  apply String.eqb_neq in Ho, Hg. now rewrite Ho, Hg.
- unfold Csv.handler.
  destruct (String.eqb method "OPTIONS") eqn:Ho; [eexists _, _; reflexivity|].
  destruct (String.eqb method "GET") eqn:Hg; [|eexists _, _; reflexivity].
  apply String.eqb_eq in Hg. subst method.
  destruct (handler_get E w) as (resp & w' & Hh & _).
  exists resp, w'. unfold Csv.handler in Hh.
  cbn [String.eqb Ascii.eqb Bool.eqb negb] in Hh. exact Hh.
Qed.

(** X13: when the database opens but the SELECT raises or returns no
    result set, a GET still answers 200, and the body is exactly the
    header line: a failed query is exported as an empty table. *)
Theorem X13_failed_query_exports_header_only (w w1 : World E) (d : Database E) :
getDb E w = (Ok tt, w1) -> db E w1 = Some d ->
(exec E d SELECT_all_ORDER_BY_timestamp_DESC = Ok []
 \/ exists e, exec E d SELECT_all_ORDER_BY_timestamp_DESC = Throw e) ->
exists w',
  Csv.handler E "GET" w =
    (Ok {| status := 200;
           responseHeaders := corsHeaders ++ downloadHeaders;
           body := Text "session_id,timestamp,numeracy_score,reading_score,computer_score,logic_score,communication_score,mindset_score,readiness_level,readiness_title" |},
     w').
Proof.
intros Hget Hd Hexec.
destruct (handler_get_rows w w1 d Hget Hd) as (w' & Hh).
exists w'. rewrite Hh.
destruct Hexec as [-> | (e & ->)]; reflexivity.
Qed.

(** X14: a text written by [escapeCSVField] reads back as exactly that
    text, whatever characters it contains; hence two different texts
    are never written alike.  [null] and [undefined] are written as the
    empty field. *)
Theorem X14_escaped_field_reads_back (t : string) :
readCsv (escapeCSVField (Some (SqlText t))) = Some [[t]]
/\ (forall u, escapeCSVField (Some (SqlText t)) = escapeCSVField (Some (SqlText u))
              -> t = u)
/\ escapeCSVField None = "" /\ escapeCSVField (Some SqlNull) = "".
Proof.
assert (Hread : forall x, readCsv (escapeCSVField (Some (SqlText x))) = Some [[x]]).
{ intros x. unfold readCsv. fold (written x).
  rewrite <- (append_empty_r (written x)).
  destruct (scan_written x [] [] "") as (st & Hst & Hscan).
  rewrite Hscan. now rewrite scan_end. }
split; [apply Hread|]. split; [|split; reflexivity].
intros u Heq. pose proof (Hread t) as Ht. rewrite Heq, Hread in Ht.
now injection Ht.
Qed.






Lemma typedCells_exportable (cells : list SqlValue) :
typedCells cells ->
exportable (rowObject headers cells []) /\ stored (rowObject headers cells []) = cells.
Proof.
intros (sid & ts & n & r & c & l & k & m & lvl & ttl & -> & Hsid & Hts).
split; [|reflexivity].
exists sid, ts, n, r, c, l, k, m, lvl, ttl. split; [reflexivity|]. auto.
Qed.

Lemma readBack_exportable (rows : list Row) :
Forall exportable rows -> readBack (csvContent rows) = Some (map stored rows).
Proof.
intros Hrows. unfold readBack. rewrite readCsv_csvContent.
- destruct (list_eq_dec string_dec headers headers); [|congruence].
  now apply decodeRecords_exportable.
- eapply Forall_impl; [|exact Hrows]. apply exportable_firstNine_plain.
Qed.

(** X16: from the database to the file and back: when the database
    opens and the export query returns the ten exported columns with
    rows of non-null, well-typed cells (identifier and timestamp free of
    CSV delimiters), a GET answers 200 with a text that reads back as
    exactly the rows the query returned, in the same order. *)
Theorem X16_export_reads_back_as_the_query_result
  (w w1 : World E) (d : Database E) (cells : list (list SqlValue))
  (others : list ResultSet) :
getDb E w = (Ok tt, w1) -> db E w1 = Some d ->
exec E d SELECT_all_ORDER_BY_timestamp_DESC
  = Ok ({| columns := headers; values := cells |} :: others) ->
Forall typedCells cells ->
exists content w',
  Csv.handler E "GET" w =
    (Ok {| status := 200; responseHeaders := corsHeaders ++ downloadHeaders;
           body := Text content |}, w')
  /\ readBack content = Some cells.
Proof.
intros Hget Hd Hexec Hcells.
destruct (handler_get_rows w w1 d Hget Hd) as (w' & Hh).
rewrite Hexec in Hh. cbn [columns values] in Hh.
eexists _, w'. split; [exact Hh|].
rewrite readBack_exportable.
- rewrite map_map. f_equal.
  rewrite <- (map_id cells) at 2. apply map_ext_in.
  intros row Hin. rewrite Forall_forall in Hcells.
  now destruct (typedCells_exportable row (Hcells row Hin)).
- apply Forall_map. eapply Forall_impl; [|exact Hcells].
  intros row Hrow. now destruct (typedCells_exportable row Hrow).
Qed.

End CsvMore.

Section CsvMoreExamples.
Import Js Db DbCount Http Csv CsvReader ChatNotions.
Local Open Scope string_scope.
Local Open Scope list_scope.

Lemma X13_failed_query_witness :
exists w',
  Csv.handler
    (FaultyEngine.engine
       {| FaultyEngine.initFails := false; FaultyEngine.createFails := false;
          FaultyEngine.insertFails := false; FaultyEngine.selectFails := true;
          FaultyEngine.exportFails := false; FaultyEngine.writeFails := false |})
    "GET" (FaultyEngine.cold _)
  = (Ok {| status := 200;
           responseHeaders := corsHeaders ++ downloadHeaders;
           body := Text "session_id,timestamp,numeracy_score,reading_score,computer_score,logic_score,communication_score,mindset_score,readiness_level,readiness_title" |},
     w').
Proof.
apply (X13_failed_query_exports_header_only
         (FaultyEngine.engine
            {| FaultyEngine.initFails := false; FaultyEngine.createFails := false;
               FaultyEngine.insertFails := false; FaultyEngine.selectFails := true;
               FaultyEngine.exportFails := false; FaultyEngine.writeFails := false |})
         (FaultyEngine.cold _) (snd (getDb _ (FaultyEngine.cold _))) []).
- reflexivity.
- reflexivity.
- right. eexists. reflexivity.
Defined.


Lemma X16_export_reads_back_witness :
exists content w',
  Csv.handler (FaultyEngine.engine FaultyEngine.noFault) "GET"
    (snd (insertAssessment (FaultyEngine.engine FaultyEngine.noFault)
            DemoEngine.sampleAssessment (FaultyEngine.cold _)))
  = (Ok {| status := 200; responseHeaders := corsHeaders ++ downloadHeaders;
           body := Text content |}, w')
  /\ readBack content
     = Some [DemoEngine.selectedRow (insertParams DemoEngine.sampleAssessment)].
Proof.
apply (X16_export_reads_back_as_the_query_result
         (FaultyEngine.engine FaultyEngine.noFault)
         (snd (insertAssessment (FaultyEngine.engine FaultyEngine.noFault)
                 DemoEngine.sampleAssessment (FaultyEngine.cold _)))
         (snd (insertAssessment (FaultyEngine.engine FaultyEngine.noFault)
                 DemoEngine.sampleAssessment (FaultyEngine.cold _)))
         [insertParams DemoEngine.sampleAssessment]
         [DemoEngine.selectedRow (insertParams DemoEngine.sampleAssessment)] []).
- reflexivity.
- reflexivity.
- reflexivity.
- constructor; [|constructor].
  unfold typedCells. do 10 eexists. split; [reflexivity|]. split; reflexivity.
Defined.

End CsvMoreExamples.

(* ================================================================== *)
(** * The pattern reporter: rates, averages, bars and level groups *)
(* ================================================================== *)

Section QuotientFacts.
Local Open Scope Z_scope.

Lemma pct_bounds (a t : Z) :
0 <= a <= t -> 0 < t ->
(0 <= inject_Z a / inject_Z t * inject_Z 100
 /\ inject_Z a / inject_Z t * inject_Z 100 <= inject_Z 100)%Q.
Proof.
intros Ha Ht. destruct t as [|p|p]; try lia.
unfold Qle, Qdiv, Qmult, Qinv, inject_Z; simpl. split; nia.
Qed.

Lemma pct_positive (a t : Z) :
0 < a -> 0 < t -> (0 < inject_Z a / inject_Z t * inject_Z 100)%Q.
Proof.
intros Ha Ht. destruct t as [|p|p]; try lia.
unfold Qlt, Qdiv, Qmult, Qinv, inject_Z; simpl. nia.
Qed.

Lemma pct_lt (a b t : Z) :
0 < t ->
((inject_Z a / inject_Z t * inject_Z 100
  < inject_Z b / inject_Z t * inject_Z 100)%Q <-> a < b).
Proof.
intros Ht. destruct t as [|p|p]; try lia.
unfold Qlt, Qdiv, Qmult, Qinv, inject_Z; simpl. split; nia.
Qed.

Lemma avg_bounds (s n m : Z) :
0 < n -> 0 < m -> 0 <= s <= m * n ->
(0 <= inject_Z s / inject_Z n / inject_Z m * inject_Z 100
 /\ inject_Z s / inject_Z n / inject_Z m * inject_Z 100 <= inject_Z 100)%Q.
Proof.
intros Hn Hm Hs. destruct n as [|n|n]; try lia. destruct m as [|m|m]; try lia.
unfold Qle, Qdiv, Qmult, Qinv, inject_Z; simpl. split; nia.
Qed.

Lemma avg_high (s n m : Z) :
0 < n -> 0 < m -> 101 * m * n <= 100 * s ->
(inject_Z 101 <= inject_Z s / inject_Z n / inject_Z m * inject_Z 100)%Q.
Proof.
intros Hn Hm Hs. destruct n as [|n|n]; try lia. destruct m as [|m|m]; try lia.
unfold Qle, Qdiv, Qmult, Qinv, inject_Z; simpl. nia.
Qed.

Lemma half_round_high (q : Q) :
(inject_Z 101 <= q)%Q -> 51 <= Qfloor (q / inject_Z 2 + (1 # 2)).
Proof.
intros H. rewrite <- (Qfloor_Z 51) at 1. apply Qfloor_resp_le.
unfold Qdiv. change (/ inject_Z 2)%Q with (1 # 2)%Q.
change (inject_Z 51) with (51 # 1)%Q.
change (inject_Z 101) with (101 # 1)%Q in H. lra.
Qed.

Lemma half_round (q : Q) :
(0 <= q)%Q -> (q <= inject_Z 100)%Q ->
0 <= Qfloor (q / inject_Z 2 + (1 # 2)) <= 50.
Proof.
intros H0 H1. split.
- change 0 with (Qfloor 0). apply Qfloor_resp_le.
  unfold Qdiv. change (/ inject_Z 2)%Q with (1 # 2)%Q. lra.
- assert (H : (inject_Z (Qfloor (q / inject_Z 2 + (1 # 2))) < inject_Z 51)%Q).
  { eapply Qle_lt_trans; [apply Qfloor_le|].
    unfold Qdiv. change (/ inject_Z 2)%Q with (1 # 2)%Q.
    change (inject_Z 51) with (51 # 1)%Q.
    change (inject_Z 100) with (100 # 1)%Q in H1. lra. }
  rewrite <- Zlt_Qlt in H. lia.
Qed.

Lemma sum_bounds (m : Z) (vs : list Z) :
Forall (fun v => 0 <= v <= m) vs ->
0 <= fold_right Z.add 0 vs <= m * Z.of_nat (length vs).
Proof.
induction 1 as [|v vs Hv _ IH]; simpl fold_right; [simpl; lia|].
change (length (v :: vs)) with (S (length vs)). lia.
Qed.

End QuotientFacts.

Section ReportFacts.
Import Verify.
Local Open Scope string_scope.
Local Open Scope list_scope.
Local Open Scope Z_scope.

Lemma weakCount_bounds (c : Column) (t : Z) (table : list Stored) :
0 <= selectCountWeak c t table <= selectCount table.
Proof.
unfold selectCountWeak, selectCount. split; [lia|].
apply inj_le. induction table as [|row table IH]; simpl; [lia|].
destruct (match cell c row with Some v => v <=? t | None => false end);
  simpl; lia.
Qed.

Lemma selectCount_positive (table : list Stored) :
table <> [] -> 0 < selectCount table.
Proof. unfold selectCount. destruct table; [congruence|simpl; lia]. Qed.

Lemma weakPct_of_count (table : list Stored) (s : PillarStat) :
table <> [] -> In s (pillarStats table) ->
weakPct s
= Fin (inject_Z (weakCount s) / inject_Z (selectCount table) * inject_Z 100)
/\ 0 <= weakCount s <= selectCount table.
Proof.
intros Hne Hin. unfold pillarStats in Hin. apply in_map_iff in Hin.
destruct Hin as (p & <- & _). unfold pillarStat; cbn [weakPct weakCount].
split; [|apply weakCount_bounds].
unfold div, ofZ. rewrite isZero_inject.
pose proof (selectCount_positive table Hne) as Hpos.
destruct (selectCount table =? 0) eqn:E; [apply Z.eqb_eq in E; lia|].
reflexivity.
Qed.

Lemma weakCount_empty (s : PillarStat) :
In s (pillarStats []) -> weakCount s = 0.
Proof.
intros Hin. unfold pillarStats in Hin. apply in_map_iff in Hin.
now destruct Hin as (p & <- & _).
Qed.

Lemma max_positive (p : Pillar) : In p PILLARS -> 0 < max p.
Proof.
unfold PILLARS. simpl.
intros H; repeat (destruct H as [<-|H]; [simpl; lia|]); contradiction.
Qed.

Lemma avgScore_of_pillar (table : list Stored) (p : Pillar) :
avgScore (pillarStat (selectCount table) table p) = None
<-> nonNull (column p) table = [].
Proof.
unfold pillarStat; cbn [avgScore]. unfold selectAvg.
destruct (nonNull (column p) table); split; congruence.
Qed.


Lemma avgPct_bounds (table : list Stored) (s : PillarStat) :
onScale table -> In s (pillarStats table) ->
exists q, avgPct s = Fin q /\ (0 <= q)%Q /\ (q <= inject_Z 100)%Q.
Proof.
intros Hscale Hin. unfold pillarStats in Hin. apply in_map_iff in Hin.
destruct Hin as (p & <- & Hp). unfold pillarStat; cbn [avgPct].
pose proof (max_positive p Hp) as Hmax.
unfold onScale in Hscale. rewrite Forall_forall in Hscale.
pose proof (sum_bounds _ _ (Hscale p Hp)) as Hsum.
unfold selectAvg. destruct (nonNull (column p) table) as [|v vs] eqn:Hvs;
  cbn [toNumber]; unfold div, ofZ; rewrite isZero_inject;
  (destruct (max p =? 0) eqn:E; [apply Z.eqb_eq in E; lia|]); cbn [mul].
- eexists. split; [reflexivity|].
  unfold Qle, Qdiv, Qmult, Qinv, inject_Z. destruct (max p); simpl; lia.
- eexists. split; [reflexivity|].
  apply avg_bounds; [simpl length; lia|exact Hmax|exact Hsum].
Qed.




(** ** The printing loops *)

Lemma printStats_throws (stats : list PillarStat) :
forall index,
  (exists s, In s stats /\ avgScore s = None) ->
  snd (printStats index stats)
  = Some (Js.TypeError "Cannot read properties of null (reading 'toFixed')").
Proof.
induction stats as [|s stats IH]; intros index (x & Hin & Hx); [contradiction|].
cbn [printStats]. destruct (avgScore s) as [avg|] eqn:Hs; cbn [toFixed].
- destruct Hin as [->|Hin]; [congruence|].
  specialize (IH (S index) (ex_intro _ x (conj Hin Hx))).
  destruct (printStats (S index) stats) as [more result]. exact IH.
- reflexivity.
Qed.

Lemma printStats_plain (stats : list PillarStat) :
forall index,
  bars (fst (printStats index stats)) = []
  /\ insights (fst (printStats index stats)) = [].
Proof.
induction stats as [|s stats IH]; intros index; [split; reflexivity|].
cbn [printStats]. destruct (toFixed (avgScore s)) as [avg|e];
  [|split; reflexivity].
destruct (IH (S index)) as [Hb Hi].
destruct (printStats (S index) stats) as [more result].
cbn [fst] in *. unfold bars, insights in *.
cbn [app flat_map filter]. now rewrite Hb, Hi.
Qed.

Lemma levelLines_plain (total : Z) (table : list Stored) :
bars (levelLines total table) = [] /\ insights (levelLines total table) = [].
Proof.
unfold levelLines. induction (selectGroups table) as [|[[l t] n] groups [Hb Hi]];
  [split; reflexivity|].
unfold bars, insights in *. cbn [map flat_map filter app]. now split.
Qed.

Lemma bar_of_finite (q : Q) :
(0 <= q)%Q -> (q <= inject_Z 100)%Q ->
exists filled rest,
  repeatCount (round (div (Fin q) (ofZ 2))) = Js.Ok filled
  /\ repeatCount (sub (ofZ 50) (round (div (Fin q) (ofZ 2)))) = Js.Ok rest
  /\ 0 <= filled <= 50 /\ filled + rest = 50.
Proof.
intros H0 H1. pose proof (half_round q H0 H1) as Hk.
unfold div, ofZ. rewrite isZero_inject. cbn [Z.eqb round sub repeatCount].
set (k := Qfloor (q / inject_Z 2 + (1 # 2))) in *.
exists k, (50 - k). rewrite Qfloor_Z.
unfold Qminus. rewrite <- inject_Z_opp, <- inject_Z_plus, Qfloor_Z.
destruct (k <? 0) eqn:E1; [apply Z.ltb_lt in E1; lia|].
destruct (50 + - k <? 0) eqn:E2; [apply Z.ltb_lt in E2; lia|].
split; [reflexivity|]. split; [f_equal; lia|]. split; lia.
Qed.

Lemma printBars_ok (stats : list PillarStat) :
Forall (fun s => exists q, avgPct s = Fin q /\ (0 <= q)%Q /\ (q <= inject_Z 100)%Q)
       stats ->
snd (printBars stats) = None
/\ map fst (bars (fst (printBars stats))) = map s_name stats
/\ Forall (fun b => 0 <= snd b <= 50) (bars (fst (printBars stats)))
/\ insights (fst (printBars stats)) = [].
Proof.
induction 1 as [|s stats (q & Hq & H0 & H1) _ IH]; [repeat split; constructor|].
cbn [printBars]. rewrite Hq.
destruct (bar_of_finite q H0 H1) as (filled & rest & -> & -> & Hf & _).
destruct IH as (Hn & Hnames & Hlen & Hi).
destruct (printBars stats) as [more result]. cbn [fst snd] in *.
split; [exact Hn|]. cbn [bars flat_map app map fst insights filter].
split; [now f_equal|]. split; [|exact Hi].
constructor; [exact Hf|exact Hlen].
Qed.

Lemma printBars_plain (stats : list PillarStat) :
insights (fst (printBars stats)) = [].
Proof.
induction stats as [|s stats IH]; [reflexivity|]. cbn [printBars].
destruct (repeatCount (round (div (avgPct s) (ofZ 2)))) as [filled|e];
  [|reflexivity].
destruct (repeatCount (sub (ofZ 50) (round (div (avgPct s) (ofZ 2)))))
  as [rest|e]; [|reflexivity].
destruct (printBars stats) as [more result]. exact IH.
Qed.

Lemma bar_of_high (q : Q) :
(inject_Z 101 <= q)%Q ->
exists e, repeatCount (sub (ofZ 50) (round (div (Fin q) (ofZ 2)))) = Js.Throw e.
Proof.
intros H. pose proof (half_round_high q H) as Hk.
unfold div, ofZ. rewrite isZero_inject. cbn [Z.eqb round sub repeatCount].
set (k := Qfloor (q / inject_Z 2 + (1 # 2))) in *.
unfold Qminus. rewrite <- inject_Z_opp, <- inject_Z_plus, Qfloor_Z.
destruct (50 + - k <? 0) eqn:E; [eauto|apply Z.ltb_ge in E; lia].
Qed.

Lemma printBars_throws (stats : list PillarStat) :
(exists s q, In s stats /\ avgPct s = Fin q /\ (inject_Z 101 <= q)%Q) ->
exists e, snd (printBars stats) = Some e.
Proof.
induction stats as [|s stats IH]; intros (x & q & Hin & Hq & Hhigh);
  [contradiction|].
cbn [printBars].
destruct (repeatCount (round (div (avgPct s) (ofZ 2)))) as [filled|e] eqn:E1;
  [|eexists; reflexivity].
destruct (repeatCount (sub (ofZ 50) (round (div (avgPct s) (ofZ 2)))))
  as [rest|e] eqn:E2; [|eexists; reflexivity].
destruct Hin as [->|Hin].
- rewrite Hq in E2. destruct (bar_of_high q Hhigh) as (e & He). congruence.
- destruct (IH (ex_intro _ x (ex_intro _ q (conj Hin (conj Hq Hhigh)))))
    as (e & He).
  destruct (printBars stats) as [more result]. eauto.
Qed.

Lemma avgPct_high (table : list Stored) (p : Pillar) :
In p PILLARS -> nonNull (column p) table <> [] ->
101 * max p * Z.of_nat (length (nonNull (column p) table))
  <= 100 * fold_right Z.add 0 (nonNull (column p) table) ->
exists q, avgPct (pillarStat (selectCount table) table p) = Fin q
          /\ (inject_Z 101 <= q)%Q.
Proof.
intros Hp Hne Hhigh. unfold pillarStat; cbn [avgPct].
pose proof (max_positive p Hp) as Hmax.
unfold selectAvg. destruct (nonNull (column p) table) as [|v vs]; [congruence|].
cbn [toNumber]. unfold div, ofZ. rewrite isZero_inject.
destruct (max p =? 0) eqn:E; [apply Z.eqb_eq in E; lia|]. cbn [mul].
eexists. split; [reflexivity|].
apply avg_high; [simpl length; lia|exact Hmax|exact Hhigh].
Qed.

Lemma rankedStats_perm (table : list Stored) :
Permutation (pillarStats table) (rankedStats table).
Proof. apply sort_perm. Qed.

Lemma rankedStats_top_two (table : list Stored) :
exists primary secondary others,
  rankedStats table = primary :: secondary :: others.
Proof.
pose proof (Permutation_length (rankedStats_perm table)) as Hlen.
change (length (pillarStats table)) with 6%nat in Hlen.
destruct (rankedStats table) as [|a [|b rest]]; try discriminate.
now exists a, b, rest.
Qed.

(** ** The readiness groups *)

Lemma sameLevel_eq (a b : option Z) : sameLevel a b = true <-> a = b.
Proof.
destruct a, b; simpl; try (split; congruence).
rewrite Z.eqb_eq. split; congruence.
Qed.

Lemma sameLevel_refl (a : option Z) : sameLevel a a = true.
Proof. now apply sameLevel_eq. Qed.

Lemma levelBefore_trans (a b c : option Z) :
levelBefore a b = true -> levelBefore b c = true -> levelBefore a c = true.
Proof.
destruct a, b, c; simpl; try congruence.
rewrite !Z.ltb_lt. lia.
Qed.

Lemma levelBefore_total (a b : option Z) :
sameLevel a b = false -> levelBefore b a = false -> levelBefore a b = true.
Proof.
destruct a, b; simpl; try congruence.
rewrite Z.eqb_neq, Z.ltb_ge, Z.ltb_lt. lia.
Qed.

Lemma levelBefore_differs (a b : option Z) :
levelBefore a b = true -> sameLevel b a = false.
Proof.
destruct a, b; simpl; try congruence.
rewrite Z.ltb_lt, Z.eqb_neq. lia.
Qed.

Local Abbreviation ascending :=
  (fun g h : Group => levelBefore (groupLevel g) (groupLevel h) = true).

Lemma addToGroups_levels (Q : option Z -> Prop) (row : Stored) (groups : list Group) :
Q (readiness_level row) ->
Forall (fun g => Q (groupLevel g)) groups ->
Forall (fun g => Q (groupLevel g)) (addToGroups row groups).
Proof.
intros Hrow. induction 1 as [|[[lvl ttl] n] rest Hg Hrest IH]; cbn [addToGroups].
- now repeat constructor.
- destruct (sameLevel lvl (readiness_level row)).
  + constructor; assumption.
  + destruct (levelBefore (readiness_level row) lvl).
    * constructor; [exact Hrow|]. constructor; assumption.
    * constructor; assumption.
Qed.

Lemma addToGroups_sorted (row : Stored) (groups : list Group) :
StronglySorted ascending groups -> StronglySorted ascending (addToGroups row groups).
Proof.
induction 1 as [|[[lvl ttl] n] rest Hs IH Hall]; cbn [addToGroups].
- repeat constructor.
- destruct (sameLevel lvl (readiness_level row)) eqn:Hsame.
  + constructor; [exact Hs|exact Hall].
  + destruct (levelBefore (readiness_level row) lvl) eqn:Hbefore.
    * constructor; [now constructor|].
      constructor; [exact Hbefore|].
      eapply Forall_impl; [|exact Hall]. intros g Hg. cbn in Hg |- *.
      eapply levelBefore_trans; [exact Hbefore|exact Hg].
    * constructor; [exact IH|].
      apply (addToGroups_levels (fun l => levelBefore lvl l = true));
        [|exact Hall].
      now apply levelBefore_total.
Qed.

Lemma listed_absent (level : option Z) (groups : list Group) :
Forall (fun g => levelBefore level (groupLevel g) = true) groups ->
listed level groups = 0.
Proof.
unfold listed. induction 1 as [|g rest Hg _ IH]; [reflexivity|].
cbn [find]. now rewrite (levelBefore_differs _ _ Hg).
Qed.

Lemma listed_cons (level : option Z) (g : Group) (groups : list Group) :
listed level (g :: groups)
= if sameLevel (groupLevel g) level then groupCount g else listed level groups.
Proof. unfold listed. cbn [find]. now destruct (sameLevel (groupLevel g) level). Qed.

Lemma listed_addToGroups (level : option Z) (row : Stored) (groups : list Group) :
StronglySorted ascending groups ->
listed level (addToGroups row groups)
= listed level groups
  + (if sameLevel (readiness_level row) level then 1 else 0).
Proof.
induction 1 as [|[[lvl ttl] n] rest Hs IH Hall]; cbn [addToGroups].
- rewrite listed_cons. cbn [groupLevel groupCount fst snd].
  now destruct (sameLevel (readiness_level row) level).
- destruct (sameLevel lvl (readiness_level row)) eqn:Hsame.
  + apply sameLevel_eq in Hsame. subst lvl.
    rewrite !listed_cons. cbn [groupLevel groupCount fst snd].
    destruct (sameLevel (readiness_level row) level); lia.
  + destruct (levelBefore (readiness_level row) lvl) eqn:Hbefore.
    * rewrite (listed_cons level (readiness_level row, readiness_title row, 1)).
      cbn [groupLevel groupCount fst snd].
      destruct (sameLevel (readiness_level row) level) eqn:Hl; [|lia].
      apply sameLevel_eq in Hl. subst level.
      rewrite listed_absent; [reflexivity|].
      constructor; [exact Hbefore|].
      eapply Forall_impl; [|exact Hall]. intros g Hg. cbn in Hg |- *.
      eapply levelBefore_trans; [exact Hbefore|exact Hg].
    * rewrite !listed_cons. cbn [groupLevel groupCount fst snd].
      destruct (sameLevel lvl level) eqn:Hl; [|exact IH].
      apply sameLevel_eq in Hl. subst level.
      destruct (sameLevel (readiness_level row) lvl) eqn:Hr; [|lia].
      apply sameLevel_eq in Hr. rewrite Hr, sameLevel_refl in Hsame. discriminate.
Qed.

Lemma addToGroups_counts (row : Stored) (groups : list Group) :
Forall (fun g => 1 <= groupCount g) groups ->
Forall (fun g => 1 <= groupCount g) (addToGroups row groups)
/\ fold_right Z.add 0 (map groupCount (addToGroups row groups))
   = fold_right Z.add 0 (map groupCount groups) + 1.
Proof.
induction 1 as [|[[lvl ttl] n] rest Hg Hrest [IH1 IH2]]; cbn [addToGroups].
- split; [repeat constructor; cbn; lia|reflexivity].
- cbn [groupCount snd] in Hg.
  destruct (sameLevel lvl (readiness_level row)).
  + split; [constructor; [cbn; lia|exact Hrest]|].
    cbn [map fold_right groupCount snd]. lia.
  + destruct (levelBefore (readiness_level row) lvl).
    * split; [constructor; [cbn; lia|now constructor]|].
      cbn [map fold_right groupCount snd]. lia.
    * split; [now constructor|].
      cbn [map fold_right groupCount snd] in *. lia.
Qed.

Lemma rowsAt_cons (level : option Z) (row : Stored) (table : list Stored) :
rowsAt level (row :: table)
= (if sameLevel (readiness_level row) level then 1 else 0) + rowsAt level table.
Proof.
unfold rowsAt. cbn [filter].
destruct (sameLevel (readiness_level row) level); [|lia].
cbn [length]. lia.
Qed.

Lemma selectGroups_from (table : list Stored) :
forall groups,
  StronglySorted ascending groups ->
  Forall (fun g => 1 <= groupCount g) groups ->
  let result := fold_left (fun gs row => addToGroups row gs) table groups in
  StronglySorted ascending result
  /\ (forall level, listed level result = listed level groups + rowsAt level table)
  /\ Forall (fun g => 1 <= groupCount g) result
  /\ fold_right Z.add 0 (map groupCount result)
     = fold_right Z.add 0 (map groupCount groups) + selectCount table.
Proof.
induction table as [|row table IH]; intros groups Hs Hc; cbn [fold_left].
- split; [exact Hs|]. split; [intros; unfold rowsAt; simpl; lia|].
  split; [exact Hc|]. unfold selectCount; simpl; lia.
- destruct (addToGroups_counts row groups Hc) as [Hc' Hsum'].
  destruct (IH (addToGroups row groups) (addToGroups_sorted row groups Hs) Hc')
    as (H1 & H2 & H3 & H4).
  split; [exact H1|]. split; [|split; [exact H3|]].
  + intros level. rewrite H2, listed_addToGroups, rowsAt_cons by exact Hs. lia.
  + rewrite H4, Hsum'. unfold selectCount. cbn [length]. lia.
Qed.

Lemma count_le_sum (groups : list Group) (g : Group) :
Forall (fun g => 1 <= groupCount g) groups -> In g groups ->
groupCount g <= fold_right Z.add 0 (map groupCount groups).
Proof.
induction 1 as [|h rest Hh Hrest IH]; intros Hin; [contradiction|].
cbn [map fold_right].
assert (0 <= fold_right Z.add 0 (map groupCount rest)).
{ clear -Hrest. induction Hrest; cbn [map fold_right]; lia. }
destruct Hin as [->|Hin]; [lia|]. specialize (IH Hin). lia.
Qed.

Lemma run_completes (table : list Stored) :
scored table -> onScale table -> snd (analyzePatterns table) = None.
Proof.
intros Hscored Hscale.
assert (Hnonnull : Forall (fun s => avgScore s <> None) (rankedStats table)).
{ eapply Permutation_Forall; [apply rankedStats_perm|].
  unfold pillarStats. apply Forall_map.
  eapply Forall_impl; [|exact Hscored]. intros p Hp Hnone.
  now apply avgScore_of_pillar in Hnone. }
assert (Hbars : Forall (fun s => exists q, avgPct s = Fin q /\ (0 <= q)%Q
                                           /\ (q <= inject_Z 100)%Q)
                       (sort byAvgPctAsc (rankedStats table))).
{ eapply Permutation_Forall; [apply sort_perm|].
  eapply Permutation_Forall; [apply rankedStats_perm|].
  apply Forall_forall. intros s Hin. exact (avgPct_bounds table s Hscale Hin). }
destruct (printStats_headings (rankedStats table) 0%nat Hnonnull) as [_ Hprint].
destruct (printBars_ok _ Hbars) as (Hbn & _).
destruct (rankedStats_top_two table) as (primary & secondary & others & Hranked).
assert (Hn0 : nth_error (rankedStats table) 0 = Some primary)
  by now rewrite Hranked.
assert (Hn1 : nth_error (rankedStats table) 1 = Some secondary)
  by now rewrite Hranked.
unfold analyzePatterns. cbv zeta.
destruct (printStats 0 (rankedStats table)) as [printed result].
cbn [snd] in Hprint. subst result. rewrite Hn0, Hn1.
destruct (printBars (sort byAvgPctAsc (rankedStats table))) as [barLines r].
exact Hbn.
Qed.

(** X17: the number of struggling students of a pillar lies between 0
    and the total; on a table with at least one row every weakness rate
    is a finite percentage between 0 and 100; and in the ranked array
    the counts of struggling students never increase, on every table
    (the empty one included, where the rates are [NaN]). *)
Theorem X17_weak_counts_and_rates (table : list Stored) :
Forall (fun s => 0 <= weakCount s <= selectCount table) (pillarStats table)
/\ (table <> [] ->
    Forall (fun s => exists q, weakPct s = Fin q /\ (0 <= q)%Q /\ (q <= inject_Z 100)%Q)
           (pillarStats table))
/\ (forall a b, precedes (rankedStats table) a b -> weakCount b <= weakCount a).
Proof.
split; [|split].
- unfold pillarStats. apply Forall_map, Forall_forall. intros p _.
  apply weakCount_bounds.
- intros Hne. apply Forall_forall. intros s Hin.
  destruct (weakPct_of_count table s Hne Hin) as [Hpct Hcount].
  eexists. split; [exact Hpct|].
  apply pct_bounds; [exact Hcount|now apply selectCount_positive].
- intros a b Hprec.
  destruct (precedes_In _ _ _ Hprec) as [Ha Hb].
  pose proof (Permutation_sym (rankedStats_perm table)) as Hperm.
  apply (Permutation_in _ Hperm) in Ha. apply (Permutation_in _ Hperm) in Hb.
  destruct table as [|row table].
  + rewrite (weakCount_empty a Ha), (weakCount_empty b Hb). lia.
  + assert (Hne : row :: table <> []) by discriminate.
    destruct (weakPct_of_count _ a Hne Ha) as [Hpa _].
    destruct (weakPct_of_count _ b Hne Hb) as [Hpb _].
    pose proof (sorted_precedes byWeakPctDesc _ a b
                  (rankedStats_sorted (row :: table)) Hprec) as Hnot.
    destruct (Z_lt_le_dec (weakCount a) (weakCount b)) as [Hlt|Hle]; [|exact Hle].
    apply (pct_lt _ _ _ (selectCount_positive _ Hne)) in Hlt.
    apply (before_finite a b _ _ Hpa Hpb) in Hlt. congruence.
Qed.

(** X18: whenever some pillar column holds no score at all (every row
    NULL there, or no row), the run ends with the TypeError of calling
    [toFixed] on [null] while the pillar statistics are printed: no key
    insight and no bar is ever printed. *)
Theorem X18_missing_average_ends_the_run (table : list Stored) :
(exists p, In p PILLARS /\ nonNull (column p) table = []) ->
snd (analyzePatterns table)
= Some (Js.TypeError "Cannot read properties of null (reading 'toFixed')")
/\ insights (fst (analyzePatterns table)) = []
/\ bars (fst (analyzePatterns table)) = [].
Proof.
intros (p & Hp & Hnull).
assert (Hthrow : snd (printStats 0 (rankedStats table))
                 = Some (Js.TypeError "Cannot read properties of null (reading 'toFixed')")).
{ apply printStats_throws.
  exists (pillarStat (selectCount table) table p). split.
  - apply (Permutation_in _ (rankedStats_perm table)).
    unfold pillarStats. now apply in_map.
  - now apply avgScore_of_pillar. }
destruct (printStats_plain (rankedStats table) 0) as [Hb Hi].
destruct (levelLines_plain (selectCount table) table) as [Hlb Hli].
unfold analyzePatterns. cbv zeta.
destruct (printStats 0 (rankedStats table)) as [printed result].
cbn [fst snd] in *. subst result. cbn [fst snd].
split; [reflexivity|].
unfold insights, bars in *.
rewrite filter_app, flat_map_app. cbn [filter flat_map app].
now rewrite Hb, Hi, Hlb, Hli.
Qed.


(** X20: the readiness distribution lists every level of the table
    exactly once, in strictly increasing order (NULL first), with the
    number of rows at that level, which is at least 1; the counts add
    up to the total, so every percentage printed for a level is above 0
    and at most 100. *)
Theorem X20_groups_count_each_level_once (table : list Stored) :
let groups := selectGroups table in
StronglySorted (fun g h => levelBefore (groupLevel g) (groupLevel h) = true) groups
/\ (forall level, listed level groups = rowsAt level table)
/\ Forall (fun g => 1 <= groupCount g) groups
/\ fold_right Z.add 0 (map groupCount groups) = selectCount table
/\ Forall (fun line => match line with
                       | LevelLine _ count (Fin pct) _ =>
                           1 <= count <= selectCount table
                           /\ (0 < pct)%Q /\ (pct <= inject_Z 100)%Q
                       | _ => False
                       end)
          (levelLines (selectCount table) table).
Proof.
intros groups. subst groups.
destruct (selectGroups_from table [] (SSorted_nil _) (Forall_nil _))
  as (Hs & Hl & Hc & Hsum).
fold (selectGroups table) in Hs, Hl, Hc, Hsum. cbn [map fold_right] in Hsum.
split; [exact Hs|]. split; [exact Hl|]. split; [exact Hc|].
split; [exact Hsum|].
unfold levelLines. apply Forall_map, Forall_forall.
intros [[level title] count] Hin.
pose proof (count_le_sum _ _ Hc Hin) as Hle. rewrite Hsum in Hle.
rewrite Forall_forall in Hc. specialize (Hc _ Hin).
cbn [groupCount snd] in Hc, Hle.
unfold div, ofZ. rewrite isZero_inject.
destruct (selectCount table =? 0) eqn:E; [apply Z.eqb_eq in E; lia|].
cbn [mul]. split; [lia|]. split.
- apply pct_positive; lia.
- apply pct_bounds; lia.
Qed.


(** X22: when every pillar column holds a score but the mean of some
    column is at least 1.01 times the maximum of its pillar (scores
    above the scale are stored unchecked), the run prints the pillar
    statistics and the three key insights and then ends with an error
    while drawing the bars, since the second bar would have a negative
    length. *)
Theorem X22_scores_above_scale_break_the_bars (table : list Stored) :
scored table ->
(exists p, In p PILLARS
   /\ 101 * max p * Z.of_nat (length (nonNull (column p) table))
      <= 100 * fold_right Z.add 0 (nonNull (column p) table)) ->
(exists e, snd (analyzePatterns table) = Some e)
/\ length (insights (fst (analyzePatterns table))) = 3%nat.
Proof.
intros Hscored (p & Hp & Hhigh).
assert (Hnonnull : Forall (fun s => avgScore s <> None) (rankedStats table)).
{ eapply Permutation_Forall; [apply rankedStats_perm|].
  unfold pillarStats. apply Forall_map.
  eapply Forall_impl; [|exact Hscored]. intros x Hx Hnone.
  now apply avgScore_of_pillar in Hnone. }
assert (Hbad : exists e, snd (printBars (sort byAvgPctAsc (rankedStats table)))
                         = Some e).
{ apply printBars_throws.
  unfold scored in Hscored. rewrite Forall_forall in Hscored.
  destruct (avgPct_high table p Hp (Hscored p Hp) Hhigh) as (q & Hq & Hq101).
  exists (pillarStat (selectCount table) table p), q.
  split; [|split; [exact Hq|exact Hq101]].
  apply (Permutation_in _ (sort_perm byAvgPctAsc (rankedStats table))).
  apply (Permutation_in _ (rankedStats_perm table)).
  unfold pillarStats. now apply in_map. }
destruct (printStats_headings (rankedStats table) 0%nat Hnonnull) as [_ Hprint].
destruct (printStats_plain (rankedStats table) 0) as [_ Hpi].
destruct (levelLines_plain (selectCount table) table) as [_ Hli].
pose proof (printBars_plain (sort byAvgPctAsc (rankedStats table))) as Hbi.
destruct (rankedStats_top_two table) as (primary & secondary & others & Hranked).
assert (Hn0 : nth_error (rankedStats table) 0 = Some primary)
  by now rewrite Hranked.
assert (Hn1 : nth_error (rankedStats table) 1 = Some secondary)
  by now rewrite Hranked.
unfold analyzePatterns. cbv zeta.
destruct (printStats 0 (rankedStats table)) as [printed result].
cbn [fst snd] in Hprint, Hpi. subst result. rewrite Hn0, Hn1.
destruct (printBars (sort byAvgPctAsc (rankedStats table))) as [barLines r].
cbn [fst snd] in *. split; [exact Hbad|].
unfold insights in *. rewrite !filter_app. cbn [filter app].
rewrite Hli, Hpi, Hbi. reflexivity.
Qed.

(** ** Seeded tables *)

Lemma nonNull_seeded (c : Column) (table : list Stored) (gs : list Seed.Generated) :
Forall2 stores table gs -> nonNull c table = map (scoreOf c) gs.
Proof.
induction 1 as [|row g table gs (sid & ts & ->) _ IH]; [reflexivity|].
unfold nonNull in *. cbn [flat_map map]. rewrite IH.
now destruct c.
Qed.

Lemma scoreOf_on_scale (p : Pillar) (g : Seed.Generated) :
In p PILLARS -> in_range Seed.PILLAR_CONFIG (Seed.g_scores g) ->
0 <= scoreOf (column p) g <= max p.
Proof.
unfold in_range, PILLARS. cbn.
intros Hp (Hn & Hr & Hc & Hl & Hk & Hm).
repeat (destruct Hp as [<-|Hp]; [cbn; assumption|]). contradiction.
Qed.

(** X23: the reporter completes on freshly seeded data.  With draws in
    [0,1) the loop of the generator yields its records, and on a table
    that stores exactly these records (at least one) every pillar
    column holds a score, every score lies on the scale the reporter
    assumes for its pillar, the total is the number of records, and the
    run of the reporter ends without error. *)
Theorem X23_report_completes_on_seeded_data
  (now : Z) (src : Rand.Source) (n i : nat) :
Rand.uniform src ->
exists gs,
  fst (Seed.generateRecords (S n) now src i) = Some gs
  /\ forall table,
       Forall2 stores table gs ->
       selectCount table = Z.of_nat (S n)
       /\ scored table /\ onScale table
       /\ snd (analyzePatterns table) = None.
Proof.
intros Hu.
destruct (generateRecords_in_range now src Hu (S n) i) as (gs & j & Hgen & Hlen & Hrange).
exists gs. rewrite Hgen. split; [reflexivity|].
intros table Hstores.
assert (Hscored : scored table).
{ apply Forall_forall. intros p _.
  rewrite (nonNull_seeded _ _ _ Hstores).
  destruct gs; [discriminate|discriminate]. }
assert (Hscale : onScale table).
{ apply Forall_forall. intros p Hp.
  rewrite (nonNull_seeded _ _ _ Hstores). apply Forall_map.
  eapply Forall_impl; [|exact Hrange].
  intros g Hg. now apply scoreOf_on_scale. }
split; [|split; [exact Hscored|split; [exact Hscale|]]].
- unfold selectCount. now rewrite (Forall2_length Hstores), Hlen.
- now apply run_completes.
Qed.

End ReportFacts.

Section ReportExamples.
Import Verify.
Local Open Scope list_scope.
Local Open Scope Z_scope.

Lemma X18_missing_average_witness :
(exists p, In p PILLARS /\ nonNull (column p) gappedTable = [])
/\ snd (analyzePatterns gappedTable)
   = Some (Js.TypeError "Cannot read properties of null (reading 'toFixed')").
Proof.
assert (H : exists p, In p PILLARS /\ nonNull (column p) gappedTable = []).
{ exists {| name := "Reading"; column := col_reading_score;
            threshold := 2; max := 5 |}.
  split; [now left|reflexivity]. }
split; [exact H|].
exact (proj1 (X18_missing_average_ends_the_run gappedTable H)).
Defined.




Lemma overScaleTable_scored : scored overScaleTable.
Proof. unfold scored, PILLARS. repeat constructor; discriminate. Qed.

Lemma X22_scores_above_scale_witness :
scored overScaleTable
/\ exists e, snd (analyzePatterns overScaleTable) = Some e.
Proof.
split; [exact overScaleTable_scored|].
refine (proj1 (X22_scores_above_scale_break_the_bars overScaleTable
                 overScaleTable_scored _)).
exists {| name := "Numeracy"; column := col_numeracy_score;
          threshold := 4; max := 10 |}.
split; [simpl; tauto|]. vm_compute. discriminate.
Defined.

Lemma X23_report_completes_on_seeded_witness :
Rand.uniform (fun _ => 1 # 2)
/\ exists gs,
     fst (Seed.generateRecords 1 1767608430000 (fun _ => 1 # 2) 0%nat) = Some gs.
Proof.
assert (Hu : Rand.uniform (fun _ => 1 # 2)).
{ intros k. split; [unfold Qle | unfold Qlt]; simpl; lia. }
split; [exact Hu|].
destruct (X23_report_completes_on_seeded_data 1767608430000 (fun _ => 1 # 2)
            0%nat 0%nat Hu) as (gs & Hgs & _).
exists gs. exact Hgs.
Defined.

End ReportExamples.

(* ================================================================== *)
(** * The live-quiz handler: answers, early exits and versions *)
(* ================================================================== *)

Section ReturnFacts.
Import Js.
Context {W A B : Type}.

Lemma returnsOnly_ret (P : A -> Prop) (a : A) :
P a -> returnsOnly (W := W) P (ret a).
Proof. intros Ha w x w' H. injection H as <- _. exact Ha. Qed.

Lemma returnsOnly_bind (P : B -> Prop) (m : M W A) (k : A -> M W B) :
(forall a, returnsOnly P (k a)) -> returnsOnly P (bind m k).
Proof.
intros Hk w b w' H. unfold bind in H.
destruct (m w) as [[a|e] w1]; [|discriminate]. exact (Hk a w1 b w' H).
Qed.

Lemma returnsOnly_tryCatch (P : A -> Prop) (m : M W A) (h : Error -> M W A) :
returnsOnly P m -> (forall e, returnsOnly P (h e)) ->
returnsOnly P (tryCatch m h).
Proof.
intros Hm Hh w a w' H. unfold tryCatch in H.
destruct (m w) as [[x|e] w1] eqn:E.
- injection H as <- <-. exact (Hm w x w1 E).
- exact (Hh e w1 a w' H).
Qed.


Lemma bind_lift_throw (e : Error) (k : A -> M W B) (w : W) :
bind (lift (Throw e)) k w = (Throw e, w).
Proof. reflexivity. Qed.

End ReturnFacts.

Section ChatMore.
Import Js Db Http Chat ChatNotions.
Local Open Scope string_scope.
Local Open Scope list_scope.
Local Open Scope Z_scope.
Variable E : Engine.
Variable env : Env.

Local Abbreviation cors := (fun resp : Response => responseHeaders resp = corsHeaders).

Lemma handler_cors (req : Request) : returnsOnly cors (handler E env req).
Proof.
unfold handler.
destruct (String.eqb (method req) "OPTIONS"); [now apply returnsOnly_ret|].
destruct (negb (String.eqb (method req) "POST")); [now apply returnsOnly_ret|].
apply returnsOnly_tryCatch.
- apply returnsOnly_bind. intros messages.
  apply returnsOnly_bind. intros given.
  destruct (negb (truthy messages) || negb (isArray messages));
    [now apply returnsOnly_ret|].
  destruct (ANTHROPIC_API_KEY env) as [[|c key]|].
  + apply returnsOnly_bind. intros _. now apply returnsOnly_ret.
  + apply returnsOnly_bind. intros response.
    destruct (negb (ok response)).
    * apply returnsOnly_bind. intros _.
      apply returnsOnly_bind. intros details. now apply returnsOnly_ret.
    * apply returnsOnly_bind. intros data.
      apply returnsOnly_bind. intros aiText.
      apply returnsOnly_bind. intros results.
      apply returnsOnly_bind. intros _. now apply returnsOnly_ret.
  + apply returnsOnly_bind. intros _. now apply returnsOnly_ret.
- intros e. apply returnsOnly_bind. intros _. now apply returnsOnly_ret.
Qed.

Lemma handler_total (req : Request) (w : World E) :
exists resp w', handler E env req w = (Ok resp, w').
Proof.
unfold handler.
destruct (String.eqb (method req) "OPTIONS"); [eexists _, _; reflexivity|].
destruct (negb (String.eqb (method req) "POST")); [eexists _, _; reflexivity|].
unfold Js.tryCatch.
match goal with |- context [match ?m w with _ => _ end] =>
  destruct (m w) as [[resp|e] w1] end; eexists _, _; reflexivity.
Qed.





(** X24: whatever the request, the environment and the database do,
    the live-quiz handler never throws: it always returns a response,
    and every response carries the three CORS headers. *)
Theorem X24_chat_handler_always_answers (req : Request) (w : World E) :
exists resp w',
  handler E env req w = (Ok resp, w')
  /\ responseHeaders resp
     = [ ("Access-Control-Allow-Origin", "*");
         ("Access-Control-Allow-Methods", "POST, OPTIONS");
         ("Access-Control-Allow-Headers", "Content-Type") ].
Proof.
destruct (handler_total req w) as (resp & w' & Hh).
exists resp, w'. split; [exact Hh|].
exact (handler_cors req w resp w' Hh).
Qed.




End ChatMore.

Section ClientIp.
Import Js Chat.
Local Open Scope string_scope.

Lemma visible_not_space (c : ascii) : visible c = true -> isSpace c = false.
Proof.
intros H. destruct c as [[] [] [] [] [] [] [] []];
  first [reflexivity | cbv in H; discriminate H].
Qed.

Lemma firstSegment_blank (pad tail : string) :
blank pad = true -> firstSegment (pad ++ tail) = pad ++ firstSegment tail.
Proof.
induction pad as [|c pad IH]; simpl; [reflexivity|].
intros H. apply andb_true_iff in H. destruct H as [Hc Hrest].
assert (Hcomma : Ascii.eqb c "," = false).
{ destruct (Ascii.eqb c ",") eqn:E; [|reflexivity].
  apply Ascii.eqb_eq in E. subst c. discriminate. }
rewrite Hcomma. now rewrite IH.
Qed.

Lemma firstSegment_entry (ip after rest : string) :
bare ip = true -> blank after = true ->
firstSegment (ip ++ after ++ String "," rest) = ip ++ after.
Proof.
intros Hip Ha. induction ip as [|c ip IH]; simpl.
- rewrite (firstSegment_blank after _ Ha). simpl. now rewrite append_empty_r.
- simpl in Hip. apply andb_true_iff in Hip. destruct Hip as [H Hrest].
  apply andb_true_iff in H. destruct H as [Hc _].
  apply negb_true_iff in Hc. rewrite Hc. now rewrite IH.
Qed.

Lemma firstSegment_last (ip after : string) :
bare ip = true -> blank after = true ->
firstSegment (ip ++ after) = ip ++ after.
Proof.
intros Hip Ha. induction ip as [|c ip IH]; simpl.
- rewrite <- (append_empty_r after) at 1.
  rewrite (firstSegment_blank after "" Ha). simpl. now rewrite append_empty_r.
- simpl in Hip. apply andb_true_iff in Hip. destruct Hip as [H Hrest].
  apply andb_true_iff in H. destruct H as [Hc _].
  apply negb_true_iff in Hc. rewrite Hc. now rewrite IH.
Qed.

Lemma trimStart_blank (pad tail : string) :
blank pad = true -> trimStart (pad ++ tail) = trimStart tail.
Proof.
induction pad as [|c pad IH]; simpl; [reflexivity|].
intros H. apply andb_true_iff in H. destruct H as [Hc Hrest].
rewrite Hc. now apply IH.
Qed.

Lemma trimStart_bare (ip tail : string) :
bare ip = true -> ip <> "" -> trimStart (ip ++ tail) = ip ++ tail.
Proof.
destruct ip as [|c ip]; [congruence|]. simpl. intros H _.
apply andb_true_iff in H. destruct H as [H _].
apply andb_true_iff in H. destruct H as [_ Hc].
apply visible_not_space in Hc. now rewrite Hc.
Qed.

Lemma trimEnd_blank (pad : string) : blank pad = true -> trimEnd pad = "".
Proof.
induction pad as [|c pad IH]; simpl; [reflexivity|].
intros H. apply andb_true_iff in H. destruct H as [Hc Hrest].
now rewrite (IH Hrest), Hc.
Qed.

Lemma trimEnd_bare (ip pad : string) :
bare ip = true -> blank pad = true -> trimEnd (ip ++ pad) = ip.
Proof.
intros Hip Hpad. induction ip as [|c ip IH]; simpl.
- now apply trimEnd_blank.
- simpl in Hip. apply andb_true_iff in Hip. destruct Hip as [H Hrest].
  apply andb_true_iff in H. destruct H as [_ Hc].
  apply visible_not_space in Hc. rewrite (IH Hrest).
  destruct ip; [now rewrite Hc|reflexivity].
Qed.

Lemma append_nonempty (a b : string) : a <> "" -> a ++ b <> "".
Proof. destruct a; [congruence|discriminate]. Qed.

(** X28: the client address is the first entry of the
    [x-forwarded-for] header with the blanks around it removed: for an
    address [ip] of visible characters without a comma, a header made
    of blanks,
    [ip], blanks, and then either nothing or a comma followed by
    anything, yields [ip], whatever the socket address is; only
    without the header (or with an empty one) is the socket address
    used. *)
Theorem X28_client_address_is_first_forwarded_entry
  (ip before after rest : string) (req : Request) :
bare ip = true -> ip <> "" -> blank before = true -> blank after = true ->
(x_forwarded_for req = Some (before ++ ip ++ after ++ String "," rest) ->
 getClientIp req = Some ip)
/\ (x_forwarded_for req = Some (before ++ ip ++ after) -> getClientIp req = Some ip)
/\ (x_forwarded_for req = None \/ x_forwarded_for req = Some "" ->
    getClientIp req = socketAddress req).
Proof.
intros Hip Hne Hb Ha.
assert (Hne2 : forall tail, String.eqb (before ++ ip ++ tail) "" = false).
{ intros tail. apply String.eqb_neq.
  destruct before; simpl; [now apply append_nonempty|discriminate]. }
split; [|split].
- intros Hx. unfold getClientIp. rewrite Hx, Hne2. f_equal.
  rewrite (firstSegment_blank before _ Hb).
  rewrite (firstSegment_entry ip after rest Hip Ha), (trimStart_blank before _ Hb), (trimStart_bare ip after Hip Hne).
  now apply trimEnd_bare.
- intros Hx. unfold getClientIp. rewrite Hx, Hne2. f_equal.
  rewrite (firstSegment_blank before _ Hb).
  rewrite (firstSegment_last ip after Hip Ha), (trimStart_blank before _ Hb), (trimStart_bare ip after Hip Hne).
  now apply trimEnd_bare.
- intros [Hx|Hx]; unfold getClientIp; now rewrite Hx.
Qed.

End ClientIp.

Section ChatMoreExamples.
Import Js Db Http Chat ChatNotions DemoEngine.
Local Open Scope string_scope.
Local Open Scope list_scope.
Local Open Scope Z_scope.


Lemma X28_client_address_witness :
bare "203.0.113.7" = true /\ "203.0.113.7" <> "" /\ blank " " = true
/\ getClientIp (forwarded " 203.0.113.7 , 10.0.0.1") = Some "203.0.113.7".
Proof.
split; [reflexivity|]. split; [discriminate|]. split; [reflexivity|].
refine (proj1 (X28_client_address_is_first_forwarded_entry
                 "203.0.113.7" " " " " " 10.0.0.1"
                 (forwarded " 203.0.113.7 , 10.0.0.1")
                 eq_refl _ eq_refl eq_refl) eq_refl).
discriminate.
Defined.

End ChatMoreExamples.
